(** * Voxel Explorer: grid, raycaster, player and persistence

    A shallow embedding of the C sources of the ASCII voxel engine
    (vector.c, world.c, raycaster.c, player.c and the looking and block
    interaction of main.c), followed by the properties of its design
    document.

    Numbers are modelled as the program has them: [int] and [uint8_t] as
    [Z] with the wrap-around written out where C defines one, [float] as
    IEEE-754 binary32 and [double] as binary64, both through the
    executable specification [SpecFloat] of the Standard Library
    (round-to-nearest-even, no NaN payloads). Every [float] operation is
    rounded to binary32 (FLT_EVAL_METHOD 0, no contraction), as on the
    x86-64 target of the project.

    Structures are passed by value and returned when a function changes
    them; the guards against null pointers that open most functions have
    no counterpart. Loops whose number of iterations is not bounded by
    the data take a bound, [fuel], and return [None] when it is reached. *)

From Stdlib Require Import ZArith Lia Bool SpecFloat String.
From Stdlib Require Strings.Byte.
From stdpp Require Import base list numbers.

Local Open Scope Z_scope.

(** ** IEEE-754 arithmetic *)

Definition float : Type := spec_float.

Declare Scope float_scope.
Delimit Scope float_scope with flt.
Bind Scope float_scope with float.

(** The C type [float]. *)
Module F32.

Definition prec : Z := 24.
Definition emax : Z := 128.

Definition add : float -> float -> float := SFadd prec emax.
Definition sub : float -> float -> float := SFsub prec emax.
Definition mul : float -> float -> float := SFmul prec emax.
Definition div : float -> float -> float := SFdiv prec emax.
Definition sqrtf : float -> float := SFsqrt prec emax.
Definition opp : float -> float := SFopp.

Definition eqb : float -> float -> bool := SFeqb.
Definition ltb : float -> float -> bool := SFltb.
Definition leb : float -> float -> bool := SFleb.

(** Conversion of an integer, [(float)n], correctly rounded. *)
Definition of_Z (n : Z) : float := binary_normalize prec emax n 0 false.

(** A decimal literal [n/d] with [n] and [d] exactly representable: the
    correctly rounded quotient is the correctly rounded literal. *)
Definition lit (n d : Z) : float := div (of_Z n) (of_Z d).

Definition zero : float := S754_zero false.
Definition one : float := of_Z 1.

End F32.

(** The C type [double], used where [M_PI] promotes an expression. *)
Module F64.

Definition prec : Z := 53.
Definition emax : Z := 1024.

Definition add : float -> float -> float := SFadd prec emax.
Definition sub : float -> float -> float := SFsub prec emax.
Definition mul : float -> float -> float := SFmul prec emax.

(** [M_PI] of <math.h>: 3.14159265358979323846 rounded to binary64,
    that is 0x400921FB54442D18. *)
Definition M_PI : float := S754_finite false 7074237752028440 (-51).

End F64.

Infix "+" := F32.add : float_scope.
Infix "-" := F32.sub : float_scope.
Infix "*" := F32.mul : float_scope.
Infix "/" := F32.div : float_scope.
Notation "- x" := (F32.opp x) : float_scope.
Infix "<?" := F32.ltb : float_scope.
Infix "<=?" := F32.leb : float_scope.
Infix "=?" := F32.eqb : float_scope.

Definition is_nan (x : float) : bool :=
  match x with S754_nan => true | _ => false end.

(** Widening [float] to [double] is exact; the mantissa is renormalised
    for the wider format. *)
Definition double_of_float (x : float) : float :=
  match x with
  | S754_finite s m e =>
      binary_normalize F64.prec F64.emax (cond_Zopp s (Z.pos m)) e s
  | _ => x
  end.

(** Narrowing [double] to [float] rounds to nearest even. *)
Definition float_of_double (x : float) : float :=
  match x with
  | S754_finite s m e =>
      binary_normalize F32.prec F32.emax (cond_Zopp s (Z.pos m)) e s
  | _ => x
  end.

(** [floorf] of <math.h>: exact, the sign of a zero is kept. *)
Definition floorf (x : float) : float :=
  match x with
  | S754_finite s m e =>
      if 0 <=? e then x
      else
        let n := Z.shiftr (cond_Zopp s (Z.pos m)) (- e) in
        if n =? 0 then S754_zero s else F32.of_Z n
  | _ => x
  end.

Definition INT_MIN : Z := - 2 ^ 31.
Definition INT_MAX : Z := 2 ^ 31 - 1.

(** The cast [(int)x]: truncation toward zero. For a NaN, an infinity or a
    value outside the range of [int] the C standard leaves the result
    undefined; the embedding returns what the x86 conversion instruction
    (cvttss2si) returns, [INT_MIN]. *)
Definition int_of_float (x : float) : Z :=
  match x with
  | S754_zero _ => 0
  | S754_finite s m e =>
      let n :=
        if 0 <=? e then cond_Zopp s (Z.pos m * 2 ^ e)
        else cond_Zopp s (Z.shiftr (Z.pos m) (- e)) in
      if (INT_MIN <=? n) && (n <=? INT_MAX) then n else INT_MIN
  | _ => INT_MIN
  end.

(** [(int)floorf(x)], the idiom the sources use for a cell index. *)
Definition floor_int (x : float) : Z := int_of_float (floorf x).

(** ** External functions

    [cosf] and [sinf] come from the C library and are not correctly
    rounded, so they are left abstract. [clamp] is declared in utils.h;
    its definition (utils.c) is not part of the sources at hand, and it is
    taken as a parameter as well. *)

Class Libm := {
  cosf : float -> float;
  sinf : float -> float
}.

Class Utils := {
  clamp : float -> float -> float -> float
}.

(** Modelled from the spec: [clamp] (utils.c is missing). The design
    document only says that a value is "clamped to [lo, hi]": whatever
    the argument, the result lies between the two bounds. *)
Class ClampSpec `{Utils} : Prop :=
  clamp_range : forall v lo hi : float,
    F32.leb lo hi = true ->
    F32.leb lo (clamp v lo hi) = true /\ F32.leb (clamp v lo hi) hi = true.

(** ** vector.c *)

Record Vector2 := vec2_create { v2_x : float; v2_y : float }.
Record Vector3 := vec3_create { v_x : float; v_y : float; v_z : float }.

Definition vec3_add (a b : Vector3) : Vector3 :=
  vec3_create (v_x a + v_x b) (v_y a + v_y b) (v_z a + v_z b).

Definition vec3_mul (a : Vector3) (scalar : float) : Vector3 :=
  vec3_create (v_x a * scalar) (v_y a * scalar) (v_z a * scalar).

Definition vec3_div (a : Vector3) (scalar : float) : Vector3 :=
  if (scalar =? F32.zero)%flt then a
  else vec3_create (v_x a / scalar) (v_y a / scalar) (v_z a / scalar).

Definition vec3_length (v : Vector3) : float :=
  F32.sqrtf (v_x v * v_x v + v_y v * v_y v + v_z v * v_z v).

Definition vec3_normalize (v : Vector3) : Vector3 :=
  let length := vec3_length v in
  if (length <? F32.lit 1 10000)%flt then vec3_create F32.zero F32.zero F32.zero
  else vec3_div v length.

Definition vec3_from_angles `{Libm} (pitch yaw : float) : Vector3 :=
  vec3_create (cosf pitch * cosf yaw) (cosf pitch * sinf yaw) (sinf pitch).

(** ** config.h *)

Definition MAX_BLOCK_TYPES : Z := 16.
Definition ENABLE_FOG : bool := true.
Definition FOG_START : float := F32.of_Z 10.
Definition FOG_END : float := F32.of_Z 15.

Definition BLOCK_AIR : Z := 0.
Definition BLOCK_DIRT : Z := 1.
Definition BLOCK_GRASS : Z := 2.
Definition BLOCK_STONE : Z := 3.
Definition BLOCK_WOOD : Z := 4.
Definition BLOCK_LEAVES : Z := 5.
Definition BLOCK_WATER : Z := 6.
Definition BLOCK_SAND : Z := 7.
Definition BLOCK_BRICK : Z := 8.

Definition COLOR_BLACK : Z := 0.
Definition COLOR_RED : Z := 1.
Definition COLOR_GREEN : Z := 2.
Definition COLOR_YELLOW : Z := 3.
Definition COLOR_BLUE : Z := 4.
Definition COLOR_WHITE : Z := 7.
Definition COLOR_BRIGHT : Z := 8.

(** ** world.h, world.c *)

Record BlockType := {
  display_char : Z;          (* a C char, by its code *)
  fg_color : Z;
  bg_color : Z;
  solid : Z;                 (* an int used as a truth value *)
  light_absorption : float;
  name : option string       (* a char pointer, possibly null *)
}.

(** [blocks] is the array of arrays of rows of the C structure, indexed
    [blocks[z][y][x]]; a cell is a [uint8_t]. *)
Module World.
Record t := mk {
  width : Z;
  height : Z;
  depth : Z;
  blocks : list (list (list Z));
  block_types : list BlockType;
  num_block_types : Z;
  time_of_day : float;
  sky_brightness : float
}.
End World.
Abbreviation World := World.t.

Definition zero_block_type : BlockType :=
  {| display_char := 0; fg_color := 0; bg_color := 0; solid := 0;
     light_absorption := F32.zero; name := None |}.

(** The static table; the entries after "Brick" are zero-initialised. *)
Definition default_block_types : list BlockType :=
  [ Build_BlockType 32 COLOR_BLACK COLOR_BLACK 0 F32.zero (Some "Air"%string);
    Build_BlockType 46 COLOR_YELLOW COLOR_BLACK 1 (F32.lit 6 10) (Some "Dirt"%string);
    Build_BlockType 34 COLOR_GREEN COLOR_BLACK 1 (F32.lit 5 10) (Some "Grass"%string);
    Build_BlockType 35 COLOR_WHITE COLOR_BLACK 1 (F32.lit 8 10) (Some "Stone"%string);
    Build_BlockType 124 (Z.lor COLOR_YELLOW COLOR_BRIGHT) COLOR_BLACK 1
      (F32.lit 7 10) (Some "Wood"%string);
    Build_BlockType 42 (Z.lor COLOR_GREEN COLOR_BRIGHT) COLOR_BLACK 1
      (F32.lit 5 10) (Some "Leaves"%string);
    Build_BlockType 126 COLOR_BLUE COLOR_BLACK 0 (F32.lit 3 10) (Some "Water"%string);
    Build_BlockType 44 (Z.lor COLOR_YELLOW COLOR_BRIGHT) COLOR_BLACK 1
      (F32.lit 4 10) (Some "Sand"%string);
    Build_BlockType 61 COLOR_RED COLOR_BLACK 1 (F32.lit 9 10) (Some "Brick"%string) ]
  ++ replicate 7 zero_block_type.

(** The structure a successful [world_create] returns: all cells are air,
    the block types are a copy of the static table. *)
Definition fresh_world (width height depth : Z) : World :=
  {| World.width := width; World.height := height; World.depth := depth;
     World.blocks := replicate (Z.to_nat depth)
                       (replicate (Z.to_nat height)
                          (replicate (Z.to_nat width) BLOCK_AIR));
     World.block_types := default_block_types;
     World.num_block_types := MAX_BLOCK_TYPES;
     World.time_of_day := F32.lit 5 10;
     World.sky_brightness := F32.one |}.

(** [world_create]. [mem_ok] tells whether every allocation of the call
    succeeds; when one fails the function frees what it has and returns
    a null pointer. *)
Definition world_create (mem_ok : bool) (width height depth : Z) : option World :=
  if mem_ok then Some (fresh_world width height depth) else None.

Definition world_is_valid_position (world : World) (x y z : Z) : bool :=
  (0 <=? x) && (x <? World.width world) &&
  (0 <=? y) && (y <? World.height world) &&
  (0 <=? z) && (z <? World.depth world).

(** The read [world->blocks[z][y][x]]; every caller checks the position
    first. *)
Definition block_at (world : World) (x y z : Z) : Z :=
  default 0
    (row ← (World.blocks world !! Z.to_nat z) ≫= (.!! Z.to_nat y);
     row !! Z.to_nat x).

Definition world_get_block (world : World) (x y z : Z) : Z :=
  if negb (world_is_valid_position world x y z) then BLOCK_AIR
  else block_at world x y z.

Definition set_blocks (world : World) (b : list (list (list Z))) : World :=
  {| World.width := World.width world; World.height := World.height world;
     World.depth := World.depth world;
     World.blocks := b; World.block_types := World.block_types world;
     World.num_block_types := World.num_block_types world;
     World.time_of_day := World.time_of_day world;
     World.sky_brightness := World.sky_brightness world |}.

Definition world_set_block (world : World) (x y z : Z) (type : Z) : World :=
  if negb (world_is_valid_position world x y z) then world
  else
    set_blocks world
      (alter (alter (fun row => <[Z.to_nat x := type]> row) (Z.to_nat y))
         (Z.to_nat z) (World.blocks world)).

(** The result is the [int] the C function returns: 0, or the [solid]
    field of the block type. *)
Definition world_is_solid (world : World) (x y z : Z) : Z :=
  if negb (world_is_valid_position world x y z) then 0
  else
    let type := block_at world x y z in
    if World.num_block_types world <=? type then 0
    else
      match World.block_types world !! Z.to_nat type with
      | Some bt => solid bt
      | None => 0
      end.

(** The body of the loop of [world_get_brightness]. *)
Definition brightness_step (world : World) (x y : Z)
    (brightness : float) (check_z : Z) : float :=
  if world_is_valid_position world x y check_z then
    let block_above := block_at world x y check_z in
    if negb (block_above =? BLOCK_AIR) && negb (block_above =? BLOCK_WATER)
    then (brightness * F32.lit 7 10)%flt
    else brightness
  else brightness.

(** [for (check_z = z + 1; check_z < depth; check_z++)] runs over
    [seqZ (z + 1) (depth - (z + 1))]. *)
Definition world_get_brightness `{Utils} (world : World) (x y z : Z) : float :=
  if negb (world_is_valid_position world x y z) then F32.zero
  else
    clamp
      (foldl (brightness_step world x y) (World.sky_brightness world)
         (seqZ (z + 1) (World.depth world - (z + 1))))
      (F32.lit 2 10) F32.one.

(** ** raycaster.h, raycaster.c *)

Module RayHit.
Record t := mk {
  hit : Z;
  block_type : Z;
  distance : float;
  position : Vector3;
  normal : Vector3;
  face : Z;
  brightness : float
}.
End RayHit.
Abbreviation RayHit := RayHit.t.

Definition vec3_zero : Vector3 := vec3_create F32.zero F32.zero F32.zero.

Definition face_normals : list Vector3 :=
  [ vec3_create F32.one F32.zero F32.zero;
    vec3_create (- F32.one) F32.zero F32.zero;
    vec3_create F32.zero F32.one F32.zero;
    vec3_create F32.zero (- F32.one) F32.zero;
    vec3_create F32.zero F32.zero F32.one;
    vec3_create F32.zero F32.zero (- F32.one) ].

Definition face_brightness : list float :=
  [ F32.lit 8 10; F32.lit 6 10; F32.one; F32.lit 2 10; F32.lit 9 10; F32.lit 7 10 ].

(** The variables of the traversal that change in the loop. *)
Record Dda := {
  t_max_x : float; t_max_y : float; t_max_z : float;
  map_x : Z; map_y : Z; map_z : Z;
  dda_distance : float;
  dda_face : Z
}.

(** Those that do not. *)
Record DdaStep := {
  t_delta_x : float; t_delta_y : float; t_delta_z : float;
  step_x : Z; step_y : Z; step_z : Z
}.

(** "Direction step and initial step distance" for one axis: the three
    blocks of the source differ only in the axis they read. The result
    is (t_delta, t_max, step). *)
Definition axis_setup (dir pos : float) (map : Z) : float * float * Z :=
  if (dir =? F32.zero)%flt then (F32.of_Z (10 ^ 30), F32.of_Z (10 ^ 30), 0)
  else if (F32.zero <? dir)%flt then
    let t_delta := (F32.one / dir)%flt in
    (t_delta, (t_delta * (F32.of_Z (map + 1) - pos))%flt, 1)
  else
    let t_delta := (F32.one / - dir)%flt in
    (t_delta, (t_delta * (pos - F32.of_Z map))%flt, -1).

Inductive Axis := AxisX | AxisY | AxisZ.

(** "Find the closest axis to step along": the conditions of the
    if / else if / else chain. *)
Definition dda_select (tx ty tz : float) : Axis :=
  if (tx <? ty)%flt && (tx <? tz)%flt then AxisX
  else if (ty <? tz)%flt then AxisY
  else AxisZ.

(** The first half of the loop body: advance along the chosen axis. The
    cell index is an [int]; it leaves [0, dimension) by at most one
    before the bounds check ends the loop. *)
Definition dda_advance (c : DdaStep) (st : Dda) : Dda :=
  match dda_select (t_max_x st) (t_max_y st) (t_max_z st) with
  | AxisX =>
      {| dda_distance := t_max_x st;
         t_max_x := t_max_x st + t_delta_x c;
         map_x := map_x st + step_x c;
         dda_face := if 0 <? step_x c then 1 else 0;
         t_max_y := t_max_y st; t_max_z := t_max_z st;
         map_y := map_y st; map_z := map_z st |}
  | AxisY =>
      {| dda_distance := t_max_y st;
         t_max_y := t_max_y st + t_delta_y c;
         map_y := map_y st + step_y c;
         dda_face := if 0 <? step_y c then 3 else 2;
         t_max_x := t_max_x st; t_max_z := t_max_z st;
         map_x := map_x st; map_z := map_z st |}
  | AxisZ =>
      {| dda_distance := t_max_z st;
         t_max_z := t_max_z st + t_delta_z c;
         map_z := map_z st + step_z c;
         dda_face := if 0 <? step_z c then 5 else 4;
         t_max_x := t_max_x st; t_max_y := t_max_y st;
         map_x := map_x st; map_y := map_y st |}
  end.

Section CastRay.
Context `{Utils}.
Variable world : World.
Variables ray_pos ray_dir : Vector3.
Variable max_distance : float.
Variable c : DdaStep.

(** [RayHit result = { 0 }], then [hit = 0] and [distance = max_distance]. *)
Definition ray_miss : RayHit :=
  {| RayHit.hit := 0; RayHit.block_type := 0;
     RayHit.distance := max_distance;
     RayHit.position := vec3_zero; RayHit.normal := vec3_zero;
     RayHit.face := 0; RayHit.brightness := F32.zero |}.

(** "We hit something!" *)
Definition ray_hit (st : Dda) (block_type : Z) : RayHit :=
  let distance := dda_distance st in
  let face := dda_face st in
  let brightness :=
    (world_get_brightness world (map_x st) (map_y st) (map_z st)
     * default F32.zero (face_brightness !! Z.to_nat face))%flt in
  let brightness :=
    if ENABLE_FOG then
      let fog_factor :=
        clamp ((distance - FOG_START) / (FOG_END - FOG_START))%flt
          F32.zero F32.one in
      (brightness * (F32.one - fog_factor * F32.lit 8 10))%flt
    else brightness in
  {| RayHit.hit := 1; RayHit.block_type := block_type;
     RayHit.distance := distance;
     RayHit.position := vec3_add ray_pos (vec3_mul ray_dir distance);
     RayHit.normal := default vec3_zero (face_normals !! Z.to_nat face);
     RayHit.face := face;
     RayHit.brightness := clamp brightness (F32.lit 2 10) F32.one |}.

Definition out_of_bounds (st : Dda) : bool :=
  (map_x st <? 0) || (map_y st <? 0) || (map_z st <? 0) ||
  (World.width world <=? map_x st) || (World.height world <=? map_y st) ||
  (World.depth world <=? map_z st).

(** [while (distance < max_distance) { ... }]; [fuel] bounds the number
    of iterations and [None] means that it ran out. *)
Fixpoint dda_loop (fuel : nat) (st : Dda) : option RayHit :=
  match fuel with
  | O => None
  | S fuel' =>
      if (dda_distance st <? max_distance)%flt then
        let st' := dda_advance c st in
        if out_of_bounds st' then Some ray_miss
        else
          let block_type := world_get_block world (map_x st') (map_y st') (map_z st') in
          if negb (block_type =? BLOCK_AIR) then Some (ray_hit st' block_type)
          else dda_loop fuel' st'
      else Some ray_miss
  end.
End CastRay.

(** The state on entry to the loop. *)
Definition dda_init (position direction : Vector3) : DdaStep * Dda :=
  let ray_pos := position in
  let ray_dir := vec3_normalize direction in
  let map_x := floor_int (v_x ray_pos) in
  let map_y := floor_int (v_y ray_pos) in
  let map_z := floor_int (v_z ray_pos) in
  let '(t_delta_x, t_max_x, step_x) := axis_setup (v_x ray_dir) (v_x ray_pos) map_x in
  let '(t_delta_y, t_max_y, step_y) := axis_setup (v_y ray_dir) (v_y ray_pos) map_y in
  let '(t_delta_z, t_max_z, step_z) := axis_setup (v_z ray_dir) (v_z ray_pos) map_z in
  ({| t_delta_x := t_delta_x; t_delta_y := t_delta_y; t_delta_z := t_delta_z;
      step_x := step_x; step_y := step_y; step_z := step_z |},
   {| t_max_x := t_max_x; t_max_y := t_max_y; t_max_z := t_max_z;
      map_x := map_x; map_y := map_y; map_z := map_z;
      dda_distance := F32.zero; dda_face := 0 |}).

Definition cast_ray `{Utils} (fuel : nat) (world : World)
    (position direction : Vector3) (max_distance : float) : option RayHit :=
  let '(c, st) := dda_init position direction in
  dda_loop world position (vec3_normalize direction) max_distance c fuel st.

(** ** player.h, player.c *)

Module Player.
Record t := mk {
  position : Vector3;
  velocity : Vector3;
  rotation : Vector2;        (* x is the pitch, y the yaw *)
  height : float;
  width : float;
  grounded : Z;
  flying : Z;
  health : float;
  stamina : float;
  selected_slot : Z;
  inventory : list Z         (* MAX_BLOCK_TYPES cells of type uint8_t *)
}.
End Player.
Abbreviation Player := Player.t.

Definition set_rotation (player : Player) (r : Vector2) : Player :=
  Player.mk (Player.position player) (Player.velocity player) r
    (Player.height player) (Player.width player) (Player.grounded player)
    (Player.flying player) (Player.health player) (Player.stamina player)
    (Player.selected_slot player) (Player.inventory player).

Definition set_selected_slot (player : Player) (slot : Z) : Player :=
  Player.mk (Player.position player) (Player.velocity player)
    (Player.rotation player)
    (Player.height player) (Player.width player) (Player.grounded player)
    (Player.flying player) (Player.health player) (Player.stamina player)
    slot (Player.inventory player).

Definition set_inventory (player : Player) (inv : list Z) : Player :=
  Player.mk (Player.position player) (Player.velocity player)
    (Player.rotation player)
    (Player.height player) (Player.width player) (Player.grounded player)
    (Player.flying player) (Player.health player) (Player.stamina player)
    (Player.selected_slot player) inv.

(** [inventory[i]] read and written. The array has [MAX_BLOCK_TYPES]
    cells; an index beyond it is an access outside the allocation, which C
    leaves undefined: the embedding then reads 0 and writes nothing, and
    the properties below say when the index is within the array. *)
Definition inventory_get (player : Player) (i : Z) : Z :=
  default 0 (Player.inventory player !! Z.to_nat i).

Definition inventory_set (player : Player) (i : Z) (count : Z) : Player :=
  set_inventory player (<[Z.to_nat i := count]> (Player.inventory player)).

(** Conversion to [uint8_t]. *)
Definition uint8 (n : Z) : Z := n mod 256.

Definition WORLD_WIDTH : Z := 64.
Definition WORLD_HEIGHT : Z := 64.
Definition GROUND_HEIGHT : Z := 3.
Definition EYE_HEIGHT : float := F32.lit 16 10.
Definition PLAYER_HEIGHT : float := F32.lit 18 10.
Definition PLAYER_WIDTH : float := F32.lit 6 10.

Definition initial_inventory : list Z :=
  <[Z.to_nat BLOCK_BRICK := 16]>
    (<[Z.to_nat BLOCK_WOOD := 16]>
       (<[Z.to_nat BLOCK_GRASS := 64]>
          (<[Z.to_nat BLOCK_STONE := 64]>
             (<[Z.to_nat BLOCK_DIRT := 64]>
                (replicate (Z.to_nat MAX_BLOCK_TYPES) 0))))).

Definition player_create (mem_ok : bool) : option Player :=
  if mem_ok then
    Some {| Player.position :=
              vec3_create (F32.of_Z WORLD_WIDTH / F32.of_Z 2)
                (F32.of_Z WORLD_HEIGHT / F32.of_Z 2)
                (F32.of_Z GROUND_HEIGHT + EYE_HEIGHT);
            Player.velocity := vec3_zero;
            Player.rotation := vec2_create F32.zero F32.zero;
            Player.height := PLAYER_HEIGHT;
            Player.width := PLAYER_WIDTH;
            Player.grounded := 0;
            Player.flying := 0;
            Player.health := F32.of_Z 100;
            Player.stamina := F32.of_Z 100;
            Player.selected_slot := 1;
            Player.inventory := initial_inventory |}
  else None.

(** [while (cond) body], with a bound on the number of iterations. *)
Fixpoint while_do {A : Type} (fuel : nat) (cond : A -> bool) (body : A -> A)
    (a : A) : option A :=
  match fuel with
  | O => None
  | S fuel' => if cond a then while_do fuel' cond body (body a) else Some a
  end.

(** [2.0f * M_PI] has type [double]. *)
Definition two_pi : float := F64.mul (double_of_float (F32.of_Z 2)) F64.M_PI.

(** [player->rotation.y >= 2.0f * M_PI]: the yaw is widened and the
    comparison is made in [double]. *)
Definition yaw_too_big (y : float) : bool := SFleb two_pi (double_of_float y).

(** [player->rotation.y -= 2.0f * M_PI]: computed in [double], stored as
    [float]. *)
Definition yaw_down (y : float) : float :=
  float_of_double (F64.sub (double_of_float y) two_pi).

Definition yaw_negative (y : float) : bool := (y <? F32.zero)%flt.

Definition yaw_up (y : float) : float :=
  float_of_double (F64.add (double_of_float y) two_pi).

Definition clamp_pitch (x : float) : float :=
  let x := if (F32.lit 15 10 <? x)%flt then F32.lit 15 10 else x in
  if (x <? - F32.lit 15 10)%flt then (- F32.lit 15 10)%flt else x.

Definition player_rotate (fuel : nat) (player : Player) (pitch yaw : float)
    : option Player :=
  let x := (v2_x (Player.rotation player) + pitch)%flt in
  let y := (v2_y (Player.rotation player) + yaw)%flt in
  let x := clamp_pitch x in
  y ← while_do fuel yaw_too_big yaw_down y;
  y ← while_do fuel yaw_negative yaw_up y;
  Some (set_rotation player (vec2_create x y)).

Definition player_get_camera_position (player : Player) : Vector3 :=
  Player.position player.

Definition player_get_view_direction `{Libm} (player : Player) : Vector3 :=
  vec3_from_angles (v2_x (Player.rotation player)) (v2_y (Player.rotation player)).

(** The ray every interaction casts, 5 units long. *)
Definition interaction_ray `{Libm} `{Utils} (fuel : nat) (player : Player)
    (world : World) : option RayHit :=
  cast_ray fuel world (player_get_camera_position player)
    (player_get_view_direction player) (F32.of_Z 5).

(** "Place block adjacent to hit position". *)
Definition place_target (hit : RayHit) : Z * Z * Z :=
  let half := F32.lit 5 10 in
  (floor_int (v_x (RayHit.position hit) + v_x (RayHit.normal hit) * half),
   floor_int (v_y (RayHit.position hit) + v_y (RayHit.normal hit) * half),
   floor_int (v_z (RayHit.position hit) + v_z (RayHit.normal hit) * half)).

(** "Get block position". *)
Definition break_target (hit : RayHit) : Z * Z * Z :=
  (floor_int (v_x (RayHit.position hit)),
   floor_int (v_y (RayHit.position hit)),
   floor_int (v_z (RayHit.position hit))).

Definition player_place_block `{Libm} `{Utils} (fuel : nat) (player : Player)
    (world : World) (block_type : Z) : option (Player * World) :=
  hit ← interaction_ray fuel player world;
  if negb (RayHit.hit hit =? 0) then
    let '(x, y, z) := place_target hit in
    if world_is_valid_position world x y z then
      if 0 <? inventory_get player block_type then
        Some (inventory_set player block_type
                (uint8 (inventory_get player block_type - 1)),
              world_set_block world x y z block_type)
      else Some (player, world)
    else Some (player, world)
  else Some (player, world).

Definition player_break_block `{Libm} `{Utils} (fuel : nat) (player : Player)
    (world : World) : option (Player * World) :=
  hit ← interaction_ray fuel player world;
  if negb (RayHit.hit hit =? 0) then
    let '(x, y, z) := break_target hit in
    let block_type := world_get_block world x y z in
    Some (inventory_set player block_type
            (uint8 (inventory_get player block_type + 1)),
          world_set_block world x y z BLOCK_AIR)
  else Some (player, world).

Definition player_select_slot (player : Player) (slot : Z) : Player :=
  if (1 <=? slot) && (slot <=? 9) then set_selected_slot player slot
  else player.

(** The [int] slot is returned as a [uint8_t]. *)
Definition player_get_selected_block (player : Player) : Z :=
  uint8 (Player.selected_slot player).

Definition player_give_block (player : Player) (block_type : Z) (amount : Z)
    : Player :=
  if block_type <? MAX_BLOCK_TYPES then
    inventory_set player block_type
      (uint8 (inventory_get player block_type + amount))
  else player.

(** ** main.c: [game_process_input]

    Of this function the statements under "Player looking", "Block
    interaction" and "Select inventory slot with number keys" are
    embedded, the first apart from the other two. [pressed] is
    [terminal_key_pressed], by character code. *)

Definition KEY_e : Z := 101.
Definition KEY_r : Z := 114.
Definition KEY_0 : Z := 48.
Definition KEY_w : Z := 119.
Definition KEY_s : Z := 115.
Definition KEY_a : Z := 97.
Definition KEY_d : Z := 100.

Definition PLAYER_TURN_SPEED : float := F32.lit 5 100.

Definition game_process_input_blocks `{Libm} `{Utils} (fuel : nat)
    (pressed : Z -> bool) (player : Player) (world : World)
    : option (Player * World) :=
  '(player, world) ←
    (if pressed KEY_e
     then player_place_block fuel player world (uint8 (Player.selected_slot player))
     else Some (player, world));
  '(player, world) ←
    (if pressed KEY_r then player_break_block fuel player world
     else Some (player, world));
  Some (foldl (fun player i =>
                 if pressed (KEY_0 + i) then player_select_slot player i
                 else player)
          player (seqZ 1 9),
        world).

(** The statements under "Player looking"; [held] is
    [terminal_key_held]. *)
Definition game_process_input_look (fuel : nat) (held : Z -> bool)
    (player : Player) : option Player :=
  let turn_speed := PLAYER_TURN_SPEED in
  player ← (if held KEY_w then player_rotate fuel player turn_speed F32.zero
            else Some player);
  player ← (if held KEY_s then player_rotate fuel player (- turn_speed) F32.zero
            else Some player);
  player ← (if held KEY_a then player_rotate fuel player F32.zero (- turn_speed)
            else Some player);
  if held KEY_d then player_rotate fuel player F32.zero turn_speed
  else Some player.

(** ** world.c: persistence

    A file is the list of its bytes. Objects are written as they lie in
    memory on the target of the project (Windows on x86): an [int] is four
    bytes, two's complement, least significant byte first; a [float] is
    the four bytes of its binary32 pattern. *)

Abbreviation byte := Byte.byte.

Definition Z_of_byte (b : byte) : Z := Z.of_N (Byte.to_N b).

Definition byte_of_Z (n : Z) : byte :=
  default Byte.x00 (Byte.of_N (Z.to_N (n mod 256))).

Definition encode_uint32 (u : Z) : list byte :=
  [ byte_of_Z u; byte_of_Z (u / 2 ^ 8); byte_of_Z (u / 2 ^ 16);
    byte_of_Z (u / 2 ^ 24) ].

Definition decode_uint32 (bs : list byte) : Z :=
  match bs with
  | [b0; b1; b2; b3] =>
      Z_of_byte b0 + 2 ^ 8 * Z_of_byte b1 + 2 ^ 16 * Z_of_byte b2
      + 2 ^ 24 * Z_of_byte b3
  | _ => 0
  end.

Definition encode_int32 (n : Z) : list byte := encode_uint32 (n mod 2 ^ 32).

Definition decode_int32 (bs : list byte) : Z :=
  let u := decode_uint32 bs in
  if 2 ^ 31 <=? u then u - 2 ^ 32 else u.

(** The binary32 pattern: sign, 8 bits of biased exponent, 23 bits of
    fraction. The one NaN of [SpecFloat] is written as the default quiet
    NaN. *)
Definition bits_of_float (f : float) : Z :=
  match f with
  | S754_zero s => if s then 2 ^ 31 else 0
  | S754_infinity s => (if s then 2 ^ 31 else 0) + 255 * 2 ^ 23
  | S754_nan => 255 * 2 ^ 23 + 2 ^ 22
  | S754_finite s m e =>
      (if s then 2 ^ 31 else 0)
      + (if Z.pos m <? 2 ^ 23 then Z.pos m
         else (e + 150) * 2 ^ 23 + (Z.pos m - 2 ^ 23))
  end.

Definition float_of_bits (b : Z) : float :=
  let s := 2 ^ 31 <=? b in
  let ex := (b / 2 ^ 23) mod 256 in
  let frac := b mod 2 ^ 23 in
  if ex =? 0 then
    if frac =? 0 then S754_zero s else S754_finite s (Z.to_pos frac) (-149)
  else if ex =? 255 then
    if frac =? 0 then S754_infinity s else S754_nan
  else S754_finite s (Z.to_pos (frac + 2 ^ 23)) (ex - 150).

Definition encode_float (f : float) : list byte := encode_uint32 (bits_of_float f).
Definition decode_float (bs : list byte) : float := float_of_bits (decode_uint32 bs).

(** The row [world->blocks[z][y]]. *)
Definition block_row (world : World) (z y : Z) : list Z :=
  default [] ((World.blocks world !! Z.to_nat z) ≫= (.!! Z.to_nat y)).

(** [fwrite(world->blocks[z][y], sizeof(uint8_t), world->width, file)]. *)
Definition fwrite_row (world : World) (z y : Z) : list byte :=
  byte_of_Z <$> take (Z.to_nat (World.width world)) (block_row world z y).

(** [world_save]: the content of the file once [fopen] has succeeded
    (the function then returns 1). *)
Definition world_save (world : World) : list byte :=
  encode_int32 (World.width world)
  ++ encode_int32 (World.height world)
  ++ encode_int32 (World.depth world)
  ++ (z ← seqZ 0 (World.depth world);
      y ← seqZ 0 (World.height world);
      fwrite_row world z y)
  ++ encode_float (World.time_of_day world)
  ++ encode_float (World.sky_brightness world).

(** [fread] of [n] bytes from what is left of the file: the bytes and
    the rest, or [None] when fewer than [n] are left (the call then
    returns a short count, which every caller treats as a failure). *)
Definition fread (n : nat) (file : list byte) : option (list byte * list byte) :=
  if decide (n <= length file)%nat then Some (take n file, drop n file)
  else None.

Definition fread_int (file : list byte) : option (Z * list byte) :=
  '(bs, rest) ← fread 4 file; Some (decode_int32 bs, rest).

Definition fread_float (file : list byte) : option (float * list byte) :=
  '(bs, rest) ← fread 4 file; Some (decode_float bs, rest).

(** [fread(world->blocks[z][y], sizeof(uint8_t), world->width, file) !=
    world->width]. The count is a [size_t]: a negative width converts to
    a count no file can supply, and the comparison fails. *)
Definition fread_row (width : Z) (file : list byte) : option (list Z * list byte) :=
  if width <? 0 then None
  else
    match fread (Z.to_nat width) file with
    | Some (bs, rest) => Some (Z_of_byte <$> bs, rest)
    | None => None
    end.

(** The loop over [y], for [n] rows: each row read replaces a row of the
    grid [world_create] has allocated, so that the plane after the loop
    is the list of the rows read. *)
Fixpoint fread_plane (n : nat) (width : Z) (file : list byte)
    : option (list (list Z) * list byte) :=
  match n with
  | O => Some ([], file)
  | S n' =>
      '(row, file) ← fread_row width file;
      '(rows, file) ← fread_plane n' width file;
      Some (row :: rows, file)
  end.

(** The loop over [z], for [n] planes. *)
Fixpoint fread_blocks (n : nat) (height width : Z) (file : list byte)
    : option (list (list (list Z)) * list byte) :=
  match n with
  | O => Some ([], file)
  | S n' =>
      '(plane, file) ← fread_plane (Z.to_nat height) width file;
      '(planes, file) ← fread_blocks n' height width file;
      Some (plane :: planes, file)
  end.

(** [world_load], on the content of a file that [fopen] has opened. *)
Definition world_load (mem_ok : bool) (file : list byte) : option World :=
  '(width, file) ← fread_int file;
  '(height, file) ← fread_int file;
  '(depth, file) ← fread_int file;
  world ← world_create mem_ok width height depth;
  '(blocks, file) ←
     fread_blocks (Z.to_nat (World.depth world)) (World.height world)
       (World.width world) file;
  '(time_of_day, file) ← fread_float file;
  '(sky_brightness, file) ← fread_float file;
  Some {| World.width := World.width world;
          World.height := World.height world;
          World.depth := World.depth world;
          World.blocks := blocks;
          World.block_types := World.block_types world;
          World.num_block_types := World.num_block_types world;
          World.time_of_day := time_of_day;
          World.sky_brightness := sky_brightness |}.

(** ** Runs of actions *)



(** The looking of a run of frames, given the keys held in each. *)
Fixpoint look_frames (fuel : nat) (player : Player) (frames : list (Z -> bool))
    : option Player :=
  match frames with
  | [] => Some player
  | held :: frames =>
      player ← game_process_input_look fuel held player;
      look_frames fuel player frames
  end.

(** A run of [player_rotate] calls, one per pair (pitch, yaw) of deltas. *)
Fixpoint rotate_all (fuel : nat) (player : Player) (deltas : list (float * float))
    : option Player :=
  match deltas with
  | [] => Some player
  | (pitch, yaw) :: deltas =>
      player ← player_rotate fuel player pitch yaw;
      rotate_all fuel player deltas
  end.

(** ** Instances and data of the examples *)

(** [fmaxf] and [fminf] of C99: a NaN argument is missing data. *)
Definition fmaxf (a b : float) : float :=
  if is_nan a then b else if is_nan b then a
  else if (a <? b)%flt then b else a.

Definition fminf (a b : float) : float :=
  if is_nan a then b else if is_nan b then a
  else if (b <? a)%flt then b else a.

(** A [clamp] that meets [ClampSpec]. *)
Definition utils_minmax : Utils :=
  {| clamp v lo hi := fminf (fmaxf v lo) hi |}.

(** The C library at the one argument the examples use: C99 (F.9.1)
    requires cos(0) = 1 and sin(0) = 0 exactly. Elsewhere this instance
    answers NaN, so that nothing can be computed from it by accident. *)
Definition libm_at_zero : Libm :=
  {| cosf x := match x with S754_zero _ => F32.one | _ => S754_nan end;
     sinf x := match x with S754_zero _ => x | _ => S754_nan end |}.

Definition f32_half : float := F32.lit 5 10.

(** A player standing at [position], looking along yaw 0 and pitch 0 (the
    +X direction), with the inventory of [player_create]. *)
Definition player_at (position : Vector3) : Player :=
  {| Player.position := position;
     Player.velocity := vec3_zero;
     Player.rotation := vec2_create F32.zero F32.zero;
     Player.height := PLAYER_HEIGHT;
     Player.width := PLAYER_WIDTH;
     Player.grounded := 0;
     Player.flying := 0;
     Player.health := F32.of_Z 100;
     Player.stamina := F32.of_Z 100;
     Player.selected_slot := 1;
     Player.inventory := initial_inventory |}.

(** The grid of the design document's example: 2 x 2 x 2, the cell
    (0,0,0) solid. *)
Definition corner_grid : World := world_set_block (fresh_world 2 2 2) 0 0 0 BLOCK_DIRT.

(** A row of four cells along X with a block of dirt at x = 2, and the
    same with a second one behind it at x = 3. *)
Definition row_one_block : World := world_set_block (fresh_world 4 1 1) 2 0 0 BLOCK_DIRT.
Definition row_two_blocks : World := world_set_block row_one_block 3 0 0 BLOCK_DIRT.

(** A player in the first cell of such a row, at (0.5, 0.5, 0.5). *)
Definition row_player : Player := player_at (vec3_create f32_half f32_half f32_half).


(** A column of stone, water and air over a cell, in a 1 x 1 x 5 grid. *)
Definition shaft : World :=
  world_set_block
    (world_set_block
       (world_set_block (fresh_world 1 1 5) 0 0 1 BLOCK_STONE) 0 0 2 BLOCK_WATER)
    0 0 4 BLOCK_STONE.

(** ** Vocabulary of the properties *)

(** A block that darkens the cells below it: neither air nor water. *)
Definition occludes (id : Z) : bool :=
  negb (id =? BLOCK_AIR) && negb (id =? BLOCK_WATER).

(** The number of such blocks strictly above (x, y, z), up to the
    ceiling of the grid. *)
Definition occluders_above (world : World) (x y z : Z) : nat :=
  length
    (List.filter (fun check_z => occludes (world_get_block world x y check_z))
       (seqZ (z + 1) (World.depth world - (z + 1)))).

(** [k] multiplications by 0.7f. *)
Definition darken (k : nat) (brightness : float) : float :=
  Nat.iter k (fun b => (b * F32.lit 7 10)%flt) brightness.




Definition t_delta (a : Axis) (c : DdaStep) : float :=
  match a with AxisX => t_delta_x c | AxisY => t_delta_y c | AxisZ => t_delta_z c end.


(** ** Rays and rotations of the examples *)

(** The ray of the design document's example: from (0.5, 0.5, 5),
    straight down. *)
Definition above_corner : Vector3 := vec3_create f32_half f32_half (F32.of_Z 5).
Definition straight_down : Vector3 := vec3_create F32.zero F32.zero (- F32.one).

(** The same ray started inside the grid, at (0.5, 0.5, 1.5). *)
Definition inside_corner : Vector3 := vec3_create f32_half f32_half (F32.lit 15 10).

(** A ray along the diagonal of the XY plane from the centre of the cell
    (0,0,0): it reaches the X and the Y boundary at the same distance. *)
Definition cell_centre : Vector3 := vec3_create f32_half f32_half f32_half.
Definition diagonal : Vector3 := vec3_create F32.one F32.one F32.zero.

(** A ray along -X from (3.5, 0.5, 0.5). *)
Definition row_end : Vector3 := vec3_create (F32.lit 35 10) f32_half f32_half.
Definition minus_x : Vector3 := vec3_create (- F32.one) F32.zero F32.zero.

(** The keys of a frame in which only [key] is held. *)
Definition only_key (key : Z) : Z -> bool := fun k => k =? key.

(** Twenty frames with [d] held (turning right), then [n] frames with [a]
    held (turning back). *)
Definition right_then_left (n : nat) : list (Z -> bool) :=
  replicate 20 (only_key KEY_d) ++ replicate n (only_key KEY_a).

(** A yaw delta of -2^-30: a small turn to the left. *)
Definition tiny_left : float := (- F32.lit 1 (2 ^ 30))%flt.

(** The yaw is where [player_rotate] means to leave it: 0 <= yaw < 2 pi. *)
Definition yaw_in_range (yaw : float) : bool :=
  (F32.zero <=? yaw)%flt && negb (yaw_too_big yaw).

Definition pitch_in_range (pitch : float) : bool :=
  (- F32.lit 15 10 <=? pitch)%flt && (pitch <=? F32.lit 15 10)%flt.

(** The arrays of the grid have the sizes [world_create] gives them:
    [depth] planes of [height] rows of [width] cells. *)
Definition grid_shaped (world : World) : Prop :=
  length (World.blocks world) = Z.to_nat (World.depth world) /\
  Forall
    (fun plane =>
       length plane = Z.to_nat (World.height world) /\
       Forall (fun row => length row = Z.to_nat (World.width world)) plane)
    (World.blocks world).

(** The state in which the loop of [cast_ray] stops at "We hit
    something!", if it does: [map_x], [map_y] and [map_z] then name the
    cell the ray has hit, which the [RayHit] made from that state does not
    keep. This is [dda_loop] with the state returned as it is; [Some None]
    is a loop that ends without a hit. *)
Fixpoint dda_stop (world : World) (max_distance : float) (c : DdaStep)
    (fuel : nat) (st : Dda) : option (option Dda) :=
  match fuel with
  | O => None
  | S fuel' =>
      if (dda_distance st <? max_distance)%flt then
        let st' := dda_advance c st in
        if out_of_bounds world st' then Some None
        else
          let block_type := world_get_block world (map_x st') (map_y st') (map_z st') in
          if negb (block_type =? BLOCK_AIR) then Some (Some st')
          else dda_stop world max_distance c fuel' st'
      else Some None
  end.

(** The cell a ray hits. *)
Definition hit_cell (fuel : nat) (world : World) (position direction : Vector3)
    (max_distance : float) : option (option (Z * Z * Z)) :=
  let '(c, st) := dda_init position direction in
  match dda_stop world max_distance c fuel st with
  | Some (Some st) => Some (Some (map_x st, map_y st, map_z st))
  | Some None => Some None
  | None => None
  end.

(** The cell the interaction ray of a player hits. *)
Definition interaction_cell `{Libm} (fuel : nat) (player : Player)
    (world : World) : option (option (Z * Z * Z)) :=
  hit_cell fuel world (player_get_camera_position player)
    (player_get_view_direction player) (F32.of_Z 5).

(** The round trip of the design document, read as it stands: whenever
    the ray of the player hits a solid cell, a break action followed by a
    place action of the block type hit gives the count of that type back
    and leaves the cell hit solid. *)
Definition break_place_roundtrip `{Libm} `{Utils} (fuel : nat) (player : Player)
    (world : World) : Prop :=
  forall (hit : RayHit) (x y z : Z),
    interaction_ray fuel player world = Some hit ->
    interaction_cell fuel player world = Some (Some (x, y, z)) ->
    world_is_solid world x y z <> 0 ->
    exists player1 world1 player2 world2,
      player_break_block fuel player world = Some (player1, world1) /\
      player_place_block fuel player1 world1 (RayHit.block_type hit)
      = Some (player2, world2) /\
      inventory_get player2 (RayHit.block_type hit)
      = inventory_get player (RayHit.block_type hit) /\
      world_is_solid world2 x y z <> 0.

(** Every cell of the grid holds an id below [n]. *)
Definition block_ids_below (n : Z) (world : World) : Prop :=
  Forall (Forall (Forall (fun cell => 0 <= cell < n))) (World.blocks world).

(** A [float] of the binary32 format. *)
Definition valid_float (f : float) : Prop := valid_binary F32.prec F32.emax f = true.

(** The number of block bytes of a file with the given dimensions. *)
Definition block_bytes (width height depth : Z) : nat :=
  (Z.to_nat depth * (Z.to_nat height * Z.to_nat width))%nat.

(** The three dimensions at the head of a file. *)
Definition header (file : list byte) : Z * Z * Z :=
  (decode_int32 (take 4 file),
   decode_int32 (take 4 (drop 4 file)),
   decode_int32 (take 4 (drop 8 file))).

(** A world that the format can hold: the arrays have the sizes of the
    dimensions, the dimensions are non-negative values of type [int],
    the cells values of type [uint8_t], the two scalars binary32
    numbers. *)
Definition world_fits_format (world : World) : Prop :=
  grid_shaped world /\
  0 <= World.width world < 2 ^ 31 /\
  0 <= World.height world < 2 ^ 31 /\
  0 <= World.depth world < 2 ^ 31 /\
  Forall (Forall (Forall (fun cell => 0 <= cell < 256))) (World.blocks world) /\
  valid_float (World.time_of_day world) /\
  valid_float (World.sky_brightness world).

(** A break action changes neither where the player stands nor where the
    player looks, so the next ray starts as the last one did. *)
Definition same_pose (p q : Player) : Prop :=
  Player.position p = Player.position q /\ Player.rotation p = Player.rotation q.

(** ** world.c: the registry of block types *)

Definition set_block_types (world : World) (types : list BlockType) (n : Z)
    : World :=
  {| World.width := World.width world; World.height := World.height world;
     World.depth := World.depth world; World.blocks := World.blocks world;
     World.block_types := types; World.num_block_types := n;
     World.time_of_day := World.time_of_day world;
     World.sky_brightness := World.sky_brightness world |}.

(** [world_init_block_types]: the table is freed and allocated again;
    [mem_ok] tells whether the allocation succeeds. When it fails the
    function returns with the table gone (the empty list) and the count as
    it was. *)
Definition world_init_block_types (mem_ok : bool) (world : World) : World :=
  if mem_ok then set_block_types world default_block_types MAX_BLOCK_TYPES
  else set_block_types world [] (World.num_block_types world).

(** [world_get_block_type]. The world may be a null pointer, here [None]:
    the static table then answers. [type] is a [uint8_t]. A count above
    the size of the table lets the index leave the array, which C leaves
    undefined; the embedding then answers the zero entry. *)
Definition world_get_block_type (world : option World) (type : Z) : BlockType :=
  match world with
  | None =>
      let type := if MAX_BLOCK_TYPES <=? type then 0 else type in
      default zero_block_type (default_block_types !! Z.to_nat type)
  | Some world =>
      let type := if World.num_block_types world <=? type then 0 else type in
      default zero_block_type (World.block_types world !! Z.to_nat type)
  end.

(** ** world.c: structures *)

(** The write [world->blocks[z][y][x] = type], which checks nothing. An
    index outside the arrays is undefined in C; the properties show that
    the indices of [world_generate_structures] lie inside. *)
Definition blocks_write (world : World) (x y z type : Z) : World :=
  set_blocks world
    (alter (alter (fun row => <[Z.to_nat x := type]> row) (Z.to_nat y))
       (Z.to_nat z) (World.blocks world)).

(** "Find ground level": [while (house_z < depth && blocks[house_z][y][x]
    == BLOCK_AIR) house_z++]. From 0 the loop runs at most [depth]
    times, which is the [fuel] its caller gives. The read checks [z]
    only: with a width or a height of 0 the column at half the width and
    half the height lies outside the arrays, which is undefined in C and
    reads as 0 here; the properties take both to be at least 1. *)
Fixpoint find_ground (fuel : nat) (world : World) (x y house_z : Z) : Z :=
  match fuel with
  | O => house_z
  | S fuel' =>
      if (house_z <? World.depth world) && (block_at world x y house_z =? BLOCK_AIR)
      then find_ground fuel' world x y (house_z + 1)
      else house_z
  end.

Definition house_width : Z := 7.
Definition house_length : Z := 9.
Definition house_height : Z := 4.

(** "Build floor" and "Build roof": the same two loops, at the height
    [z]. *)
Definition build_slab (world : World) (house_x house_y z : Z) : World :=
  foldl (fun world y =>
           foldl (fun world x =>
                    blocks_write world (house_x + x) (house_y + y) z BLOCK_WOOD)
             world (seqZ 0 house_width))
    world (seqZ 0 house_length).

(** "Build walls". In C [house_width / 2] is 3. *)
Definition build_walls (world : World) (house_x house_y house_z : Z) : World :=
  foldl (fun world z =>
    foldl (fun world y =>
      foldl (fun world x =>
        if (x =? 0) || (x =? house_width - 1) || (y =? 0)
           || (y =? house_length - 1)
        then
          if negb ((z <? 3) && (x =? Z.quot house_width 2) && (y =? 0))
          then blocks_write world (house_x + x) (house_y + y) (house_z + z)
                 BLOCK_BRICK
          else world
        else world)
        world (seqZ 0 house_width))
      world (seqZ 0 house_length))
    world (seqZ 1 (house_height - 1)).

(** [world_generate_structures]. The seed only sets the state of the
    random number generator, which the function does not read. The
    division of an [int] truncates: [Z.quot]. *)
Definition world_generate_structures (world : World) : World :=
  let house_x := Z.quot (World.width world) 2 in
  let house_y := Z.quot (World.height world) 2 in
  let house_z :=
    find_ground (Z.to_nat (World.depth world)) world house_x house_y 0 in
  let house_z := house_z + 1 in
  if (World.width world <=? house_x + house_width)
     || (World.height world <=? house_y + house_length)
     || (World.depth world <=? house_z + house_height)
  then world
  else
    let world := build_slab world house_x house_y house_z in
    let world := build_walls world house_x house_y house_z in
    let world := build_slab world house_x house_y (house_z + house_height) in
    let window_x := house_width - 2 in
    let window_y := house_length - 2 in
    let window_z := house_z + 2 in
    blocks_write world (house_x + window_x) (house_y + window_y) window_z
      BLOCK_AIR.

(** Where the house stands: the corner with the least coordinates. *)
Definition house_corner (world : World) : Z * Z * Z :=
  let house_x := Z.quot (World.width world) 2 in
  let house_y := Z.quot (World.height world) 2 in
  (house_x, house_y,
   find_ground (Z.to_nat (World.depth world)) world house_x house_y 0 + 1).

(** The house, by the offset from its corner: the block a cell is given,
    or [None] for a cell that is left as it is. *)
Definition house_plan (dx dy dz : Z) : option Z :=
  if (0 <=? dx) && (dx <? 7) && (0 <=? dy) && (dy <? 9) && (0 <=? dz) && (dz <=? 4)
  then
    if (dz =? 0) || (dz =? 4) then Some BLOCK_WOOD
    else if (dx =? 0) || (dx =? 6) || (dy =? 0) || (dy =? 8) then
      if (dz <? 3) && (dx =? 3) && (dy =? 0) then None else Some BLOCK_BRICK
    else if (dx =? 5) && (dy =? 7) && (dz =? 2) then Some BLOCK_AIR
    else None
  else None.

(** The writes of the function, in the order in which it makes them, by
    offset from the corner of the house. *)
Definition house_writes : list (Z * Z * Z * Z) :=
  (y ← seqZ 0 house_length; x ← seqZ 0 house_width; [(x, y, 0, BLOCK_WOOD)])
  ++ (z ← seqZ 1 (house_height - 1);
      y ← seqZ 0 house_length;
      x ← seqZ 0 house_width;
      if (x =? 0) || (x =? house_width - 1) || (y =? 0) || (y =? house_length - 1)
      then
        if negb ((z <? 3) && (x =? Z.quot house_width 2) && (y =? 0))
        then [(x, y, z, BLOCK_BRICK)] else []
      else [])
  ++ (y ← seqZ 0 house_length; x ← seqZ 0 house_width;
      [(x, y, house_height, BLOCK_WOOD)])
  ++ [(house_width - 2, house_length - 2, 2, BLOCK_AIR)].

(** The last block written to the cell at an offset, if any. *)
Definition last_write (writes : list (Z * Z * Z * Z)) (dx dy dz : Z) : option Z :=
  foldl (fun found '(x, y, z, type) =>
           if (x =? dx) && (y =? dy) && (z =? dz) then Some type else found)
    None writes.

(** A run of writes at offsets from a corner. *)
Definition apply_writes (world : World) (house_x house_y house_z : Z)
    (writes : list (Z * Z * Z * Z)) : World :=
  foldl (fun world '(x, y, z, type) =>
           blocks_write world (house_x + x) (house_y + y) (house_z + z) type)
    world writes.

Definition same_block (a b : option Z) : bool :=
  match a, b with
  | Some x, Some y => x =? y
  | None, None => true
  | _, _ => false
  end.

(** The offsets of the cells of the box of the house. *)
Definition house_box : list (Z * Z * Z) :=
  x ← seqZ 0 7; y ← seqZ 0 9; z ← seqZ 0 5; [(x, y, z)].

(** A world of 16 x 20 x 8 cells with a floor of stone. *)
Definition stone_floor : World :=
  set_blocks (fresh_world 16 20 8)
    (replicate 20 (replicate 16 BLOCK_STONE)
     :: replicate 7 (replicate 20 (replicate 16 BLOCK_AIR))).

(** ** raycaster.c: what a hit looks like *)

Definition ENABLE_SHADING : bool := true.

(** [get_hit_color]. The field [block_type] of a [RayHit] is an [int]
    and the parameter of [world_get_block_type] a [uint8_t]: the call
    converts. [color &= ~COLOR_BRIGHT] and [color |= COLOR_BRIGHT] work on
    an [int]. *)
Definition get_hit_color (hit : RayHit) : Z :=
  if RayHit.hit hit =? 0 then COLOR_BLACK
  else
    let block_type := world_get_block_type None (uint8 (RayHit.block_type hit)) in
    let color := fg_color block_type in
    if ENABLE_SHADING then
      if (RayHit.brightness hit <? F32.lit 4 10)%flt
      then Z.land color (Z.lnot COLOR_BRIGHT)
      else if (F32.lit 8 10 <? RayHit.brightness hit)%flt
      then Z.lor color COLOR_BRIGHT
      else color
    else color.

(** ** player.c: jumping *)

Definition GRAVITY : float := F32.lit 5 100.
Definition JUMP_FORCE : float := F32.lit 4 10.

Definition set_velocity (player : Player) (v : Vector3) : Player :=
  Player.mk (Player.position player) v (Player.rotation player)
    (Player.height player) (Player.width player) (Player.grounded player)
    (Player.flying player) (Player.health player) (Player.stamina player)
    (Player.selected_slot player) (Player.inventory player).

Definition set_grounded (player : Player) (g : Z) : Player :=
  Player.mk (Player.position player) (Player.velocity player)
    (Player.rotation player)
    (Player.height player) (Player.width player) g
    (Player.flying player) (Player.health player) (Player.stamina player)
    (Player.selected_slot player) (Player.inventory player).

Definition set_velocity_z (player : Player) (z : float) : Player :=
  set_velocity player
    (vec3_create (v_x (Player.velocity player)) (v_y (Player.velocity player)) z).

Definition player_jump (player : Player) : Player :=
  if negb (Player.grounded player =? 0) then
    set_grounded (set_velocity_z player JUMP_FORCE) 0
  else if negb (Player.flying player =? 0) then
    set_velocity_z player (JUMP_FORCE * F32.lit 5 10)%flt
  else player.

(** ** player.c: physics

    [min_float] is declared in utils.h; like [clamp], its definition is
    not part of the sources at hand and it is taken as a parameter. *)

Class UtilsMin := {
  min_float : float -> float -> float
}.

(** A truth value of C. *)
Definition truthy (n : Z) : bool := negb (n =? 0).

Definition player_update `{UtilsMin} (player : Player) (world : World)
    (delta_time : float) : Player :=
  let position := Player.position player in
  (* Apply gravity if not flying *)
  let velocity_z :=
    if negb (truthy (Player.flying player))
    then (v_z (Player.velocity player) - GRAVITY * delta_time)%flt
    else (v_z (Player.velocity player) * F32.lit 9 10)%flt in
  let velocity :=
    vec3_create (v_x (Player.velocity player)) (v_y (Player.velocity player))
      velocity_z in
  (* Update position *)
  let new_pos := vec3_add position (vec3_mul velocity delta_time) in
  (* Check for collision with ground *)
  let ground_x := floor_int (v_x new_pos) in
  let ground_y := floor_int (v_y new_pos) in
  let ground_z := floor_int (v_z new_pos - Player.height player) in
  let on_ground :=
    (0 <=? ground_z) && (ground_z <? World.depth world)
    && truthy (world_is_solid world ground_x ground_y ground_z) in
  let new_pos_z :=
    if on_ground then (F32.of_Z ground_z + F32.one + Player.height player)%flt
    else v_z new_pos in
  let velocity_z := if on_ground then F32.zero else velocity_z in
  let grounded := if on_ground then 1 else 0 in
  (* Check for collision with walls *)
  let wall_x := floor_int (v_x new_pos) in
  let wall_y := floor_int (v_y new_pos) in
  let wall_z := floor_int new_pos_z in
  let blocked_x :=
    truthy (world_is_solid world wall_x (floor_int (v_y position)) wall_z) in
  let new_pos_x := if blocked_x then v_x position else v_x new_pos in
  let velocity_x := if blocked_x then F32.zero else v_x velocity in
  let blocked_y :=
    truthy (world_is_solid world (floor_int new_pos_x) wall_y wall_z) in
  let new_pos_y := if blocked_y then v_y position else v_y new_pos in
  let velocity_y := if blocked_y then F32.zero else v_y velocity in
  (* Check collision with ceiling *)
  let ceiling_z := floor_int new_pos_z in
  let blocked_z :=
    (ceiling_z <? World.depth world)
    && truthy (world_is_solid world wall_x wall_y ceiling_z) in
  let new_pos_z := if blocked_z then v_z position else new_pos_z in
  let velocity_z := if blocked_z then F32.zero else velocity_z in
  let velocity := vec3_create velocity_x velocity_y velocity_z in
  (* Limit max movement speed *)
  let speed_limit := F32.of_Z 10 in
  let current_speed := vec3_length velocity in
  let velocity :=
    if (speed_limit <? current_speed)%flt
    then vec3_mul (vec3_normalize velocity) speed_limit
    else velocity in
  (* Apply friction *)
  let friction := if truthy grounded then F32.lit 8 10 else F32.lit 98 100 in
  let velocity :=
    vec3_create (v_x velocity * friction) (v_y velocity * friction)
      (v_z velocity) in
  (* Make sure player stays within world bounds *)
  let x := if (new_pos_x <? F32.one)%flt then F32.one else new_pos_x in
  let y := if (new_pos_y <? F32.one)%flt then F32.one else new_pos_y in
  let max_x := (F32.of_Z (World.width world) - F32.one)%flt in
  let max_y := (F32.of_Z (World.height world) - F32.one)%flt in
  let x := if (max_x <? x)%flt then max_x else x in
  let y := if (max_y <? y)%flt then max_y else y in
  (* Recover stamina slowly *)
  let stamina :=
    min_float (Player.stamina player + F32.lit 1 10)%flt (F32.of_Z 100) in
  {| Player.position := vec3_create x y new_pos_z;
     Player.velocity := velocity;
     Player.rotation := Player.rotation player;
     Player.height := Player.height player;
     Player.width := Player.width player;
     Player.grounded := grounded;
     Player.flying := Player.flying player;
     Player.health := Player.health player;
     Player.stamina := stamina;
     Player.selected_slot := Player.selected_slot player;
     Player.inventory := Player.inventory player |}.

(** ** renderer.h, renderer.c: drawing into the framebuffer

    The three buffers of a framebuffer hold [width * height] cells each,
    row after row; a character is given by its code. *)

Module Framebuffer.
Record t := mk {
  width : Z;
  height : Z;
  char_buffer : list Z;
  fg_color_buffer : list Z;
  bg_color_buffer : list Z
}.
End Framebuffer.
Abbreviation Framebuffer := Framebuffer.t.

Module Renderer.
Record t := mk {
  framebuffer : Framebuffer;
  width : Z;
  height : Z;
  depth_buffer : list float;
  draw_hud : Z;
  draw_debug : Z;
  wireframe_mode : Z;
  show_minimap : Z
}.
End Renderer.
Abbreviation Renderer := Renderer.t.

Definition set_framebuffer (renderer : Renderer) (fb : Framebuffer) : Renderer :=
  Renderer.mk fb (Renderer.width renderer) (Renderer.height renderer)
    (Renderer.depth_buffer renderer) (Renderer.draw_hud renderer)
    (Renderer.draw_debug renderer) (Renderer.wireframe_mode renderer)
    (Renderer.show_minimap renderer).

Definition renderer_set_pixel (renderer : Renderer) (x y c fg bg : Z) : Renderer :=
  let fb := Renderer.framebuffer renderer in
  if (x <? 0) || (Framebuffer.width fb <=? x) || (y <? 0)
     || (Framebuffer.height fb <=? y)
  then renderer
  else
    let index := Z.to_nat (y * Framebuffer.width fb + x) in
    set_framebuffer renderer
      {| Framebuffer.width := Framebuffer.width fb;
         Framebuffer.height := Framebuffer.height fb;
         Framebuffer.char_buffer := <[index := c]> (Framebuffer.char_buffer fb);
         Framebuffer.fg_color_buffer :=
           <[index := fg]> (Framebuffer.fg_color_buffer fb);
         Framebuffer.bg_color_buffer :=
           <[index := bg]> (Framebuffer.bg_color_buffer fb) |}.

(** Arithmetic on [int]. A result outside the range of the type is
    undefined in C; the embedding keeps its low 32 bits (two's
    complement), as the target does. *)
Definition wrap_int (n : Z) : Z := (n - INT_MIN) mod 2 ^ 32 + INT_MIN.

(** The loop [while (1)] of [renderer_draw_line]: Bresenham's algorithm.
    All its variables are of type [int]. [fuel] bounds the number of
    iterations. *)
Fixpoint draw_line_loop (fuel : nat) (renderer : Renderer)
    (x1 y1 x2 y2 dx dy sx sy err c fg bg : Z) : option Renderer :=
  match fuel with
  | O => None
  | S fuel' =>
      let renderer := renderer_set_pixel renderer x1 y1 c fg bg in
      if (x1 =? x2) && (y1 =? y2) then Some renderer
      else
        let e2 := wrap_int (2 * err) in
        let '(err, x1) :=
          if wrap_int (- dy) <? e2 then (wrap_int (err - dy), wrap_int (x1 + sx))
          else (err, x1) in
        let '(err, y1) :=
          if e2 <? dx then (wrap_int (err + dx), wrap_int (y1 + sy))
          else (err, y1) in
        draw_line_loop fuel' renderer x1 y1 x2 y2 dx dy sx sy err c fg bg
  end.

(** [abs] of <stdlib.h>. *)
Definition abs_int (n : Z) : Z := wrap_int (Z.abs n).

Definition renderer_draw_line (fuel : nat) (renderer : Renderer)
    (x1 y1 x2 y2 c fg bg : Z) : option Renderer :=
  let dx := abs_int (wrap_int (x2 - x1)) in
  let dy := abs_int (wrap_int (y2 - y1)) in
  let sx := if x1 <? x2 then 1 else -1 in
  let sy := if y1 <? y2 then 1 else -1 in
  let err := wrap_int (dx - dy) in
  draw_line_loop fuel renderer x1 y1 x2 y2 dx dy sx sy err c fg bg.

Definition renderer_draw_rect (renderer : Renderer) (x y w h c fg bg : Z)
    : Renderer :=
  let renderer :=
    foldl (fun renderer i =>
             renderer_set_pixel
               (renderer_set_pixel renderer (x + i) y c fg bg)
               (x + i) (y + h - 1) c fg bg)
      renderer (seqZ 0 w) in
  foldl (fun renderer i =>
           renderer_set_pixel
             (renderer_set_pixel renderer x (y + i) c fg bg)
             (x + w - 1) (y + i) c fg bg)
    renderer (seqZ 0 h).

(** What the framebuffer shows at (x, y): the character and the two
    colours, or nothing outside of it. *)
Definition pixel (renderer : Renderer) (x y : Z) : option (Z * Z * Z) :=
  let fb := Renderer.framebuffer renderer in
  if (x <? 0) || (Framebuffer.width fb <=? x) || (y <? 0)
     || (Framebuffer.height fb <=? y)
  then None
  else
    let index := Z.to_nat (y * Framebuffer.width fb + x) in
    c ← Framebuffer.char_buffer fb !! index;
    fg ← Framebuffer.fg_color_buffer fb !! index;
    bg ← Framebuffer.bg_color_buffer fb !! index;
    Some (c, fg, bg).

Definition inside (renderer : Renderer) (x y : Z) : Prop :=
  0 <= x < Framebuffer.width (Renderer.framebuffer renderer) /\
  0 <= y < Framebuffer.height (Renderer.framebuffer renderer).

(** The buffers have the size [renderer_create] gives them. *)
Definition framebuffer_shaped (renderer : Renderer) : Prop :=
  let fb := Renderer.framebuffer renderer in
  let n := Z.to_nat (Framebuffer.width fb * Framebuffer.height fb) in
  length (Framebuffer.char_buffer fb) = n /\
  length (Framebuffer.fg_color_buffer fb) = n /\
  length (Framebuffer.bg_color_buffer fb) = n.

(** A renderer of 8 x 4 cells, cleared as [renderer_clear] leaves it:
    spaces, white on black (the [memset] of the colours writes bytes). *)
Definition small_screen : Renderer :=
  {| Renderer.framebuffer :=
       {| Framebuffer.width := 8; Framebuffer.height := 4;
          Framebuffer.char_buffer := replicate 32 32;
          Framebuffer.fg_color_buffer := replicate 32 0x07070707;
          Framebuffer.bg_color_buffer := replicate 32 0 |};
     Renderer.width := 8; Renderer.height := 4;
     Renderer.depth_buffer := replicate 32 (S754_infinity false);
     Renderer.draw_hud := 1; Renderer.draw_debug := 0;
     Renderer.wireframe_mode := 0; Renderer.show_minimap := 1 |}.

(** ** player.c: walking *)

Definition PLAYER_SPEED : float := F32.lit 15 100.

(** [M_PI / 2.0f], a [double]. *)
Definition half_pi : float :=
  SFdiv F64.prec F64.emax F64.M_PI (double_of_float (F32.of_Z 2)).

Definition player_get_forward_vector `{Libm} (player : Player) : Vector3 :=
  let yaw := v2_y (Player.rotation player) in
  vec3_create (cosf yaw) (sinf yaw) F32.zero.

(** [float yaw = player->rotation.y + M_PI / 2.0f]: the sum is made in
    [double] and stored as [float]. *)
Definition player_get_right_vector `{Libm} (player : Player) : Vector3 :=
  let yaw :=
    float_of_double
      (F64.add (double_of_float (v2_y (Player.rotation player))) half_pi) in
  vec3_create (cosf yaw) (sinf yaw) F32.zero.

Definition set_z (v : Vector3) (z : float) : Vector3 :=
  vec3_create (v_x v) (v_y v) z.

(** [player_move]; its parameter [world] is not used. *)
Definition player_move `{Libm} (player : Player) (forward right delta_time : float)
    : Player :=
  let forward_vec := set_z (player_get_forward_vector player) F32.zero in
  let right_vec := set_z (player_get_right_vector player) F32.zero in
  let forward_vec := vec3_normalize forward_vec in
  let right_vec := vec3_normalize right_vec in
  let move_dir := vec3_create F32.zero F32.zero F32.zero in
  let move_dir :=
    if negb (forward =? F32.zero)%flt
    then vec3_add move_dir (vec3_mul forward_vec forward) else move_dir in
  let move_dir :=
    if negb (right =? F32.zero)%flt
    then vec3_add move_dir (vec3_mul right_vec right) else move_dir in
  let move_dir :=
    if (F32.zero <? vec3_length move_dir)%flt then vec3_normalize move_dir
    else move_dir in
  let speed :=
    if truthy (Player.flying player) then (PLAYER_SPEED * F32.of_Z 2)%flt
    else PLAYER_SPEED in
  let stamina :=
    if (F32.zero <? delta_time)%flt && (F32.zero <? vec3_length move_dir)%flt
    then
      if truthy (Player.grounded player)
         && (F32.zero <? Player.stamina player)%flt
      then
        let stamina := (Player.stamina player - F32.lit 2 10)%flt in
        if (stamina <? F32.zero)%flt then F32.zero else stamina
      else Player.stamina player
    else Player.stamina player in
  {| Player.position := Player.position player;
     Player.velocity :=
       vec3_create
         (v_x (Player.velocity player) + v_x move_dir * speed)%flt
         (v_y (Player.velocity player) + v_y move_dir * speed)%flt
         (v_z (Player.velocity player));
     Player.rotation := Player.rotation player;
     Player.height := Player.height player;
     Player.width := Player.width player;
     Player.grounded := Player.grounded player;
     Player.flying := Player.flying player;
     Player.health := Player.health player;
     Player.stamina := stamina;
     Player.selected_slot := Player.selected_slot player;
     Player.inventory := Player.inventory player |}.

(** ** Vocabulary of the numbers *)

(** A number: a zero or a finite non-zero value. *)
Definition is_finite (x : float) : bool :=
  match x with S754_zero _ | S754_finite _ _ _ => true | _ => false end.

Definition is_zero (x : float) : bool :=
  match x with S754_zero _ => true | _ => false end.

Definition finite_vector (v : Vector3) : bool :=
  is_finite (v_x v) && is_finite (v_y v) && is_finite (v_z v).

(** Not a NaN and not negative: +0, a positive number or +infinity. *)
Definition is_nonneg (x : float) : bool :=
  match x with
  | S754_zero false | S754_finite false _ _ | S754_infinity false => true
  | _ => false
  end.

Definition nan_free (v : Vector3) : bool :=
  negb (is_nan (v_x v)) && negb (is_nan (v_y v)) && negb (is_nan (v_z v)).

(** ** The length of a traversal *)

(** The number of cells between the cell [m] and the boundary of an axis
    of [dim] cells, in the direction of the step [s]. *)
Definition cells_left (s m dim : Z) : Z :=
  if s =? 1 then dim - m else if s =? -1 then m + 1 else 0.

Definition steps_left (world : World) (c : DdaStep) (st : Dda) : Z :=
  cells_left (step_x c) (map_x st) (World.width world)
  + cells_left (step_y c) (map_y st) (World.height world)
  + cells_left (step_z c) (map_z st) (World.depth world).

(** An axis steps by one cell, or not at all: its boundary distance is
    then the 1e30f of the set-up. *)
Definition axis_ok (s : Z) (tm : float) : Prop :=
  s = 1 \/ s = -1 \/ (s = 0 /\ tm = F32.of_Z (10 ^ 30)).

Definition dda_ok (c : DdaStep) (st : Dda) : Prop :=
  axis_ok (step_x c) (t_max_x st) /\ axis_ok (step_y c) (t_max_y st)
  /\ axis_ok (step_z c) (t_max_z st).

(** A number of iterations no ray of at most 1e30f needs more than. *)
Definition cast_ray_fuel (world : World) : nat :=
  (Z.to_nat (World.width world + World.height world + World.depth world) + 3)%nat.

(** ** Instances and data of the further examples *)

(** A [min_float] for the examples: [fminf]. *)
Definition utils_fminf : UtilsMin := {| min_float := fminf |}.

(** A player in the column of the solid cell of [corner_grid], the eyes
    at z = 2.7: gravity brings the feet into that cell. *)
Definition falling_player : Player :=
  player_at (vec3_create f32_half f32_half (F32.lit 27 10)).

(** A thirtieth of a second, the time step of a frame. *)
Definition frame_time : float := F32.lit 1 30.

(** A yaw so large that 2 pi is less than half the distance to the next
    [float]: 1e30f. *)
Definition huge_yaw : float := F32.of_Z (10 ^ 30).

(** ** Tactics *)


(** One step of a computation in the option monad, once its first action
    is known. *)
Ltac bind_step := unfold mbind, option_bind; cbv beta iota.
Ltac bind_step_in H := unfold mbind, option_bind in H; cbv beta iota in H.

(** * Properties *)

(** ** The order of floating-point numbers *)

Lemma SFcompare_antisym (a b : float) :
  SFcompare b a = CompOpp <$> SFcompare a b.
Proof.
  destruct a as [sa|sa| |sa ma ea], b as [sb|sb| |sb mb eb]; simpl;
    try reflexivity; try (destruct sa; reflexivity); try (destruct sb; reflexivity);
    try (destruct sa, sb; reflexivity).
  destruct sa, sb; simpl; try reflexivity;
    rewrite (Z.compare_antisym ea eb); destruct (ea ?= eb); simpl; try reflexivity;
    rewrite (Pos.compare_cont_antisym ma mb Eq); simpl;
    destruct (Pos.compare_cont Eq ma mb); reflexivity.
Qed.

Lemma SFcompare_nan_iff (a b : float) :
  SFcompare a b = None <-> is_nan a = true \/ is_nan b = true.
Proof.
  destruct a as [sa|sa| |sa ma ea], b as [sb|sb| |sb mb eb]; simpl;
    split; intros; try discriminate; auto; destruct H as [|]; discriminate.
Qed.

Lemma ltb_false_leb (a b : float) :
  is_nan a = false -> is_nan b = false ->
  F32.ltb a b = false -> F32.leb b a = true.
Proof.
  intros Ha Hb. unfold F32.ltb, F32.leb, SFltb, SFleb.
  rewrite (SFcompare_antisym a b).
  destruct (SFcompare a b) as [[]|] eqn:E; simpl; try done.
  apply SFcompare_nan_iff in E. destruct E; congruence.
Qed.

Lemma ltb_leb (a b : float) : F32.ltb a b = true -> F32.leb a b = true.
Proof.
  unfold F32.ltb, F32.leb, SFltb, SFleb. destruct (SFcompare a b) as [[]|]; done.
Qed.

Lemma leb_refl (a : float) : is_nan a = false -> F32.leb a a = true.
Proof.
  intros Ha. unfold F32.leb, SFleb.
  destruct a as [sa|sa| |sa ma ea]; simpl; try done; try (destruct sa; done).
  destruct sa; rewrite Z.compare_refl, Pos.compare_cont_refl; done.
Qed.

Lemma leb_not_nan (a b : float) :
  F32.leb a b = true -> is_nan a = false /\ is_nan b = false.
Proof.
  unfold F32.leb, SFleb. destruct a, b; simpl; try done.
Qed.

Lemma ltb_not_nan (a b : float) :
  F32.ltb a b = true -> is_nan a = false /\ is_nan b = false.
Proof. intros H. apply leb_not_nan, ltb_leb, H. Qed.



(** ** Constants

    The patterns of a few literals, as a compiler prints them: 0.7f is
    0x3F333333, 1e30f is 0x7149F2CA, 1.5f is 0x3FC00000, and the [float]
    nearest to 2 pi is 0x40C90FDB. *)

Lemma literal_patterns :
  bits_of_float (F32.lit 7 10) = 0x3F333333 /\
  bits_of_float (F32.of_Z (10 ^ 30)) = 0x7149F2CA /\
  bits_of_float (F32.lit 15 10) = 0x3FC00000 /\
  bits_of_float (float_of_double two_pi) = 0x40C90FDB.
Proof. vm_compute. repeat split. Qed.

(** [M_PI] is the binary64 number nearest to its decimal literal: they
    differ by less than half a unit in the last place, 2^-52. *)
Lemma M_PI_nearest :
  2 * Z.abs (7074237752028440 * 10 ^ 20 - 314159265358979323846 * 2 ^ 51)
  < 10 ^ 20
  /\ F64.M_PI = S754_finite false 7074237752028440 (-51)
  /\ valid_binary F64.prec F64.emax F64.M_PI = true.
Proof. vm_compute. repeat split. Qed.

(** ** Queries outside the grid *)

Lemma valid_position_spec (world : World) (x y z : Z) :
  world_is_valid_position world x y z = true <->
  0 <= x < World.width world /\ 0 <= y < World.height world
  /\ 0 <= z < World.depth world.
Proof. unfold world_is_valid_position. rewrite !andb_true_iff. lia. Qed.

(** C6. For every grid, whatever it contains, and every coordinate outside
    [0,W) x [0,H) x [0,D), [world_get_block] returns the air id 0 and
    [world_is_solid] returns 0 (false); both are total functions, so
    neither query can fail. *)
Theorem outside_is_air (world : World) (x y z : Z) :
  ~ (0 <= x < World.width world /\ 0 <= y < World.height world
     /\ 0 <= z < World.depth world) ->
  world_get_block world x y z = BLOCK_AIR /\ world_is_solid world x y z = 0.
Proof.
  intros Hout. rewrite <- valid_position_spec in Hout.
  apply not_true_is_false in Hout.
  unfold world_get_block, world_is_solid. rewrite Hout. simpl. done.
Qed.

Lemma outside_is_air_witness :
  ~ (0 <= 2 < World.width row_two_blocks /\ 0 <= 1 < World.height row_two_blocks
     /\ 0 <= 0 < World.depth row_two_blocks)
  /\ world_get_block row_two_blocks 2 1 0 = BLOCK_AIR
  /\ world_is_solid row_two_blocks 2 1 0 = 0.
Proof.
  assert (Hout : ~ (0 <= 2 < World.width row_two_blocks
                    /\ 0 <= 1 < World.height row_two_blocks
                    /\ 0 <= 0 < World.depth row_two_blocks))
    by (vm_compute; intros (_ & [_ H] & _); discriminate H).
  split; [exact Hout | exact (outside_is_air row_two_blocks 2 1 0 Hout)].
Defined.

(** ** Cells of a shaped grid *)

Lemma shaped_lookup (world : World) (x y z : Z) :
  grid_shaped world ->
  world_is_valid_position world x y z = true ->
  exists plane row,
    World.blocks world !! Z.to_nat z = Some plane /\
    plane !! Z.to_nat y = Some row /\
    row !! Z.to_nat x = Some (block_at world x y z).
Proof.
  intros [Hd Hplanes] Hvalid. apply valid_position_spec in Hvalid.
  destruct (lookup_lt_is_Some_2 (World.blocks world) (Z.to_nat z)) as [plane Hp];
    [lia|].
  destruct (Forall_lookup_1 _ _ _ _ Hplanes Hp) as [Hh Hrows].
  destruct (lookup_lt_is_Some_2 plane (Z.to_nat y)) as [row Hr]; [lia|].
  pose proof (Forall_lookup_1 _ _ _ _ Hrows Hr) as Hw. simpl in Hw.
  destruct (lookup_lt_is_Some_2 row (Z.to_nat x)) as [cell Hc]; [lia|].
  exists plane, row. unfold block_at. rewrite Hp; simpl. rewrite Hr; simpl.
  rewrite Hc. done.
Qed.

Lemma set_block_valid (world : World) (x y z type x' y' z' : Z) :
  world_is_valid_position (world_set_block world x y z type) x' y' z'
  = world_is_valid_position world x' y' z'.
Proof.
  unfold world_set_block. destruct (world_is_valid_position world x y z); done.
Qed.

(** Emptying a cell and writing back what it held restores the grid. *)
Lemma set_block_undo (world : World) (x y z type : Z) :
  grid_shaped world ->
  world_is_valid_position world x y z = true ->
  world_set_block (world_set_block world x y z type) x y z (block_at world x y z)
  = world.
Proof.
  intros Hshape Hvalid.
  destruct (shaped_lookup world x y z Hshape Hvalid) as (plane & row & Hp & Hr & Hc).
  unfold world_set_block at 1. rewrite set_block_valid, Hvalid. simpl.
  unfold world_set_block. rewrite Hvalid. simpl.
  destruct world as [w h d blocks types n tod sky]; unfold set_blocks; simpl in *.
  f_equal.
  rewrite list_alter_alter_eq.
  transitivity (alter id (Z.to_nat z) blocks); [|by apply list_alter_id].
  apply list_alter_ext; [|done]. intros plane' Hp'. simpl.
  assert (plane' = plane) as -> by congruence.
  rewrite list_alter_alter_eq.
  transitivity (alter id (Z.to_nat y) plane); [|by apply list_alter_id].
  apply list_alter_ext; [|done]. intros row' Hr'. simpl.
  assert (row' = row) as -> by congruence.
  rewrite list_insert_insert_eq. by apply list_insert_id.
Qed.

Lemma get_set_block (world : World) (x y z type : Z) :
  grid_shaped world ->
  world_is_valid_position world x y z = true ->
  world_get_block (world_set_block world x y z type) x y z = type.
Proof.
  intros Hshape Hvalid.
  destruct (shaped_lookup world x y z Hshape Hvalid) as (plane & row & Hp & Hr & Hc).
  unfold world_get_block. rewrite set_block_valid, Hvalid. simpl.
  unfold world_set_block. rewrite Hvalid. simpl.
  unfold block_at. simpl.
  rewrite list_lookup_alter_eq, Hp. simpl.
  rewrite list_lookup_alter_eq, Hr. simpl.
  rewrite list_lookup_insert_eq; [done|]. by eapply lookup_lt_Some.
Qed.

Lemma solid_is_valid (world : World) (x y z : Z) :
  world_is_solid world x y z <> 0 -> world_is_valid_position world x y z = true.
Proof.
  unfold world_is_solid. destruct (world_is_valid_position world x y z); done.
Qed.

Lemma inventory_set_undo (player : Player) (i count : Z) :
  (Z.to_nat i < length (Player.inventory player))%nat ->
  inventory_set (inventory_set player i count) i (inventory_get player i) = player.
Proof.
  intros Hi. destruct (lookup_lt_is_Some_2 _ _ Hi) as [v Hv].
  unfold inventory_set, inventory_get, set_inventory.
  destruct player; simpl in *. f_equal.
  rewrite list_insert_insert_eq, Hv. by apply list_insert_id.
Qed.

(** ** The inventory *)

Lemma inventory_get_set (player : Player) (i count : Z) :
  (Z.to_nat i < length (Player.inventory player))%nat ->
  inventory_get (inventory_set player i count) i = count.
Proof.
  intros Hi. unfold inventory_get, inventory_set; simpl.
  rewrite list_lookup_insert_eq by done. done.
Qed.

Lemma inventory_set_length (player : Player) (i count : Z) :
  length (Player.inventory (inventory_set player i count))
  = length (Player.inventory player).
Proof. unfold inventory_set; simpl. apply length_insert. Qed.

Section Interaction.
Context `{Libm} `{Utils}.
Variable fuel : nat.

Lemma interaction_ray_pose (p q : Player) (world : World) :
  same_pose p q -> interaction_ray fuel p world = interaction_ray fuel q world.
Proof.
  intros [Hp Hr]. unfold interaction_ray, player_get_camera_position,
    player_get_view_direction. rewrite Hp, Hr. done.
Qed.




End Interaction.


(** ** The selected slot *)

Lemma uint8_small (n : Z) : 0 <= n < 256 -> uint8 n = n.
Proof. apply Z.mod_small. Qed.

Lemma place_block_effect `{Libm} `{Utils} (fuel : nat) (player : Player)
    (world : World) (bt : Z) (player' : Player) (world' : World) :
  player_place_block fuel player world bt = Some (player', world') ->
  (player' = player /\ world' = world) \/
  exists x y z,
    world_is_valid_position world x y z = true /\
    0 < inventory_get player bt /\
    player' = inventory_set player bt (uint8 (inventory_get player bt - 1)) /\
    world' = world_set_block world x y z bt.
Proof.
  unfold player_place_block.
  destruct (interaction_ray fuel player world) as [hit|]; simpl; [|done].
  destruct (RayHit.hit hit =? 0); simpl; [intros [= <- <-]; by left|].
  destruct (world_is_valid_position world _ _ _) eqn:Hvalid;
    [|intros [= <- <-]; by left].
  destruct (Z.ltb_spec 0 (inventory_get player bt));
    [|intros [= <- <-]; by left].
  intros [= <- <-]. right. eexists _, _, _. done.
Qed.

(** C9. The selected slot number is the block-type id, with no table in
    between: [player_select_slot] stores a slot from 1 to 9 and ignores
    any other; [player_get_selected_block] returns the stored integer
    (converted to [uint8_t], which leaves 1..9 as they are); and when the
    key [e] is down, [game_process_input] runs the place action with the
    selected slot number as the block type. The only cell it can change
    receives that number as its id; and it does place: whenever the ray
    of the player hits, the cell next to the face struck lies in the
    grid and the stock of the slot number is not empty, the grid after
    the block keys of a frame with [e] pressed and [r] not is the grid
    before with the slot number written to that cell, which then reads
    as the slot number. *)
Theorem slot_number_is_block_id `{Libm} `{Utils} (fuel : nat)
    (pressed : Z -> bool) (player : Player) (world : World) (slot : Z) :
  1 <= Player.selected_slot player <= 9 ->
  Player.selected_slot (player_select_slot player slot)
  = (if (1 <=? slot) && (slot <=? 9) then slot else Player.selected_slot player)
  /\ 1 <= Player.selected_slot (player_select_slot player slot) <= 9
  /\ player_get_selected_block player = Player.selected_slot player
  /\ (pressed KEY_e = true ->
      game_process_input_blocks fuel pressed player world
      = player_place_block fuel player world (Player.selected_slot player)
        ≫= (fun '(player1, world1) =>
              game_process_input_blocks fuel
                (fun key => if key =? KEY_e then false else pressed key)
                player1 world1))
  /\ (forall player' world',
        player_place_block fuel player world (Player.selected_slot player)
        = Some (player', world') ->
        world' = world \/
        exists x y z,
          world_is_valid_position world x y z = true /\
          world' = world_set_block world x y z (Player.selected_slot player))
  /\ (forall (hit : RayHit) (x y z : Z),
        grid_shaped world ->
        interaction_ray fuel player world = Some hit ->
        RayHit.hit hit <> 0 ->
        place_target hit = (x, y, z) ->
        world_is_valid_position world x y z = true ->
        0 < inventory_get player (Player.selected_slot player) ->
        pressed KEY_e = true -> pressed KEY_r = false ->
        exists player' : Player,
          game_process_input_blocks fuel pressed player world
          = Some (player',
                  world_set_block world x y z (Player.selected_slot player)) /\
          world_get_block
            (world_set_block world x y z (Player.selected_slot player)) x y z
          = Player.selected_slot player).
Proof.
  intros Hslot. split; [|split; [|split; [|split; [|split]]]].
  - unfold player_select_slot. destruct ((1 <=? slot) && (slot <=? 9)); done.
  - unfold player_select_slot.
    destruct ((1 <=? slot) && (slot <=? 9)) eqn:E; simpl; [|done].
    apply andb_true_iff in E. lia.
  - unfold player_get_selected_block. apply uint8_small. lia.
  - intros He. unfold game_process_input_blocks. rewrite He.
    rewrite uint8_small by lia.
    destruct (player_place_block fuel player world (Player.selected_slot player))
      as [[player1 world1]|]; simpl; [|done].
    reflexivity.
  - intros player' world' Hplace.
    destruct (place_block_effect _ _ _ _ _ _ Hplace)
      as [[_ ->]|(x & y & z & Hvalid & _ & _ & ->)]; [by left|].
    right. eexists _, _, _. done.
  - intros hit x y z Hshape Hray Hhit Htarget Hvalid Hstock He Hr.
    apply Z.eqb_neq in Hhit. apply Z.ltb_lt in Hstock.
    unfold game_process_input_blocks. rewrite He, Hr.
    rewrite uint8_small by lia.
    unfold player_place_block. rewrite Hray. bind_step.
    rewrite Hhit, Htarget. cbv beta iota. rewrite Hvalid, Hstock.
    simpl negb. cbv iota. bind_step. bind_step.
    eexists. split; [reflexivity|]. by apply get_set_block.
Qed.

(** With slot 3 selected and stone in stock, the key [e] puts a block of
    id 3 (stone) in front of the block of the row. *)
Lemma slot_number_is_block_id_witness :
  1 <= Player.selected_slot row_player <= 9 /\
  Player.selected_slot (player_select_slot row_player 3) = 3 /\
  Player.selected_slot (player_select_slot row_player 12) = 1 /\
  player_get_selected_block (player_select_slot row_player 3) = 3 /\
  exists player' : Player,
    @game_process_input_blocks libm_at_zero utils_minmax 10 (only_key KEY_e)
      (player_select_slot row_player 3) row_one_block
    = Some (player', world_set_block row_one_block 1 0 0 3) /\
    world_get_block (world_set_block row_one_block 1 0 0 3) 1 0 0 = 3 /\
    world_get_block row_one_block 1 0 0 = BLOCK_AIR.
Proof.
  assert (H1 : 1 <= Player.selected_slot row_player <= 9) by (simpl; lia).
  destruct (@slot_number_is_block_id libm_at_zero utils_minmax 10
              (only_key KEY_e) row_player row_one_block 3 H1)
    as (Hsel & Hrange & _).
  destruct (@slot_number_is_block_id libm_at_zero utils_minmax 10
              (only_key KEY_e) row_player row_one_block 12 H1)
    as (Hsel' & _).
  destruct (@slot_number_is_block_id libm_at_zero utils_minmax 10
              (only_key KEY_e) (player_select_slot row_player 3) row_one_block 3
              Hrange)
    as (_ & _ & Hget & _ & _ & Hplace).
  split; [exact H1|]. split; [exact Hsel|]. split; [exact Hsel'|].
  split; [rewrite Hget; exact Hsel|].
  destruct (Hplace
              (default (ray_miss F32.zero)
                 (@interaction_ray libm_at_zero utils_minmax 10
                    (player_select_slot row_player 3) row_one_block))
              1 0 0) as (player' & Hrun & Hread).
  - vm_compute. repeat constructor.
  - vm_compute. reflexivity.
  - vm_compute. discriminate.
  - vm_compute. reflexivity.
  - vm_compute. reflexivity.
  - vm_compute. reflexivity.
  - reflexivity.
  - reflexivity.
  - exists player'. split; [exact Hrun|]. split; [exact Hread|].
    vm_compute. reflexivity.
Defined.

(** ** Brightness *)

Lemma darken_succ (k : nat) (b : float) :
  darken (S k) b = darken k (b * F32.lit 7 10)%flt.
Proof. unfold darken. rewrite Nat.iter_succ_r. reflexivity. Qed.

Lemma brightness_fold (world : World) (x y : Z) (l : list Z) :
  forall b : float,
    Forall (fun check_z => world_is_valid_position world x y check_z = true) l ->
    foldl (brightness_step world x y) b l
    = darken
        (length (List.filter
                   (fun check_z => occludes (world_get_block world x y check_z)) l))
        b.
Proof.
  induction l as [|check_z l IH]; intros b Hall; [done|].
  inversion_clear Hall as [|? ? Hz Hl]. simpl.
  rewrite IH by done.
  unfold brightness_step, world_get_block at 2. rewrite Hz. simpl.
  fold (occludes (block_at world x y check_z)).
  destruct (occludes (block_at world x y check_z)); simpl; [|done].
  symmetry. apply darken_succ.
Qed.

(** C5. At a position within the grid, [world_get_brightness] returns the
    sky brightness multiplied by 0.7 once for every cell strictly above
    (x, y, z) and below the ceiling that is neither air nor water, and
    then clamped to [0.2, 1.0]; with a [clamp] that keeps its result
    within its bounds, the value returned lies in [0.2, 1.0], for any
    content of the grid and any sky brightness. *)
Theorem brightness_is_clamped_occlusion `{Utils} `{!ClampSpec}
    (world : World) (x y z : Z) :
  world_is_valid_position world x y z = true ->
  world_get_brightness world x y z
  = clamp (darken (occluders_above world x y z) (World.sky_brightness world))
      (F32.lit 2 10) F32.one
  /\ F32.leb (F32.lit 2 10) (world_get_brightness world x y z) = true
  /\ F32.leb (world_get_brightness world x y z) F32.one = true.
Proof.
  intros Hvalid.
  assert (Heq : world_get_brightness world x y z
                = clamp (darken (occluders_above world x y z)
                           (World.sky_brightness world))
                    (F32.lit 2 10) F32.one).
  { unfold world_get_brightness. rewrite Hvalid. simpl.
    rewrite brightness_fold; [done|].
    apply Forall_seqZ. intros check_z Hz.
    apply valid_position_spec in Hvalid. apply valid_position_spec. lia. }
  split; [exact Heq|]. rewrite Heq.
  apply clamp_range. vm_compute. reflexivity.
Qed.

(** The clamp of the examples meets the contract. *)
Lemma utils_minmax_range : @ClampSpec utils_minmax.
Proof.
  intros v lo hi Hle. simpl.
  destruct (leb_not_nan _ _ Hle) as [Hlo Hhi].
  assert (Hm : is_nan (fmaxf v lo) = false /\ F32.leb lo (fmaxf v lo) = true).
  { unfold fmaxf. destruct (is_nan v) eqn:Hv; [by rewrite leb_refl|].
    rewrite Hlo. destruct (v <? lo)%flt eqn:Hlt; [by rewrite leb_refl|].
    split; [done|]. by apply ltb_false_leb. }
  destruct Hm as [Hm Hlm]. unfold fminf. rewrite Hm, Hhi.
  destruct (hi <? fmaxf v lo)%flt eqn:Hlt.
  - by rewrite leb_refl.
  - split; [done|]. by apply ltb_false_leb.
Qed.

Lemma brightness_is_clamped_occlusion_witness :
  world_is_valid_position shaft 0 0 0 = true /\
  occluders_above shaft 0 0 0 = 2%nat /\
  @world_get_brightness utils_minmax shaft 0 0 0
  = @clamp utils_minmax (darken 2 (World.sky_brightness shaft)) (F32.lit 2 10) F32.one
  /\ F32.leb (F32.lit 2 10) (@world_get_brightness utils_minmax shaft 0 0 0) = true
  /\ F32.leb (@world_get_brightness utils_minmax shaft 0 0 0) F32.one = true.
Proof.
  assert (Hvalid : world_is_valid_position shaft 0 0 0 = true)
    by (vm_compute; reflexivity).
  split; [exact Hvalid|]. split; [vm_compute; reflexivity|].
  exact (@brightness_is_clamped_occlusion utils_minmax utils_minmax_range
           shaft 0 0 0 Hvalid).
Defined.

(** ** The traversal *)








(** ** Rays on small grids *)

Lemma cast_ray_no_fuel `{Utils} (world : World) (position direction : Vector3)
    (max_distance : float) :
  cast_ray 0 world position direction max_distance = None.
Proof. unfold cast_ray. destruct (dda_init position direction). reflexivity. Qed.


Lemma corner_ray_misses (U : Utils) (fuel : nat) :
  cast_ray (S fuel) corner_grid above_corner straight_down (F32.of_Z 10)
  = Some (ray_miss (F32.of_Z 10)).
Proof. vm_compute. reflexivity. Qed.

(** C1 as it is stated does not hold: whatever [clamp] is and however
    long the loop may run, this ray returns no hit. *)
Lemma corner_example_not_hit :
  ~ (exists (U : Utils) (fuel : nat) (h : RayHit),
       cast_ray fuel corner_grid above_corner straight_down (F32.of_Z 10) = Some h
       /\ RayHit.hit h = 1).
Proof.
  intros (U & fuel & h & Hcast & Hhit). destruct fuel as [|fuel].
  - rewrite cast_ray_no_fuel in Hcast. discriminate Hcast.
  - rewrite corner_ray_misses in Hcast. injection Hcast as <-. discriminate Hhit.
Qed.

(** C1 (amended). In the 2 x 2 x 2 grid whose only solid cell is (0,0,0),
    [cast_ray] from (0.5, 0.5, 5) along (0,0,-1) with a maximal distance
    of 10 returns a miss: [hit] is 0 and [distance] is 10. The ray starts
    in the cell (0,0,5), outside the grid, and its first step enters
    (0,0,4), outside as well, which ends the traversal. *)
Theorem corner_example_misses (U : Utils) (fuel : nat) :
  let c := (dda_init above_corner straight_down).1 in
  let st := (dda_init above_corner straight_down).2 in
  (map_x st, map_y st, map_z st) = (0, 0, 5) /\
  (map_x (dda_advance c st), map_y (dda_advance c st), map_z (dda_advance c st))
  = (0, 0, 4) /\
  out_of_bounds corner_grid (dda_advance c st) = true /\
  (fun h => (RayHit.hit h, RayHit.distance h))
    <$> cast_ray (S fuel) corner_grid above_corner straight_down (F32.of_Z 10)
  = Some (0, F32.of_Z 10).
Proof. vm_compute. repeat split. Qed.

(** Started inside the grid the same ray does hit the top face. *)
Lemma inside_ray_hits_top (U : Utils) (fuel : nat) :
  (fun h => (RayHit.hit h, RayHit.face h, RayHit.distance h, RayHit.position h))
    <$> cast_ray (S fuel) corner_grid inside_corner straight_down (F32.of_Z 10)
  = Some (1, 4, f32_half, vec3_create f32_half f32_half F32.one).
Proof. vm_compute. reflexivity. Qed.

(** A ray that steps in a negative direction hits the far face of a cell:
    the hit point lies on the boundary with the cell in front, and its
    floor is that cell, not the one hit. *)
Lemma break_target_negative_step (U : Utils) (fuel : nat) :
  (fun h => (RayHit.hit h, RayHit.block_type h, RayHit.face h, break_target h))
    <$> cast_ray (S fuel) row_one_block row_end minus_x (F32.of_Z 5)
  = Some (1, BLOCK_DIRT, 0, (3, 0, 0))
  /\ hit_cell (S fuel) row_one_block row_end minus_x (F32.of_Z 5)
     = Some (Some (2, 0, 0))
  /\ world_get_block row_one_block 3 0 0 = BLOCK_AIR
  /\ world_get_block row_one_block 2 0 0 = BLOCK_DIRT.
Proof. vm_compute. repeat split. Qed.

(** ** Break, then place *)

(** The loop of [cast_ray] returns the hit made from the state in which
    it stops. *)
Lemma dda_loop_stop `{Utils} (world : World) (ray_pos ray_dir : Vector3)
    (max_distance : float) (c : DdaStep) (fuel : nat) :
  forall st : Dda,
    dda_loop world ray_pos ray_dir max_distance c fuel st
    = stop ← dda_stop world max_distance c fuel st;
      Some (match stop with
            | Some st' =>
                ray_hit world ray_pos ray_dir st'
                  (world_get_block world (map_x st') (map_y st') (map_z st'))
            | None => ray_miss max_distance
            end).
Proof.
  induction fuel as [|fuel IH]; intros st; cbn [dda_loop dda_stop]; [done|].
  cbv zeta. destruct (_ <? _)%flt; [|done].
  destruct (out_of_bounds world _); [done|].
  destruct (negb _); [done|]. apply IH.
Qed.

(** Where the loop stops the grid holds a block. *)
Lemma dda_stop_block (world : World) (max_distance : float) (c : DdaStep)
    (fuel : nat) (st' : Dda) :
  forall st : Dda,
    dda_stop world max_distance c fuel st = Some (Some st') ->
    world_is_valid_position world (map_x st') (map_y st') (map_z st') = true /\
    world_get_block world (map_x st') (map_y st') (map_z st') <> BLOCK_AIR.
Proof.
  induction fuel as [|fuel IH]; intros st; cbn [dda_stop]; [done|].
  cbv zeta. destruct (_ <? _)%flt; [|done].
  destruct (out_of_bounds world _) eqn:Hout; [done|].
  destruct (Z.eqb_spec (world_get_block world (map_x (dda_advance c st))
                          (map_y (dda_advance c st)) (map_z (dda_advance c st)))
              BLOCK_AIR) as [Hair|Hblock]; simpl negb; cbv iota; [apply IH|].
  intros [= <-]. split; [|done].
  unfold out_of_bounds in Hout. unfold world_is_valid_position.
  rewrite !orb_false_iff, !Z.ltb_ge, !Z.leb_gt in Hout.
  rewrite !andb_true_iff, !Z.leb_le, !Z.ltb_lt. lia.
Qed.

(** The hit that [cast_ray] reports for the cell the ray has hit. *)
Lemma cast_ray_hit_cell `{Utils} (fuel : nat) (world : World)
    (position direction : Vector3) (max_distance : float) (hit : RayHit)
    (x y z : Z) :
  cast_ray fuel world position direction max_distance = Some hit ->
  hit_cell fuel world position direction max_distance = Some (Some (x, y, z)) ->
  RayHit.hit hit = 1 /\
  RayHit.block_type hit = world_get_block world x y z /\
  world_get_block world x y z <> BLOCK_AIR /\
  world_is_valid_position world x y z = true.
Proof.
  unfold cast_ray, hit_cell. destruct (dda_init position direction) as [c st].
  rewrite dda_loop_stop.
  destruct (dda_stop world max_distance c fuel st) as [[st'|]|] eqn:Hstop;
    [|done|done].
  intros [= <-] [= <- <- <-].
  destruct (dda_stop_block _ _ _ _ _ _ Hstop) as [Hvalid Hblock]. done.
Qed.

(** C2 (amended). Take a grid and a pose for which the interaction ray
    hits a solid cell c, of block type b, with the hit point lying in c
    (the break action empties the cell of the hit point), b inside the
    inventory array and a count of b below 255. Then the break action
    makes c air and raises the count of b by one. If moreover the ray cast
    again from the same pose on the grid without c hits a block whose
    struck face borders c, the place action of b that follows gives back
    exactly the player and the grid from before the break: the count of b
    is unchanged and c holds b, solid again. *)
Theorem break_then_place_restores `{Libm} `{Utils} (fuel : nat)
    (player : Player) (world : World) (hit : RayHit) (x y z : Z) :
  grid_shaped world ->
  interaction_ray fuel player world = Some hit ->
  interaction_cell fuel player world = Some (Some (x, y, z)) ->
  break_target hit = (x, y, z) ->
  world_is_solid world x y z <> 0 ->
  let b := world_get_block world x y z in
  (Z.to_nat b < length (Player.inventory player))%nat ->
  0 <= inventory_get player b < 255 ->
  RayHit.hit hit = 1 /\ RayHit.block_type hit = b /\
  exists player1 world1,
    player_break_block fuel player world = Some (player1, world1) /\
    world1 = world_set_block world x y z BLOCK_AIR /\
    world_get_block world1 x y z = BLOCK_AIR /\
    inventory_get player1 b = inventory_get player b + 1 /\
    forall hit1 : RayHit,
      interaction_ray fuel player world1 = Some hit1 ->
      RayHit.hit hit1 <> 0 ->
      place_target hit1 = (x, y, z) ->
      player_place_block fuel player1 world1 b = Some (player, world) /\
      inventory_get player b = inventory_get player1 b - 1 /\
      world_is_solid world x y z <> 0.
Proof.
  intros Hshape Hray Hcell Htarget Hsolid b Hb Hcount.
  destruct (cast_ray_hit_cell _ _ _ _ _ _ _ _ _ Hray Hcell)
    as (Hhit & Htype & _ & Hvalid).
  split; [done|]. split; [done|].
  assert (Hhit0 : (RayHit.hit hit =? 0) = false) by (by rewrite Hhit).
  set (player1 := inventory_set player b (uint8 (inventory_get player b + 1))).
  set (world1 := world_set_block world x y z BLOCK_AIR) in *.
  assert (Hbreak : player_break_block fuel player world = Some (player1, world1)).
  { unfold player_break_block. rewrite Hray. bind_step.
    rewrite Hhit0, Htarget. reflexivity. }
  assert (Hcount1 : inventory_get player1 b = inventory_get player b + 1).
  { unfold player1. rewrite inventory_get_set by done. apply uint8_small. lia. }
  exists player1, world1. split; [done|]. split; [done|].
  split; [by apply get_set_block|]. split; [done|].
  intros hit1 Hray1 Hhit1 Hcell1. split; [|split; [lia|done]].
  apply Z.eqb_neq in Hhit1.
  unfold player_place_block.
  rewrite (interaction_ray_pose fuel player1 player) by done.
  rewrite Hray1. bind_step. rewrite Hhit1, Hcell1. cbv beta iota.
  unfold world1 at 1. rewrite set_block_valid, Hvalid. simpl negb. cbv iota.
  destruct (Z.ltb_spec 0 (inventory_get player1 b)); [|lia].
  rewrite Hcount1.
  replace (inventory_get player b + 1 - 1) with (inventory_get player b) by lia.
  rewrite uint8_small by lia.
  unfold player1. rewrite inventory_set_undo by done.
  unfold world1, b, world_get_block. rewrite Hvalid. simpl negb. cbv iota.
  rewrite set_block_undo by done. done.
Qed.

(** Along yaw 0 and pitch 0 the player looks down the X axis, whatever
    the C library is, provided it has cos 0 = 1 and sin 0 = 0. *)
Lemma view_at_zero `{Libm} (player : Player) :
  Player.rotation player = vec2_create F32.zero F32.zero ->
  cosf F32.zero = F32.one -> sinf F32.zero = F32.zero ->
  player_get_view_direction player = vec3_create F32.one F32.zero F32.zero.
Proof.
  intros Hrot Hcos Hsin. unfold player_get_view_direction, vec3_from_angles.
  rewrite Hrot. simpl. rewrite Hcos, Hsin. vm_compute. reflexivity.
Qed.

(** The row with one block: the ray hits the cell at x = 2, a solid one,
    and the break action empties it; the ray of the place action then
    leaves the grid and nothing is placed. *)
Lemma row_one_block_break `{Libm} `{Utils} :
  cosf F32.zero = F32.one -> sinf F32.zero = F32.zero ->
  (fun h => (RayHit.hit h, RayHit.block_type h, break_target h))
    <$> interaction_ray 10 row_player row_one_block
  = Some (1, BLOCK_DIRT, (2, 0, 0))
  /\ interaction_cell 10 row_player row_one_block = Some (Some (2, 0, 0))
  /\ player_break_block 10 row_player row_one_block
     = Some (inventory_set row_player BLOCK_DIRT 65,
             world_set_block row_one_block 2 0 0 BLOCK_AIR).
Proof.
  intros Hcos Hsin. unfold player_break_block, interaction_ray, interaction_cell.
  rewrite view_at_zero by done. vm_compute. repeat split.
Qed.

Lemma row_one_block_place `{Libm} `{Utils} :
  cosf F32.zero = F32.one -> sinf F32.zero = F32.zero ->
  player_place_block 10 (inventory_set row_player BLOCK_DIRT 65)
    (world_set_block row_one_block 2 0 0 BLOCK_AIR) BLOCK_DIRT
  = Some (inventory_set row_player BLOCK_DIRT 65,
          world_set_block row_one_block 2 0 0 BLOCK_AIR).
Proof.
  intros Hcos Hsin. unfold player_place_block, interaction_ray.
  rewrite view_at_zero by done. vm_compute. reflexivity.
Qed.

Lemma break_place_not_restored_any `{Libm} `{Utils} :
  cosf F32.zero = F32.one -> sinf F32.zero = F32.zero ->
  ~ break_place_roundtrip 10 row_player row_one_block.
Proof.
  intros Hcos Hsin Hclaim.
  destruct (row_one_block_break Hcos Hsin) as (Hray & Hcell & Hbreak).
  pose proof (row_one_block_place Hcos Hsin) as Hplace.
  destruct (interaction_ray 10 row_player row_one_block) as [hit|] eqn:E;
    [|discriminate Hray].
  injection Hray as Hhit Hbt _.
  destruct (Hclaim hit 2 0 0 E Hcell) as (p1 & w1 & p2 & w2 & Hb & Hp & Hinv & _);
    [vm_compute; discriminate|].
  rewrite Hbreak in Hb. injection Hb as <- <-.
  rewrite Hbt, Hplace in Hp. injection Hp as <- _.
  rewrite Hbt in Hinv. vm_compute in Hinv. discriminate Hinv.
Qed.

(** C2 as it is stated does not hold: the ray hits the solid cell
    (2,0,0), and after the two actions the count of dirt is one higher
    and the cell is empty. *)
Lemma break_place_not_restored :
  ~ @break_place_roundtrip libm_at_zero utils_minmax 10 row_player row_one_block.
Proof. apply break_place_not_restored_any; reflexivity. Qed.

(** Nor does it hold with a second block behind the first when the stock
    of the block type is full: the count of 255 wraps to 0 in the break
    action, and the place action finds nothing to place. *)
Lemma break_place_full_stock :
  (fun r => (inventory_get r.1 BLOCK_DIRT, world_get_block r.2 2 0 0))
    <$> ('(player1, world1) ←
           @player_break_block libm_at_zero utils_minmax 10
             (inventory_set row_player BLOCK_DIRT 255) row_two_blocks;
         @player_place_block libm_at_zero utils_minmax 10 player1 world1
           BLOCK_DIRT)
  = Some (0, BLOCK_AIR).
Proof. vm_compute. reflexivity. Qed.

(** The row with two blocks: the ray hits the first, and with that one
    broken it hits the second, whose struck face borders the emptied
    cell. *)
Lemma break_then_place_restores_witness :
  grid_shaped row_two_blocks /\
  @interaction_cell libm_at_zero 10 row_player row_two_blocks
  = Some (Some (2, 0, 0)) /\
  world_is_solid row_two_blocks 2 0 0 <> 0 /\
  exists player1 world1,
    @player_break_block libm_at_zero utils_minmax 10 row_player row_two_blocks
    = Some (player1, world1) /\
    world_get_block world1 2 0 0 = BLOCK_AIR /\
    inventory_get player1 BLOCK_DIRT = inventory_get row_player BLOCK_DIRT + 1 /\
    @player_place_block libm_at_zero utils_minmax 10 player1 world1 BLOCK_DIRT
    = Some (row_player, row_two_blocks).
Proof.
  assert (Hshape : grid_shaped row_two_blocks) by (vm_compute; repeat constructor).
  assert (Hcell : @interaction_cell libm_at_zero 10 row_player row_two_blocks
                  = Some (Some (2, 0, 0))) by (vm_compute; reflexivity).
  assert (Hsolid : world_is_solid row_two_blocks 2 0 0 <> 0)
    by (vm_compute; discriminate).
  split; [exact Hshape|]. split; [exact Hcell|]. split; [exact Hsolid|].
  destruct (@break_then_place_restores libm_at_zero utils_minmax 10
              row_player row_two_blocks
              (default (ray_miss F32.zero)
                 (@interaction_ray libm_at_zero utils_minmax 10 row_player
                    row_two_blocks))
              2 0 0 Hshape)
    as (_ & _ & player1 & world1 & Hbreak & Hworld1 & Hair & Hcount & Hplace).
  - vm_compute. reflexivity.
  - exact Hcell.
  - vm_compute. reflexivity.
  - exact Hsolid.
  - vm_compute. lia.
  - vm_compute. split; [discriminate|reflexivity].
  - exists player1, world1. split; [exact Hbreak|]. split; [exact Hair|].
    split; [exact Hcount|].
    apply (Hplace (default (ray_miss F32.zero)
                     (@interaction_ray libm_at_zero utils_minmax 10 row_player
                        (world_set_block row_two_blocks 2 0 0 BLOCK_AIR)))).
    + rewrite Hworld1. vm_compute. reflexivity.
    + vm_compute. discriminate.
    + vm_compute. reflexivity.
Defined.

(** ** Rotation *)

Lemma while_do_stuck {A : Type} (cond : A -> bool) (body : A -> A) (a : A) :
  cond a = true -> body a = a ->
  forall fuel : nat, while_do fuel cond body a = None.
Proof.
  intros Hc Hb fuel. induction fuel as [|fuel IH]; simpl; [done|].
  rewrite Hc, Hb. exact IH.
Qed.

(** With an infinite yaw the first loop subtracts 2 pi for ever. *)
Lemma rotate_infinite_yaw_diverges (fuel : nat) :
  player_rotate fuel row_player F32.zero (S754_infinity false) = None.
Proof.
  unfold player_rotate.
  replace (v2_y (Player.rotation row_player) + S754_infinity false)%flt
    with (S754_infinity false) by (vm_compute; reflexivity).
  rewrite while_do_stuck; [done|vm_compute; reflexivity..].
Qed.

(** The pitch is clamped whatever it was, unless it is a NaN. *)
Lemma clamp_pitch_range (x : float) :
  is_nan x = false -> pitch_in_range (clamp_pitch x) = true.
Proof.
  intros Hx. unfold clamp_pitch, pitch_in_range.
  set (lo := (- F32.lit 15 10)%flt). set (hi := F32.lit 15 10).
  assert (Hlohi : F32.ltb lo hi = true) by (vm_compute; reflexivity).
  destruct (hi <? x)%flt eqn:H1.
  - replace (hi <? lo)%flt with false by (vm_compute; reflexivity).
    apply andb_true_iff; split; [by apply ltb_leb|vm_compute; reflexivity].
  - destruct (x <? lo)%flt eqn:H2.
    + apply andb_true_iff; split; [vm_compute; reflexivity|by apply ltb_leb].
    + apply andb_true_iff; split; apply ltb_false_leb; done.
Qed.

Lemma rotate_pitch_in_range (fuel : nat) (player player' : Player)
    (pitch yaw : float) :
  player_rotate fuel player pitch yaw = Some player' ->
  is_nan (v2_x (Player.rotation player) + pitch)%flt = false ->
  pitch_in_range (v2_x (Player.rotation player')) = true.
Proof.
  unfold player_rotate. intros Hrot Hnan.
  destruct (while_do fuel yaw_too_big yaw_down _) as [y1|]; [|done].
  bind_step_in Hrot.
  destruct (while_do fuel yaw_negative yaw_up y1) as [y2|]; [|done].
  bind_step_in Hrot. injection Hrot as <-. simpl. by apply clamp_pitch_range.
Qed.

Lemma clamp_pitch_nan : pitch_in_range (clamp_pitch S754_nan) = false.
Proof. vm_compute. reflexivity. Qed.

Lemma while_do_exit {A : Type} (cond : A -> bool) (body : A -> A) (fuel : nat) :
  forall a b : A, while_do fuel cond body a = Some b -> cond b = false.
Proof.
  induction fuel as [|fuel IH]; intros a b; simpl; [done|].
  destruct (cond a) eqn:Hc; [apply IH|]. by intros [= <-].
Qed.

(** What the second loop does ensure: a yaw that [player_rotate] returns
    is not negative. *)
Lemma rotate_yaw_not_negative (fuel : nat) (player player' : Player)
    (pitch yaw : float) :
  player_rotate fuel player pitch yaw = Some player' ->
  yaw_negative (v2_y (Player.rotation player')) = false.
Proof.
  unfold player_rotate. intros Hrot.
  destruct (while_do fuel yaw_too_big yaw_down _) as [y1|]; [|done].
  bind_step_in Hrot.
  destruct (while_do fuel yaw_negative yaw_up y1) as [y2|] eqn:Hy2; [|done].
  bind_step_in Hrot. injection Hrot as <-. simpl.
  by apply while_do_exit in Hy2.
Qed.

(** A turn of -2^-30 (about -1e-9 rad) at yaw 0: the yaw becomes negative,
    the second loop adds 2 pi in [double], and the sum rounds to the
    [float] nearest to 2 pi, 6.2831855, which is above 2 pi. *)
Lemma yaw_wrap_tiny_left (fuel : nat) :
  Player.rotation <$> player_rotate (S (S fuel)) row_player F32.zero tiny_left
  = Some (vec2_create F32.zero (float_of_double two_pi)) /\
  yaw_too_big (float_of_double two_pi) = true /\
  yaw_in_range (float_of_double two_pi) = false.
Proof. vm_compute. repeat split. Qed.

(** C8: the player of [player_create], with [d] held for twenty frames and
    then [a] for twenty. Every call of [player_rotate] the game makes
    starts from a pitch in [-1.5, 1.5] and a yaw in [0, 2 pi); after
    thirty-nine frames the yaw is 0.04999998, short of where it started
    by the rounding of the additions; the fortieth turn of -0.05f makes
    it negative, the second loop adds 2 pi in [double], the sum rounds
    to the [float] nearest to 2 pi, 6.2831855, which is above 2 pi, and
    [player_rotate] returns with that yaw, outside [0, 2 pi). *)
Theorem yaw_wrap_reaches_two_pi (fuel : nat) :
  (fun player =>
     (pitch_in_range (v2_x (Player.rotation player)),
      yaw_in_range (v2_y (Player.rotation player))))
    <$> player_create true
  = Some (true, true) /\
  (player ← player_create true;
   player ← look_frames (S (S fuel)) player (right_then_left 19);
   Some (Player.rotation player, yaw_in_range (v2_y (Player.rotation player))))
  = Some (vec2_create F32.zero (S754_finite false 13421763 (-28)), true) /\
  (player ← player_create true;
   player ← look_frames (S (S fuel)) player (right_then_left 20);
   Some (Player.rotation player, yaw_in_range (v2_y (Player.rotation player))))
  = Some (vec2_create F32.zero (float_of_double two_pi), false) /\
  yaw_too_big (float_of_double two_pi) = true.
Proof. vm_compute. repeat split. Qed.

(** ** Bytes, integers and floats in a file *)

Lemma Z_of_byte_range (b : byte) : 0 <= Z_of_byte b < 256.
Proof.
  unfold Z_of_byte. pose proof (Byte.to_N_bounded b). lia.
Qed.

Lemma Z_of_byte_of_Z (n : Z) : Z_of_byte (byte_of_Z n) = n mod 256.
Proof.
  unfold Z_of_byte, byte_of_Z.
  pose proof (Z.mod_pos_bound n 256 eq_refl) as Hn.
  destruct (Byte.of_N (Z.to_N (n mod 256))) as [b|] eqn:E; simpl.
  - apply Byte.to_of_N in E. rewrite E. lia.
  - apply Byte.of_N_None_iff in E. lia.
Qed.

Lemma byte_of_Z_of_byte (b : byte) : byte_of_Z (Z_of_byte b) = b.
Proof.
  unfold byte_of_Z. rewrite Z.mod_small by apply Z_of_byte_range.
  unfold Z_of_byte. rewrite N2Z.id, Byte.of_to_N. done.
Qed.

Lemma decode_encode_uint32 (u : Z) :
  0 <= u < 2 ^ 32 -> decode_uint32 (encode_uint32 u) = u.
Proof.
  intros Hu. unfold decode_uint32, encode_uint32.
  rewrite !Z_of_byte_of_Z.
  change (2 ^ 32) with 4294967296 in Hu.
  change (2 ^ 8) with 256. change (2 ^ 16) with 65536. change (2 ^ 24) with 16777216.
  Z.div_mod_to_equations. lia.
Qed.

Lemma decode_encode_int32 (n : Z) :
  - 2 ^ 31 <= n < 2 ^ 31 -> decode_int32 (encode_int32 n) = n.
Proof.
  intros Hn. unfold decode_int32, encode_int32.
  rewrite decode_encode_uint32 by (apply Z.mod_pos_bound; done).
  change (2 ^ 31) with 2147483648 in *. change (2 ^ 32) with 4294967296.
  destruct (Z.leb_spec 2147483648 (n mod 4294967296));
    Z.div_mod_to_equations; lia.
Qed.

Lemma encode_uint32_length (u : Z) : length (encode_uint32 u) = 4%nat.
Proof. reflexivity. Qed.

(** The number of binary digits of a mantissa. *)
Lemma digits2_bounds (m : positive) :
  2 ^ (Z.pos (digits2_pos m) - 1) <= Z.pos m < 2 ^ Z.pos (digits2_pos m).
Proof.
  induction m as [m IH|m IH|]; simpl digits2_pos.
  - rewrite Pos2Z.inj_succ.
    replace (Z.succ (Z.pos (digits2_pos m)) - 1) with (Z.succ (Z.pos (digits2_pos m) - 1)) by lia.
    rewrite !Z.pow_succ_r by lia. lia.
  - rewrite Pos2Z.inj_succ.
    replace (Z.succ (Z.pos (digits2_pos m)) - 1) with (Z.succ (Z.pos (digits2_pos m) - 1)) by lia.
    rewrite !Z.pow_succ_r by lia. lia.
  - simpl. lia.
Qed.

(** The finite numbers of binary32: subnormal with exponent -149, or
    normal with a mantissa of 24 bits. *)
Lemma bounded_binary32 (m : positive) (e : Z) :
  bounded F32.prec F32.emax m e = true ->
  (Z.pos m < 2 ^ 23 /\ e = -149) \/
  (2 ^ 23 <= Z.pos m < 2 ^ 24 /\ -149 <= e <= 104).
Proof.
  unfold bounded, canonical_mantissa, fexp, emin, F32.prec, F32.emax.
  intros H. apply andb_true_iff in H as [Hc He].
  apply Z.eqb_eq in Hc. apply Z.leb_le in He.
  pose proof (digits2_bounds m) as Hd.
  set (d := Z.pos (digits2_pos m)) in *.
  assert (0 < d) by (unfold d; lia).
  destruct (Z.le_gt_cases 24 d) as [Hbig|Hsmall].
  - assert (d = 24) as Hd24 by lia. rewrite Hd24 in Hd.
    right. change (24 - 1) with 23 in Hd. lia.
  - left. split; [|lia].
    assert (2 ^ d <= 2 ^ 23) by (apply Z.pow_le_mono_r; lia). lia.
Qed.

Lemma bits_of_float_range (f : float) :
  valid_float f -> 0 <= bits_of_float f < 2 ^ 32.
Proof.
  unfold valid_float. destruct f as [s|s| |s m e]; simpl.
  - destruct s; done.
  - destruct s; done.
  - done.
  - intros H. apply bounded_binary32 in H.
    change (2 ^ 23) with 8388608 in *. change (2 ^ 24) with 16777216 in *.
    change (2 ^ 31) with 2147483648. change (2 ^ 32) with 4294967296.
    destruct (Z.ltb_spec (Z.pos m) 8388608); destruct s; lia.
Qed.

Lemma float_of_bits_of_float (f : float) :
  valid_float f -> float_of_bits (bits_of_float f) = f.
Proof.
  unfold valid_float. destruct f as [s|s| |s m e]; simpl valid_binary.
  - destruct s; reflexivity.
  - destruct s; reflexivity.
  - reflexivity.
  - intros H. apply bounded_binary32 in H.
    unfold float_of_bits, bits_of_float.
    change (2 ^ 23) with 8388608 in *. change (2 ^ 24) with 16777216 in *.
    change (2 ^ 31) with 2147483648.
    destruct (Z.ltb_spec (Z.pos m) 8388608) as [Hsub|Hnorm].
    + assert (e = -149) as -> by lia.
      set (b := (if s then 2147483648 else 0) + Z.pos m).
      assert (Hex : (b / 8388608) mod 256 = 0)
        by (unfold b; destruct s; Z.div_mod_to_equations; lia).
      assert (Hfrac : b mod 8388608 = Z.pos m)
        by (unfold b; destruct s; Z.div_mod_to_equations; lia).
      assert (Hs : (2147483648 <=? b) = s)
        by (unfold b; destruct s; [apply Z.leb_le|apply Z.leb_gt]; lia).
      rewrite Hex, Hfrac, Hs. simpl. reflexivity.
    + set (b := (if s then 2147483648 else 0)
                + ((e + 150) * 8388608 + (Z.pos m - 8388608))).
      assert (Hex : (b / 8388608) mod 256 = e + 150)
        by (unfold b; destruct s; Z.div_mod_to_equations; lia).
      assert (Hfrac : b mod 8388608 = Z.pos m - 8388608)
        by (unfold b; destruct s; Z.div_mod_to_equations; lia).
      assert (Hs : (2147483648 <=? b) = s)
        by (unfold b; destruct s; [apply Z.leb_le|apply Z.leb_gt]; lia).
      rewrite Hex, Hfrac, Hs.
      destruct (Z.eqb_spec (e + 150) 0); [lia|].
      destruct (Z.eqb_spec (e + 150) 255); [lia|].
      replace (Z.pos m - 8388608 + 8388608) with (Z.pos m) by lia.
      replace (e + 150 - 150) with e by lia. reflexivity.
Qed.

Lemma decode_encode_float (f : float) :
  valid_float f -> decode_float (encode_float f) = f.
Proof.
  intros Hf. unfold decode_float, encode_float.
  rewrite decode_encode_uint32 by (by apply bits_of_float_range).
  by apply float_of_bits_of_float.
Qed.

(** ** Reading a file *)

Lemma fread_app (bs rest : list byte) (n : nat) :
  length bs = n -> fread n (bs ++ rest) = Some (bs, rest).
Proof.
  intros <-. unfold fread. rewrite length_app.
  destruct (decide _) as [_|Hn]; [|lia].
  by rewrite take_app_length, drop_app_length.
Qed.

Lemma fread_Some (n : nat) (file bs rest : list byte) :
  fread n file = Some (bs, rest) -> file = bs ++ rest /\ length bs = n.
Proof.
  unfold fread. destruct (decide _) as [Hn|]; [|done]. intros [= <- <-].
  split; [by rewrite take_drop|]. rewrite length_take. lia.
Qed.

Lemma fread_None (n : nat) (file : list byte) :
  fread n file = None <-> (length file < n)%nat.
Proof. unfold fread. destruct (decide _); split; intros; try done; lia. Qed.

Lemma fread_int_app (n : Z) (rest : list byte) :
  - 2 ^ 31 <= n < 2 ^ 31 -> fread_int (encode_int32 n ++ rest) = Some (n, rest).
Proof.
  intros Hn. unfold fread_int. rewrite fread_app by done. bind_step.
  by rewrite decode_encode_int32.
Qed.

Lemma fread_float_app (f : float) (rest : list byte) :
  valid_float f -> fread_float (encode_float f ++ rest) = Some (f, rest).
Proof.
  intros Hf. unfold fread_float. rewrite fread_app by done. bind_step.
  by rewrite decode_encode_float.
Qed.

Lemma bytes_of_cells (row : list Z) :
  Forall (fun cell => 0 <= cell < 256) row ->
  Z_of_byte <$> (byte_of_Z <$> row) = row.
Proof.
  intros Hrow. rewrite <- list_fmap_compose.
  rewrite <- (list_fmap_id row) at 2. apply Forall_fmap_ext.
  eapply Forall_impl; [|exact Hrow]. intros cell Hc; simpl.
  rewrite Z_of_byte_of_Z. by apply Z.mod_small.
Qed.

Lemma fread_row_app (width : Z) (row : list Z) (rest : list byte) :
  length row = Z.to_nat width -> 0 <= width ->
  Forall (fun cell => 0 <= cell < 256) row ->
  fread_row width ((byte_of_Z <$> row) ++ rest) = Some (row, rest).
Proof.
  intros Hlen Hw Hrow. unfold fread_row.
  destruct (Z.ltb_spec width 0); [lia|].
  rewrite fread_app by (by rewrite length_fmap).
  by rewrite bytes_of_cells.
Qed.

Lemma fread_plane_app (width : Z) (plane : list (list Z)) (rest : list byte) :
  0 <= width ->
  Forall (fun row => length row = Z.to_nat width) plane ->
  Forall (Forall (fun cell => 0 <= cell < 256)) plane ->
  fread_plane (length plane) width ((byte_of_Z <$> mjoin plane) ++ rest)
  = Some (plane, rest).
Proof.
  intros Hw. induction plane as [|row plane IH]; intros Hlen Hcells; [done|].
  inversion_clear Hlen as [|? ? Hrow Hlen']. inversion_clear Hcells as [|? ? Hc Hcells'].
  simpl. rewrite fmap_app, <- app_assoc.
  rewrite fread_row_app by done. bind_step.
  rewrite IH by done. done.
Qed.

Lemma fread_blocks_app (height width : Z) (blocks : list (list (list Z)))
    (rest : list byte) :
  0 <= width ->
  Forall (fun plane =>
            length plane = Z.to_nat height /\
            Forall (fun row => length row = Z.to_nat width) plane) blocks ->
  Forall (Forall (Forall (fun cell => 0 <= cell < 256))) blocks ->
  fread_blocks (length blocks) height width
    ((byte_of_Z <$> mjoin (mjoin blocks)) ++ rest)
  = Some (blocks, rest).
Proof.
  intros Hw. induction blocks as [|plane blocks IH]; intros Hshape Hcells; [done|].
  inversion_clear Hshape as [|? ? [Hh Hrows] Hshape'].
  inversion_clear Hcells as [|? ? Hc Hcells'].
  simpl. rewrite join_app, fmap_app, <- app_assoc. rewrite <- Hh.
  rewrite fread_plane_app by done. bind_step.
  rewrite IH by done. done.
Qed.

(** What the loops have consumed when they succeed. *)
Lemma fread_row_Some (width : Z) (file rest : list byte) (row : list Z) :
  fread_row width file = Some (row, rest) ->
  exists bs, file = bs ++ rest /\ length bs = Z.to_nat width
             /\ row = Z_of_byte <$> bs.
Proof.
  unfold fread_row. destruct (width <? 0); [done|].
  destruct (fread (Z.to_nat width) file) as [[bs rest']|] eqn:E; [|done].
  intros [= <- <-]. apply fread_Some in E as [-> Hlen]. by exists bs.
Qed.

Lemma fread_plane_Some (n : nat) (width : Z) :
  forall (file rest : list byte) (plane : list (list Z)),
    fread_plane n width file = Some (plane, rest) ->
    exists bs,
      file = bs ++ rest /\ length bs = (n * Z.to_nat width)%nat /\
      mjoin plane = Z_of_byte <$> bs /\ length plane = n /\
      Forall (fun row => length row = Z.to_nat width) plane.
Proof.
  induction n as [|n IH]; intros file rest plane; simpl.
  - intros [= <- <-]. by exists [].
  - destruct (fread_row width file) as [[row file1]|] eqn:Hrow; [|done].
    bind_step.
    destruct (fread_plane n width file1) as [[rows file2]|] eqn:Hrows; [|done].
    bind_step. intros [= <- <-].
    apply fread_row_Some in Hrow as (bs1 & -> & Hl1 & ->).
    apply IH in Hrows as (bs2 & -> & Hl2 & Hj & Hn & Hall).
    exists (bs1 ++ bs2). rewrite <- app_assoc, length_app, fmap_app. simpl.
    rewrite Hj, Hn. repeat split; [lia|].
    constructor; [by rewrite length_fmap|done].
Qed.

Lemma fread_blocks_Some (n : nat) (height width : Z) :
  forall (file rest : list byte) (blocks : list (list (list Z))),
    fread_blocks n height width file = Some (blocks, rest) ->
    exists bs,
      file = bs ++ rest /\
      length bs = (n * (Z.to_nat height * Z.to_nat width))%nat /\
      mjoin (mjoin blocks) = Z_of_byte <$> bs /\ length blocks = n /\
      Forall (fun plane =>
                length plane = Z.to_nat height /\
                Forall (fun row => length row = Z.to_nat width) plane) blocks.
Proof.
  induction n as [|n IH]; intros file rest blocks; simpl.
  - intros [= <- <-]. by exists [].
  - destruct (fread_plane (Z.to_nat height) width file)
      as [[plane file1]|] eqn:Hplane; [|done].
    bind_step.
    destruct (fread_blocks n height width file1)
      as [[planes file2]|] eqn:Hplanes; [|done].
    bind_step. intros [= <- <-].
    apply fread_plane_Some in Hplane as (bs1 & -> & Hl1 & Hj1 & Hn1 & Hall1).
    apply IH in Hplanes as (bs2 & -> & Hl2 & Hj & Hn & Hall).
    exists (bs1 ++ bs2). rewrite <- app_assoc, length_app, fmap_app. simpl.
    rewrite join_app, Hj1, Hj, Hn. repeat split; [lia|].
    constructor; done.
Qed.

(** ** The layout of a saved world *)

Lemma seqZ_to_nat (m n : Z) : seqZ m n = seqZ m (Z.of_nat (Z.to_nat n)).
Proof. unfold seqZ. by rewrite Nat2Z.id. Qed.

(** A loop over the indices of an array that reads the array at each
    index visits its elements in order. *)
Lemma bind_seqZ_lookup {A B : Type} (g : A -> list B) (l : list A) :
  forall (h : Z -> list B) (k : Z),
    (forall (j : nat) (a : A), l !! j = Some a -> h (k + Z.of_nat j) = g a) ->
    seqZ k (Z.of_nat (length l)) ≫= h = l ≫= g.
Proof.
  induction l as [|a l IH]; intros h k Hh; [done|].
  rewrite seqZ_cons by (simpl; lia). rewrite !bind_cons.
  f_equal.
  - rewrite <- (Hh 0%nat a eq_refl). f_equal. lia.
  - replace (Z.pred (Z.of_nat (length (a :: l)))) with (Z.of_nat (length l))
      by (simpl; lia).
    apply IH. intros j a' Hj. rewrite <- (Hh (S j) a' Hj). f_equal. lia.
Qed.

Lemma bind_fmap_join {A B : Type} (f : A -> B) (ls : list (list A)) :
  ls ≫= fmap f = f <$> mjoin ls.
Proof.
  induction ls as [|l ls IH]; [done|].
  rewrite bind_cons, IH. simpl. by rewrite fmap_app.
Qed.

Lemma bind_bind_fmap_join {A B : Type} (f : A -> B) (lss : list (list (list A))) :
  lss ≫= (fun ls => ls ≫= fmap f) = f <$> mjoin (mjoin lss).
Proof.
  induction lss as [|ls lss IH]; [done|].
  rewrite bind_cons, IH, bind_fmap_join. simpl. by rewrite join_app, fmap_app.
Qed.

Lemma fwrite_rows_flat (world : World) :
  grid_shaped world ->
  (z ← seqZ 0 (World.depth world);
   y ← seqZ 0 (World.height world);
   fwrite_row world z y)
  = byte_of_Z <$> mjoin (mjoin (World.blocks world)).
Proof.
  intros [Hd Hplanes]. rewrite <- bind_bind_fmap_join.
  rewrite (seqZ_to_nat 0 (World.depth world)), <- Hd.
  apply bind_seqZ_lookup. intros j plane Hplane.
  destruct (Forall_lookup_1 _ _ _ _ Hplanes Hplane) as [Hh Hrows].
  rewrite (seqZ_to_nat 0 (World.height world)), <- Hh.
  apply bind_seqZ_lookup. intros i row Hrow.
  pose proof (Forall_lookup_1 _ _ _ _ Hrows Hrow) as Hw. simpl in Hw.
  unfold fwrite_row, block_row. rewrite !Z.add_0_l, !Nat2Z.id.
  rewrite Hplane. simpl. rewrite Hrow. simpl.
  rewrite take_ge by lia. done.
Qed.

Lemma world_save_flat (world : World) :
  grid_shaped world ->
  world_save world
  = encode_int32 (World.width world) ++ encode_int32 (World.height world)
    ++ encode_int32 (World.depth world)
    ++ (byte_of_Z <$> mjoin (mjoin (World.blocks world)))
    ++ encode_float (World.time_of_day world)
    ++ encode_float (World.sky_brightness world).
Proof. intros Hshape. unfold world_save. by rewrite fwrite_rows_flat. Qed.

Lemma shaped_rows (world : World) :
  grid_shaped world ->
  Forall (fun plane => length plane = Z.to_nat (World.height world))
    (World.blocks world) /\
  Forall (fun row => length row = Z.to_nat (World.width world))
    (mjoin (World.blocks world)).
Proof.
  intros [_ Hplanes]. split.
  - eapply Forall_impl; [|exact Hplanes]. by intros plane [? _].
  - apply Forall_join. eapply Forall_impl; [|exact Hplanes]. by intros plane [_ ?].
Qed.

Lemma shaped_length (world : World) :
  grid_shaped world ->
  length (mjoin (mjoin (World.blocks world)))
  = block_bytes (World.width world) (World.height world) (World.depth world).
Proof.
  intros Hshape. destruct (shaped_rows world Hshape) as [Hh Hw].
  destruct Hshape as [Hd _].
  rewrite length_join, (sum_list_fmap_same (Z.to_nat (World.width world))) by done.
  rewrite length_join, (sum_list_fmap_same (Z.to_nat (World.height world))) by done.
  unfold block_bytes. rewrite Hd. lia.
Qed.

(** The cell (x, y, z) is at the offset (z * height + y) * width + x. *)
Lemma shaped_offset (world : World) (x y z : Z) :
  grid_shaped world ->
  world_is_valid_position world x y z = true ->
  mjoin (mjoin (World.blocks world))
    !! Z.to_nat ((z * World.height world + y) * World.width world + x)
  = Some (world_get_block world x y z).
Proof.
  intros Hshape Hvalid.
  destruct (shaped_rows world Hshape) as [Hh Hw].
  destruct (shaped_lookup world x y z Hshape Hvalid) as (plane & row & Hp & Hr & Hc).
  unfold world_get_block. rewrite Hvalid. simpl.
  apply valid_position_spec in Hvalid.
  replace (Z.to_nat ((z * World.height world + y) * World.width world + x))
    with ((Z.to_nat z * Z.to_nat (World.height world) + Z.to_nat y)
          * Z.to_nat (World.width world) + Z.to_nat x)%nat by nia.
  apply join_lookup_Some_same_length'; [done|lia|].
  exists row. split; [|done].
  apply join_lookup_Some_same_length'; [done|lia|].
  by exists plane.
Qed.

(** ** Saving and loading *)

Lemma world_load_saved (world : World) :
  world_fits_format world ->
  world_load true (world_save world)
  = Some {| World.width := World.width world;
            World.height := World.height world;
            World.depth := World.depth world;
            World.blocks := World.blocks world;
            World.block_types := default_block_types;
            World.num_block_types := MAX_BLOCK_TYPES;
            World.time_of_day := World.time_of_day world;
            World.sky_brightness := World.sky_brightness world |}.
Proof.
  intros (Hshape & Hw & Hh & Hd & Hcells & Htod & Hsky).
  rewrite world_save_flat by done. unfold world_load.
  rewrite fread_int_app by lia. bind_step.
  rewrite fread_int_app by lia. bind_step.
  rewrite fread_int_app by lia. bind_step.
  unfold world_create. cbv beta iota. simpl World.depth. simpl World.height.
  simpl World.width. simpl World.block_types. simpl World.num_block_types.
  destruct Hshape as [Hlen Hplanes]. rewrite <- Hlen.
  rewrite fread_blocks_app by (done || lia). bind_step.
  rewrite fread_float_app by done. bind_step.
  rewrite <- (app_nil_r (encode_float (World.sky_brightness world))).
  rewrite fread_float_app by done. bind_step. reflexivity.
Qed.

(** C4. For a world that fits the format, [world_save] writes the three
    dimensions as 32-bit integers, then depth x height x width bytes, the
    cell (x, y, z) at the offset (z * height + y) * width + x after them
    (z, y, x row-major order), then the two floats; and [world_load] on
    these bytes returns a world with the same dimensions, the same block
    grid and the same [time_of_day] and [sky_brightness]. *)
Theorem save_load_roundtrip (world : World) :
  world_fits_format world ->
  world_save world
  = encode_int32 (World.width world) ++ encode_int32 (World.height world)
    ++ encode_int32 (World.depth world)
    ++ (byte_of_Z <$> mjoin (mjoin (World.blocks world)))
    ++ encode_float (World.time_of_day world)
    ++ encode_float (World.sky_brightness world)
  /\ length (world_save world)
     = (12 + block_bytes (World.width world) (World.height world)
               (World.depth world) + 8)%nat
  /\ (forall x y z : Z,
        world_is_valid_position world x y z = true ->
        world_save world
          !! (12 + Z.to_nat ((z * World.height world + y) * World.width world + x))%nat
        = Some (byte_of_Z (world_get_block world x y z)))
  /\ exists world',
       world_load true (world_save world) = Some world' /\
       World.width world' = World.width world /\
       World.height world' = World.height world /\
       World.depth world' = World.depth world /\
       World.blocks world' = World.blocks world /\
       World.time_of_day world' = World.time_of_day world /\
       World.sky_brightness world' = World.sky_brightness world.
Proof.
  intros Hfits. pose proof Hfits as (Hshape & _).
  pose proof (world_save_flat world Hshape) as Hflat.
  split; [exact Hflat|]. split; [|split].
  - rewrite Hflat. rewrite !length_app, length_fmap, shaped_length by done.
    unfold encode_int32, encode_float. rewrite !encode_uint32_length. lia.
  - intros x y z Hvalid. rewrite Hflat.
    rewrite !app_assoc, <- (app_assoc _ _ (encode_float _)), <- !app_assoc.
    rewrite (app_assoc (encode_int32 _)), (app_assoc (_ ++ _)).
    rewrite lookup_app_r by (rewrite !length_app; unfold encode_int32;
                             rewrite !encode_uint32_length; lia).
    rewrite !length_app. unfold encode_int32. rewrite !encode_uint32_length.
    replace (12 + _ - (4 + 4 + 4))%nat
      with (Z.to_nat ((z * World.height world + y) * World.width world + x)) by lia.
    rewrite lookup_app_l.
    + rewrite list_lookup_fmap, shaped_offset by done. done.
    + rewrite length_fmap. eapply lookup_lt_Some. by apply shaped_offset.
  - eexists. split; [by apply world_load_saved|]. simpl. done.
Qed.

Lemma take_drop_app {A : Type} (pre mid post : list A) (n k : nat) :
  length pre = n -> length mid = k -> take k (drop n (pre ++ mid ++ post)) = mid.
Proof.
  intros Hn Hk. rewrite drop_app_length' by done. by rewrite take_app_length'.
Qed.

(** What a successful load has read. *)
Lemma world_load_Some (mem_ok : bool) (file : list byte) (world : World) :
  world_load mem_ok file = Some world ->
  exists (b1 b2 b3 bs b4 b5 rest : list byte),
    file = b1 ++ b2 ++ b3 ++ bs ++ b4 ++ b5 ++ rest /\
    length b1 = 4%nat /\ length b2 = 4%nat /\ length b3 = 4%nat /\
    length bs = block_bytes (decode_int32 b1) (decode_int32 b2) (decode_int32 b3) /\
    length b4 = 4%nat /\ length b5 = 4%nat /\
    mem_ok = true /\
    World.width world = decode_int32 b1 /\
    World.height world = decode_int32 b2 /\
    World.depth world = decode_int32 b3 /\
    grid_shaped world /\
    mjoin (mjoin (World.blocks world)) = Z_of_byte <$> bs /\
    World.time_of_day world = decode_float b4 /\
    World.sky_brightness world = decode_float b5.
Proof.
  unfold world_load, fread_int, fread_float.
  destruct (fread 4 file) as [[b1 f1]|] eqn:E1; [|done]. bind_step.
  destruct (fread 4 f1) as [[b2 f2]|] eqn:E2; [|done]. bind_step.
  destruct (fread 4 f2) as [[b3 f3]|] eqn:E3; [|done]. bind_step.
  unfold world_create. destruct mem_ok; [|done]. cbv beta iota.
  simpl World.depth. simpl World.height. simpl World.width.
  simpl World.block_types. simpl World.num_block_types.
  destruct (fread_blocks _ _ _ f3) as [[blocks f4]|] eqn:E4; [|done]. bind_step.
  destruct (fread 4 f4) as [[b4 f5]|] eqn:E5; [|done]. bind_step.
  destruct (fread 4 f5) as [[b5 f6]|] eqn:E6; [|done]. bind_step.
  intros [= <-].
  apply fread_Some in E1 as [-> L1]. apply fread_Some in E2 as [-> L2].
  apply fread_Some in E3 as [-> L3]. apply fread_Some in E5 as [-> L5].
  apply fread_Some in E6 as [-> L6].
  apply fread_blocks_Some in E4 as (bs & -> & Lbs & Hj & Hn & Hall).
  exists b1, b2, b3, bs, b4, b5, f6. simpl.
  repeat split; try done.
Qed.

(** C7. [world_load] returns a world only when every read of the format
    has succeeded: the allocation, the three dimensions, depth x height
    x width block bytes and the two floats. The world returned is then
    complete: its grid has the size of its dimensions and every cell and
    both scalars come from the file. Whenever the file is shorter than
    the format asks for, given the dimensions at its head, no world is
    returned. *)
Theorem load_needs_every_read (mem_ok : bool) (file : list byte) :
  (forall world : World,
     world_load mem_ok file = Some world ->
     let n := block_bytes (World.width world) (World.height world)
                (World.depth world) in
     mem_ok = true /\
     (World.width world, World.height world, World.depth world) = header file /\
     (12 + n + 8 <= length file)%nat /\
     grid_shaped world /\
     mjoin (mjoin (World.blocks world)) = Z_of_byte <$> take n (drop 12 file) /\
     World.time_of_day world = decode_float (take 4 (drop (12 + n) file)) /\
     World.sky_brightness world = decode_float (take 4 (drop (16 + n) file)))
  /\ (forall width height depth : Z,
        header file = (width, height, depth) ->
        (length file < 12 + block_bytes width height depth + 8)%nat ->
        world_load mem_ok file = None).
Proof.
  assert (Hsome : forall world : World,
     world_load mem_ok file = Some world ->
     let n := block_bytes (World.width world) (World.height world)
                (World.depth world) in
     mem_ok = true /\
     (World.width world, World.height world, World.depth world) = header file /\
     (12 + n + 8 <= length file)%nat /\
     grid_shaped world /\
     mjoin (mjoin (World.blocks world)) = Z_of_byte <$> take n (drop 12 file) /\
     World.time_of_day world = decode_float (take 4 (drop (12 + n) file)) /\
     World.sky_brightness world = decode_float (take 4 (drop (16 + n) file))).
  { intros world Hload n.
    apply world_load_Some in Hload
      as (b1 & b2 & b3 & bs & b4 & b5 & rest & -> & L1 & L2 & L3 & Lbs & L4 & L5
          & Hmem & Hw & Hh & Hd & Hshape & Hcells & Htod & Hsky).
    assert (Hn : length bs = n) by (unfold n; rewrite Hw, Hh, Hd; done).
    split; [done|]. split; [|split; [|split; [done|split; [|split]]]].
    - unfold header.
      rewrite (take_app_length' b1) by done.
      rewrite (take_drop_app b1 b2 _ 4 4) by done.
      replace (b1 ++ b2 ++ b3 ++ bs ++ b4 ++ b5 ++ rest)
        with ((b1 ++ b2) ++ b3 ++ bs ++ b4 ++ b5 ++ rest)
        by (by rewrite <- !app_assoc).
      rewrite (take_drop_app (b1 ++ b2) b3 _ 8 4)
        by (done || rewrite length_app; lia).
      congruence.
    - rewrite !length_app. lia.
    - replace (b1 ++ b2 ++ b3 ++ bs ++ b4 ++ b5 ++ rest)
        with ((b1 ++ b2 ++ b3) ++ bs ++ b4 ++ b5 ++ rest)
        by (by rewrite <- !app_assoc).
      rewrite (take_drop_app (b1 ++ b2 ++ b3) bs _ 12 n)
        by (done || rewrite !length_app; lia).
      done.
    - replace (b1 ++ b2 ++ b3 ++ bs ++ b4 ++ b5 ++ rest)
        with ((b1 ++ b2 ++ b3 ++ bs) ++ b4 ++ b5 ++ rest)
        by (by rewrite <- !app_assoc).
      rewrite (take_drop_app (b1 ++ b2 ++ b3 ++ bs) b4 _ (12 + n) 4)
        by (done || rewrite !length_app; lia).
      done.
    - replace (b1 ++ b2 ++ b3 ++ bs ++ b4 ++ b5 ++ rest)
        with ((b1 ++ b2 ++ b3 ++ bs ++ b4) ++ b5 ++ rest)
        by (by rewrite <- !app_assoc).
      rewrite (take_drop_app (b1 ++ b2 ++ b3 ++ bs ++ b4) b5 _ (16 + n) 4)
        by (done || rewrite !length_app; lia).
      done. }
  split; [exact Hsome|].
  intros width height depth Hhead Hshort.
  destruct (world_load mem_ok file) as [world|] eqn:Hload; [|done].
  destruct (Hsome world eq_refl) as (_ & Hdims & Hlen & _).
  rewrite Hhead in Hdims. injection Hdims as Hw Hh Hd.
  rewrite Hw, Hh, Hd in Hlen. lia.
Qed.

Lemma row_two_blocks_fits : world_fits_format row_two_blocks.
Proof.
  unfold world_fits_format, grid_shaped.
  change (World.blocks row_two_blocks) with [[[0; 0; 1; 1]]].
  change (World.width row_two_blocks) with 4.
  change (World.height row_two_blocks) with 1.
  change (World.depth row_two_blocks) with 1.
  repeat split; try lia; try (vm_compute; reflexivity);
    repeat constructor; lia.
Qed.

Lemma save_load_roundtrip_witness :
  world_fits_format row_two_blocks /\
  length (world_save row_two_blocks) = 24%nat /\
  world_save row_two_blocks !! 14%nat = Some (byte_of_Z BLOCK_DIRT) /\
  exists world',
    world_load true (world_save row_two_blocks) = Some world' /\
    World.blocks world' = World.blocks row_two_blocks /\
    World.sky_brightness world' = World.sky_brightness row_two_blocks.
Proof.
  destruct (save_load_roundtrip row_two_blocks row_two_blocks_fits)
    as (_ & Hlen & Hcell & world' & Hload & _ & _ & _ & Hblocks & _ & Hsky).
  split; [exact row_two_blocks_fits|]. split; [exact Hlen|].
  split; [exact (Hcell 2 0 0 eq_refl)|].
  exists world'. split; [exact Hload|]. split; [exact Hblocks|exact Hsky].
Defined.

(** A saved world cut after its first block bytes. *)
Lemma load_needs_every_read_witness :
  header (take 15 (world_save row_two_blocks)) = (4, 1, 1) /\
  (length (take 15 (world_save row_two_blocks)) < 12 + block_bytes 4 1 1 + 8)%nat /\
  world_load true (take 15 (world_save row_two_blocks)) = None.
Proof.
  assert (Hhead : header (take 15 (world_save row_two_blocks)) = (4, 1, 1))
    by (vm_compute; reflexivity).
  assert (Hshort : (length (take 15 (world_save row_two_blocks))
                    < 12 + block_bytes 4 1 1 + 8)%nat)
    by (vm_compute; lia).
  split; [exact Hhead|]. split; [exact Hshort|].
  destruct (load_needs_every_read true (take 15 (world_save row_two_blocks)))
    as [_ Hnone].
  exact (Hnone 4 1 1 Hhead Hshort).
Defined.

(** * Further properties of the grid *)

Lemma set_block_other (world : World) (x y z type x' y' z' : Z) :
  (x', y', z') <> (x, y, z) ->
  world_get_block (world_set_block world x y z type) x' y' z'
  = world_get_block world x' y' z'.
Proof.
  intros Hne. unfold world_get_block. rewrite set_block_valid.
  destruct (world_is_valid_position world x' y' z') eqn:Hv'; [|reflexivity].
  simpl. unfold world_set_block.
  destruct (world_is_valid_position world x y z) eqn:Hv; [|done].
  simpl. apply valid_position_spec in Hv, Hv'.
  unfold block_at, set_blocks. simpl.
  destruct (decide (z' = z)) as [->|Hz].
  - rewrite list_lookup_alter_eq.
    destruct (World.blocks world !! Z.to_nat z) as [plane|]; [|done]. simpl.
    destruct (decide (y' = y)) as [->|Hy].
    + rewrite list_lookup_alter_eq.
      destruct (plane !! Z.to_nat y) as [row|]; [|done]. simpl.
      rewrite list_lookup_insert_ne; [done|].
      intros Hx. apply Hne. f_equal. f_equal. lia.
    + rewrite list_lookup_alter_ne by lia. done.
  - rewrite list_lookup_alter_ne by lia. done.
Qed.

Lemma set_block_lookup (world : World) (x y z type x' y' z' : Z) :
  grid_shaped world ->
  world_get_block (world_set_block world x y z type) x' y' z'
  = if world_is_valid_position world x y z
       && bool_decide ((x', y', z') = (x, y, z))
    then type
    else world_get_block world x' y' z'.
Proof.
  intros Hshape.
  destruct (world_is_valid_position world x y z) eqn:Hv; simpl.
  - case_bool_decide as Heq.
    + injection Heq as -> -> ->. by apply get_set_block.
    + by apply set_block_other.
  - unfold world_set_block. by rewrite Hv.
Qed.

Lemma set_block_shaped (world : World) (x y z type : Z) :
  grid_shaped world -> grid_shaped (world_set_block world x y z type).
Proof.
  intros [Hd Hplanes]. unfold world_set_block.
  destruct (world_is_valid_position world x y z); simpl; [|done].
  split; simpl.
  - by rewrite length_alter.
  - apply Forall_alter; [done|]. intros plane _ [Hh Hrows]. split.
    + by rewrite length_alter.
    + apply Forall_alter; [done|]. intros row _ Hw. by rewrite length_insert.
Qed.

(** X1. Writing a block and reading the grid back: in a grid whose
    arrays have the sizes of its dimensions, the cell written, when it is
    inside the grid, holds the new type, and every other cell holds what
    it held. A write outside the grid changes no cell. The arrays keep
    their sizes and the positions inside the grid stay the same, so that
    the same holds for the next write. *)
Theorem get_after_set (world : World) (x y z type x' y' z' : Z) :
  grid_shaped world ->
  world_get_block (world_set_block world x y z type) x' y' z'
  = (if world_is_valid_position world x y z
        && bool_decide ((x', y', z') = (x, y, z))
     then type
     else world_get_block world x' y' z') /\
  grid_shaped (world_set_block world x y z type) /\
  world_is_valid_position (world_set_block world x y z type) x' y' z'
  = world_is_valid_position world x' y' z'.
Proof.
  intros Hshape. split; [by apply set_block_lookup|].
  split; [by apply set_block_shaped|]. apply set_block_valid.
Qed.

Lemma get_after_set_witness :
  grid_shaped row_one_block /\
  world_get_block (world_set_block row_one_block 1 0 0 BLOCK_WOOD) 1 0 0 = BLOCK_WOOD /\
  world_get_block (world_set_block row_one_block 1 0 0 BLOCK_WOOD) 2 0 0 = BLOCK_DIRT /\
  world_get_block (world_set_block row_one_block 4 0 0 BLOCK_WOOD) 2 0 0 = BLOCK_DIRT.
Proof.
  assert (Hshape : grid_shaped row_one_block) by (vm_compute; repeat constructor).
  split; [exact Hshape|].
  rewrite (proj1 (get_after_set row_one_block 1 0 0 BLOCK_WOOD 1 0 0 Hshape)).
  rewrite (proj1 (get_after_set row_one_block 1 0 0 BLOCK_WOOD 2 0 0 Hshape)).
  rewrite (proj1 (get_after_set row_one_block 4 0 0 BLOCK_WOOD 2 0 0 Hshape)).
  vm_compute. done.
Defined.

Lemma set_block_bytes (world : World) (x y z type : Z) :
  0 <= type < 256 ->
  Forall (Forall (Forall (fun cell => 0 <= cell < 256))) (World.blocks world) ->
  Forall (Forall (Forall (fun cell => 0 <= cell < 256)))
    (World.blocks (world_set_block world x y z type)).
Proof.
  intros Ht Hcells. unfold world_set_block.
  destruct (world_is_valid_position world x y z); simpl; [|done].
  apply Forall_alter; [done|]. intros plane _ Hplane.
  apply Forall_alter; [done|]. intros row _ Hrow.
  by apply Forall_insert.
Qed.

(** X2. A world that the file format can hold still is one after any
    write of a block type below 256, inside the grid or not: the write
    keeps the dimensions and the sizes of the arrays, every cell stays a
    byte, and neither the registry nor the lighting is touched. *)
Theorem set_block_fits_format (world : World) (x y z type : Z) :
  world_fits_format world ->
  0 <= type < 256 ->
  let world' := world_set_block world x y z type in
  world_fits_format world' /\
  (World.width world', World.height world', World.depth world')
  = (World.width world, World.height world, World.depth world) /\
  World.block_types world' = World.block_types world /\
  World.num_block_types world' = World.num_block_types world /\
  World.time_of_day world' = World.time_of_day world /\
  World.sky_brightness world' = World.sky_brightness world.
Proof.
  intros (Hshape & Hw & Hh & Hd & Hcells & Htod & Hsky) Ht world'.
  assert (Hdims :
    World.width world' = World.width world /\
    World.height world' = World.height world /\
    World.depth world' = World.depth world /\
    World.block_types world' = World.block_types world /\
    World.num_block_types world' = World.num_block_types world /\
    World.time_of_day world' = World.time_of_day world /\
    World.sky_brightness world' = World.sky_brightness world).
  { unfold world', world_set_block.
    by destruct (world_is_valid_position world x y z). }
  destruct Hdims as (Ew & Eh & Ed & Et & En & Etod & Esky).
  split; [|by rewrite Ew, Eh, Ed].
  unfold world_fits_format. rewrite Ew, Eh, Ed, Etod, Esky.
  repeat split; try done; try lia.
  - by apply set_block_shaped.
  - by apply set_block_shaped.
  - by apply set_block_bytes.
Qed.

Lemma set_block_fits_format_witness :
  world_fits_format row_two_blocks /\
  world_fits_format (world_set_block row_two_blocks 0 0 0 BLOCK_BRICK).
Proof.
  split; [exact row_two_blocks_fits|].
  apply (set_block_fits_format row_two_blocks 0 0 0 BLOCK_BRICK row_two_blocks_fits).
  vm_compute. split; [discriminate|reflexivity].
Defined.

Lemma fresh_world_shaped (width height depth : Z) :
  grid_shaped (fresh_world width height depth).
Proof.
  split; simpl.
  - by rewrite length_replicate.
  - apply Forall_replicate. split.
    + by rewrite length_replicate.
    + apply Forall_replicate. by rewrite length_replicate.
Qed.

Lemma fresh_world_block_at (width height depth x y z : Z) :
  block_at (fresh_world width height depth) x y z = BLOCK_AIR.
Proof.
  unfold block_at. simpl.
  destruct (replicate _ _ !! Z.to_nat z) as [plane|] eqn:Hp; [|done].
  apply lookup_replicate in Hp as [-> _]. simpl.
  destruct (replicate _ _ !! Z.to_nat y) as [row|] eqn:Hr; [|done].
  apply lookup_replicate in Hr as [-> _]. simpl.
  destruct (replicate _ _ !! Z.to_nat x) as [cell|] eqn:Hc; [|done].
  by apply lookup_replicate in Hc as [-> _].
Qed.

(** X3. [world_create] returns no world when an allocation fails, and
    otherwise a world of the dimensions asked for whose arrays have these
    sizes and in which every position reads as air and is not solid.
    Initialising its registry again, as [game_init] does, changes
    nothing. *)
Theorem created_world_is_air (width height depth x y z : Z) :
  world_create false width height depth = None /\
  exists world : World,
    world_create true width height depth = Some world /\
    (World.width world, World.height world, World.depth world)
    = (width, height, depth) /\
    grid_shaped world /\
    world_get_block world x y z = BLOCK_AIR /\
    world_is_solid world x y z = 0 /\
    world_init_block_types true world = world.
Proof.
  split; [done|]. exists (fresh_world width height depth).
  split; [done|]. split; [done|]. split; [apply fresh_world_shaped|].
  split; [|split; [|done]].
  - unfold world_get_block.
    destruct (world_is_valid_position _ x y z); [|done].
    apply fresh_world_block_at.
  - unfold world_is_solid.
    destruct (world_is_valid_position _ x y z); [|done]. simpl negb. cbv iota.
    rewrite fresh_world_block_at. reflexivity.
Qed.

(** X4. With a registry whose entry 0 (air) is not solid,
    [world_is_solid] is the [solid] flag of the type that
    [world_get_block_type] gives for the block [world_get_block] reads:
    outside the grid and for a block id the registry does not have, both
    fall back to air. *)
Theorem solid_is_flag_of_type (world : World) (x y z : Z) :
  solid (world_get_block_type (Some world) BLOCK_AIR) = 0 ->
  world_is_solid world x y z
  = solid (world_get_block_type (Some world) (world_get_block world x y z)).
Proof.
  intros Hair. unfold world_is_solid, world_get_block.
  destruct (world_is_valid_position world x y z); simpl negb; cbv iota;
    [|by rewrite Hair].
  unfold world_get_block_type in *. cbv zeta in *.
  change BLOCK_AIR with 0 in *.
  destruct (World.num_block_types world <=? block_at world x y z) eqn:Hn.
  - destruct (World.num_block_types world <=? 0); by rewrite Hair.
  - by destruct (World.block_types world !! Z.to_nat (block_at world x y z)).
Qed.

Lemma solid_is_flag_of_type_witness :
  solid (world_get_block_type (Some row_two_blocks) BLOCK_AIR) = 0 /\
  world_is_solid row_two_blocks 2 0 0
  = solid (world_get_block_type (Some row_two_blocks)
             (world_get_block row_two_blocks 2 0 0)) /\
  world_is_solid row_two_blocks 2 0 0 = 1.
Proof.
  split; [reflexivity|]. split; [|reflexivity].
  apply (solid_is_flag_of_type row_two_blocks 2 0 0). reflexivity.
Defined.

(** * Further properties of the raycaster *)

Lemma axis_setup_ok (dir pos : float) (map : Z) :
  axis_ok (axis_setup dir pos map).2 (axis_setup dir pos map).1.2.
Proof.
  unfold axis_setup, axis_ok.
  destruct (dir =? F32.zero)%flt; [by right; right|].
  destruct (F32.zero <? dir)%flt; [by left|by right; left].
Qed.

Lemma dda_init_ok (position direction : Vector3) :
  dda_ok (dda_init position direction).1 (dda_init position direction).2.
Proof.
  unfold dda_init, dda_ok.
  set (d := vec3_normalize direction).
  pose proof (axis_setup_ok (v_x d) (v_x position) (floor_int (v_x position))) as Hx.
  pose proof (axis_setup_ok (v_y d) (v_y position) (floor_int (v_y position))) as Hy.
  pose proof (axis_setup_ok (v_z d) (v_z position) (floor_int (v_z position))) as Hz.
  destruct (axis_setup (v_x d) _ _) as [[? ?] ?].
  destruct (axis_setup (v_y d) _ _) as [[? ?] ?].
  destruct (axis_setup (v_z d) _ _) as [[? ?] ?].
  done.
Qed.

Lemma in_bounds_spec (world : World) (st : Dda) :
  out_of_bounds world st = false <->
  0 <= map_x st < World.width world /\ 0 <= map_y st < World.height world
  /\ 0 <= map_z st < World.depth world.
Proof.
  unfold out_of_bounds. rewrite !orb_false_iff, !Z.ltb_ge, !Z.leb_gt. lia.
Qed.

Lemma steps_left_bounds (world : World) (c : DdaStep) (st : Dda) :
  out_of_bounds world st = false ->
  0 <= steps_left world c st
  <= World.width world + World.height world + World.depth world.
Proof.
  rewrite in_bounds_spec. intros (Hx & Hy & Hz).
  unfold steps_left, cells_left.
  repeat match goal with |- context [?a =? ?b] => destruct (Z.eqb_spec a b) end;
    lia.
Qed.

(** One iteration that stays inside the grid either steps along an axis
    that moves, one cell closer to the boundary, or along an axis that
    does not, to the distance 1e30f. *)
Lemma dda_advance_progress (world : World) (c : DdaStep) (st : Dda) :
  dda_ok c st ->
  out_of_bounds world (dda_advance c st) = false ->
  dda_distance (dda_advance c st) = F32.of_Z (10 ^ 30) \/
  (dda_ok c (dda_advance c st) /\
   (out_of_bounds world st = false ->
    steps_left world c (dda_advance c st) = steps_left world c st - 1)).
Proof.
  intros (Hx & Hy & Hz). rewrite !in_bounds_spec.
  unfold dda_advance, dda_ok, steps_left, cells_left.
  destruct (dda_select _ _ _); simpl; intros Hin.
  - destruct Hx as [Hx|[Hx|[Hx ->]]]; [right|right|by left];
      rewrite Hx; (split; [repeat split; first [done | (by left) | (by (right; left))]|]);
      simpl; lia.
  - destruct Hy as [Hy|[Hy|[Hy ->]]]; [right|right|by left];
      rewrite Hy; (split; [repeat split; first [done | (by left) | (by (right; left))]|]);
      simpl; lia.
  - destruct Hz as [Hz|[Hz|[Hz ->]]]; [right|right|by left];
      rewrite Hz; (split; [repeat split; first [done | (by left) | (by (right; left))]|]);
      simpl; lia.
Qed.

Section Termination.
Context `{Utils}.
Variable world : World.
Variables ray_pos ray_dir : Vector3.
Variable max_distance : float.
Variable c : DdaStep.
Hypothesis Hmax : F32.ltb (F32.of_Z (10 ^ 30)) max_distance = false.

Lemma dda_loop_far (fuel : nat) (st : Dda) :
  dda_distance st = F32.of_Z (10 ^ 30) ->
  dda_loop world ray_pos ray_dir max_distance c (S fuel) st
  = Some (ray_miss max_distance).
Proof. intros Hd. simpl. by rewrite Hd, Hmax. Qed.

Lemma dda_loop_inside (n : nat) :
  forall (st : Dda) (fuel : nat),
    dda_ok c st ->
    out_of_bounds world st = false ->
    steps_left world c st <= Z.of_nat n ->
    (n + 2 <= fuel)%nat ->
    is_Some (dda_loop world ray_pos ray_dir max_distance c fuel st).
Proof.
  induction n as [|n IH]; intros st fuel Hok Hin Hleft Hfuel;
    (destruct fuel as [|fuel]; [lia|]); simpl;
    (destruct (dda_distance st <? max_distance)%flt; [|done]);
    (destruct (out_of_bounds world (dda_advance c st)) eqn:Hin'; [done|]);
    (destruct (negb _); [done|]);
    destruct (dda_advance_progress world c st Hok Hin') as [Hfar|[Hok' Hstep]].
  - destruct fuel as [|fuel]; [lia|]. by rewrite dda_loop_far.
  - pose proof (steps_left_bounds world c _ Hin'). specialize (Hstep Hin). lia.
  - destruct fuel as [|fuel]; [lia|]. by rewrite dda_loop_far.
  - apply IH; [done|done| |lia]. specialize (Hstep Hin). lia.
Qed.

Lemma dda_loop_returns (st : Dda) (fuel : nat) :
  dda_ok c st ->
  (cast_ray_fuel world <= fuel)%nat ->
  is_Some (dda_loop world ray_pos ray_dir max_distance c fuel st).
Proof.
  unfold cast_ray_fuel. intros Hok Hfuel.
  destruct fuel as [|fuel]; [lia|]. simpl.
  destruct (dda_distance st <? max_distance)%flt; [|done].
  destruct (out_of_bounds world (dda_advance c st)) eqn:Hin'; [done|].
  destruct (negb _); [done|].
  destruct (dda_advance_progress world c st Hok Hin') as [Hfar|[Hok' _]].
  - destruct fuel as [|fuel]; [lia|]. by rewrite dda_loop_far.
  - pose proof (steps_left_bounds world c _ Hin').
    apply (dda_loop_inside
             (Z.to_nat (World.width world + World.height world + World.depth world)));
      [done|done|lia|lia].
Qed.

(** More iterations than a traversal needs do not change its result. *)
Lemma dda_loop_more (fuel : nat) :
  forall (st : Dda) (hit : RayHit) (fuel' : nat),
    dda_loop world ray_pos ray_dir max_distance c fuel st = Some hit ->
    (fuel <= fuel')%nat ->
    dda_loop world ray_pos ray_dir max_distance c fuel' st = Some hit.
Proof.
  induction fuel as [|fuel IH]; intros st hit fuel' Hhit Hle; [done|].
  destruct fuel' as [|fuel']; [lia|]. simpl in *.
  destruct (dda_distance st <? max_distance)%flt; [|done].
  destruct (out_of_bounds world (dda_advance c st)); [done|].
  destruct (negb _); [done|].
  apply IH; [done|lia].
Qed.
End Termination.

Lemma cast_ray_complete `{Utils} (world : World) (position direction : Vector3)
    (max_distance : float) :
  F32.ltb (F32.of_Z (10 ^ 30)) max_distance = false ->
  exists hit : RayHit,
    forall fuel : nat,
      (cast_ray_fuel world <= fuel)%nat ->
      cast_ray fuel world position direction max_distance = Some hit.
Proof.
  intros Hmax. unfold cast_ray.
  pose proof (dda_init_ok position direction) as Hok.
  destruct (dda_init position direction) as [c st]. simpl in Hok.
  destruct (dda_loop_returns world position (vec3_normalize direction)
              max_distance c Hmax st (cast_ray_fuel world) Hok (le_n _))
    as [hit Hhit].
  exists hit. intros fuel Hfuel.
  by apply (dda_loop_more world position (vec3_normalize direction)
              max_distance c (cast_ray_fuel world)).
Qed.

(** X5. The traversal ends. For a maximum distance of at most 1e30f (or
    a NaN), [cast_ray] returns within width + height + depth + 3
    iterations of its loop, wherever the ray starts and whatever its
    direction is; and what it returns does not depend on the number of
    iterations allowed, be it more or fewer. *)
Theorem cast_ray_returns `{Utils} (world : World) (position direction : Vector3)
    (max_distance : float) :
  F32.ltb (F32.of_Z (10 ^ 30)) max_distance = false ->
  exists hit : RayHit,
    (forall fuel : nat,
       (cast_ray_fuel world <= fuel)%nat ->
       cast_ray fuel world position direction max_distance = Some hit) /\
    (forall (fuel : nat) (hit' : RayHit),
       cast_ray fuel world position direction max_distance = Some hit' ->
       hit' = hit).
Proof.
  intros Hmax.
  destruct (cast_ray_complete world position direction max_distance Hmax)
    as [hit Hhit].
  exists hit. split; [exact Hhit|]. intros fuel hit' Hhit'.
  specialize (Hhit (fuel + cast_ray_fuel world)%nat ltac:(lia)).
  unfold cast_ray in *. destruct (dda_init position direction) as [c st].
  rewrite (dda_loop_more world position (vec3_normalize direction) max_distance c
             fuel st hit' (fuel + cast_ray_fuel world) Hhit' ltac:(lia)) in Hhit.
  by injection Hhit.
Qed.

Lemma cast_ray_returns_witness :
  F32.ltb (F32.of_Z (10 ^ 30)) (F32.of_Z 5) = false /\
  exists hit : RayHit,
    (forall fuel : nat,
       (cast_ray_fuel row_one_block <= fuel)%nat ->
       @cast_ray utils_minmax fuel row_one_block row_end minus_x (F32.of_Z 5)
       = Some hit) /\
    (forall (fuel : nat) (hit' : RayHit),
       @cast_ray utils_minmax fuel row_one_block row_end minus_x (F32.of_Z 5)
       = Some hit' ->
       hit' = hit).
Proof.
  split; [vm_compute; reflexivity|].
  apply (@cast_ray_returns utils_minmax row_one_block row_end minus_x (F32.of_Z 5)).
  vm_compute; reflexivity.
Defined.

Lemma dda_advance_face (c : DdaStep) (st : Dda) :
  0 <= dda_face (dda_advance c st) <= 5.
Proof.
  unfold dda_advance. destruct (dda_select _ _ _); simpl;
    match goal with |- context [0 <? ?s] => destruct (0 <? s) end; lia.
Qed.

(** What the loop returns: a miss, or the hit of a cell inside the grid
    that is not air, entered by the last step. *)
Lemma dda_loop_result `{Utils} (world : World) (ray_pos ray_dir : Vector3)
    (max_distance : float) (c : DdaStep) (fuel : nat) :
  forall (st : Dda) (hit : RayHit),
    dda_loop world ray_pos ray_dir max_distance c fuel st = Some hit ->
    hit = ray_miss max_distance \/
    exists st' : Dda,
      out_of_bounds world st' = false /\
      world_get_block world (map_x st') (map_y st') (map_z st') <> BLOCK_AIR /\
      0 <= dda_face st' <= 5 /\
      hit = ray_hit world ray_pos ray_dir st'
              (world_get_block world (map_x st') (map_y st') (map_z st')).
Proof.
  induction fuel as [|fuel IH]; intros st hit; simpl; [done|].
  destruct (dda_distance st <? max_distance)%flt; [|by intros [= <-]; left].
  destruct (out_of_bounds world (dda_advance c st)) eqn:Hin;
    [by intros [= <-]; left|].
  destruct (world_get_block world _ _ _ =? BLOCK_AIR) eqn:Hair; simpl.
  - apply IH.
  - intros [= <-]. right. exists (dda_advance c st).
    split; [done|]. split; [by apply Z.eqb_neq|].
    split; [apply dda_advance_face|done].
Qed.

Lemma face_normal_lookup (face : Z) :
  0 <= face <= 5 ->
  face_normals !! Z.to_nat face
  = Some (default vec3_zero (face_normals !! Z.to_nat face)).
Proof.
  intros Hface.
  assert (Hcases : face = 0 \/ face = 1 \/ face = 2 \/ face = 3 \/ face = 4
                   \/ face = 5) by lia.
  destruct Hcases as [->|[->|[->|[->|[->| ->]]]]]; reflexivity.
Qed.

Lemma in_bounds_valid (world : World) (st : Dda) :
  out_of_bounds world st = false ->
  world_is_valid_position world (map_x st) (map_y st) (map_z st) = true.
Proof. rewrite in_bounds_spec. intros ?. by apply valid_position_spec. Qed.

(** X6. What a ray reports. For a maximum distance of at most 1e30f,
    [cast_ray] returns either the miss (no hit, the maximum distance as
    distance) or a hit whose block type is not air and is the block of a
    cell inside the grid, whose face is one of the six, whose normal is
    the entry of [face_normals] for that face, whose position is the
    origin plus the normalised direction times the distance, and whose
    brightness lies between 0.2 and 1. *)
Theorem cast_ray_reports `{Utils} `{!ClampSpec} (world : World)
    (position direction : Vector3) (max_distance : float) :
  F32.ltb (F32.of_Z (10 ^ 30)) max_distance = false ->
  exists hit : RayHit,
    (forall fuel : nat,
       (cast_ray_fuel world <= fuel)%nat ->
       cast_ray fuel world position direction max_distance = Some hit) /\
    (hit = ray_miss max_distance \/
     (RayHit.hit hit = 1 /\
      RayHit.block_type hit <> BLOCK_AIR /\
      (exists x y z : Z,
         world_is_valid_position world x y z = true /\
         world_get_block world x y z = RayHit.block_type hit) /\
      0 <= RayHit.face hit <= 5 /\
      face_normals !! Z.to_nat (RayHit.face hit) = Some (RayHit.normal hit) /\
      RayHit.position hit
      = vec3_add position
          (vec3_mul (vec3_normalize direction) (RayHit.distance hit)) /\
      F32.leb (F32.lit 2 10) (RayHit.brightness hit) = true /\
      F32.leb (RayHit.brightness hit) F32.one = true)).
Proof.
  intros Hmax.
  destruct (cast_ray_complete world position direction max_distance Hmax)
    as [hit Hhit].
  exists hit. split; [exact Hhit|].
  specialize (Hhit _ (le_n _)). unfold cast_ray in Hhit.
  destruct (dda_init position direction) as [c st].
  apply dda_loop_result in Hhit as [->|(st' & Hin & Hair & Hface & ->)];
    [by left|right].
  simpl. split; [done|]. split; [done|].
  split; [by exists (map_x st'), (map_y st'), (map_z st'); split;
            [apply in_bounds_valid|]|].
  split; [done|]. split; [by apply face_normal_lookup|]. split; [done|].
  by apply clamp_range.
Qed.

Lemma cast_ray_reports_witness :
  F32.ltb (F32.of_Z (10 ^ 30)) (F32.of_Z 5) = false /\
  exists hit : RayHit,
    (forall fuel : nat,
       (cast_ray_fuel row_one_block <= fuel)%nat ->
       @cast_ray utils_minmax fuel row_one_block cell_centre
         (vec3_create F32.one F32.zero F32.zero) (F32.of_Z 5) = Some hit) /\
    (hit = ray_miss (F32.of_Z 5) \/
     (RayHit.hit hit = 1 /\
      RayHit.block_type hit <> BLOCK_AIR /\
      (exists x y z : Z,
         world_is_valid_position row_one_block x y z = true /\
         world_get_block row_one_block x y z = RayHit.block_type hit) /\
      0 <= RayHit.face hit <= 5 /\
      face_normals !! Z.to_nat (RayHit.face hit) = Some (RayHit.normal hit) /\
      RayHit.position hit
      = vec3_add cell_centre
          (vec3_mul (vec3_normalize (vec3_create F32.one F32.zero F32.zero))
             (RayHit.distance hit)) /\
      F32.leb (F32.lit 2 10) (RayHit.brightness hit) = true /\
      F32.leb (RayHit.brightness hit) F32.one = true)).
Proof.
  split; [vm_compute; reflexivity|].
  apply (@cast_ray_reports utils_minmax utils_minmax_range row_one_block
           cell_centre (vec3_create F32.one F32.zero F32.zero) (F32.of_Z 5)).
  vm_compute; reflexivity.
Defined.

(** X7. In a grid where every cell reads as air, every ray of at most
    1e30f misses, and the distance reported is the maximum distance. *)
Theorem cast_ray_all_air `{Utils} (world : World) (position direction : Vector3)
    (max_distance : float) (fuel : nat) :
  (forall x y z : Z, world_get_block world x y z = BLOCK_AIR) ->
  F32.ltb (F32.of_Z (10 ^ 30)) max_distance = false ->
  (cast_ray_fuel world <= fuel)%nat ->
  cast_ray fuel world position direction max_distance
  = Some (ray_miss max_distance)
  /\ RayHit.hit (ray_miss max_distance) = 0
  /\ RayHit.distance (ray_miss max_distance) = max_distance.
Proof.
  intros Hair Hmax Hfuel. split; [|split; reflexivity].
  destruct (cast_ray_complete world position direction max_distance Hmax)
    as [hit Hhit].
  specialize (Hhit _ Hfuel). rewrite Hhit. f_equal.
  unfold cast_ray in Hhit. destruct (dda_init position direction) as [c st].
  apply dda_loop_result in Hhit as [->|(st' & _ & Hsolid & _)]; [reflexivity|].
  rewrite Hair in Hsolid. exfalso. apply Hsolid. reflexivity.
Qed.

Lemma cast_ray_all_air_witness :
  (forall x y z : Z, world_get_block (fresh_world 4 4 4) x y z = BLOCK_AIR) /\
  F32.ltb (F32.of_Z (10 ^ 30)) (F32.of_Z 20) = false /\
  (cast_ray_fuel (fresh_world 4 4 4) <= 15)%nat /\
  @cast_ray utils_minmax 15 (fresh_world 4 4 4) cell_centre diagonal (F32.of_Z 20)
  = Some (ray_miss (F32.of_Z 20)).
Proof.
  assert (Hair : forall x y z : Z,
             world_get_block (fresh_world 4 4 4) x y z = BLOCK_AIR).
  { intros x y z. unfold world_get_block.
    destruct (world_is_valid_position _ x y z); [|done].
    apply fresh_world_block_at. }
  assert (Hfuel : (cast_ray_fuel (fresh_world 4 4 4) <= 15)%nat)
    by (vm_compute; lia).
  split; [exact Hair|]. split; [vm_compute; reflexivity|]. split; [exact Hfuel|].
  apply (@cast_ray_all_air utils_minmax (fresh_world 4 4 4) cell_centre diagonal
           (F32.of_Z 20) 15 Hair); [vm_compute; reflexivity|exact Hfuel].
Defined.

(** * Further properties of the player *)

(** ** Grids of registered block types *)

Lemma block_at_below (n : Z) (world : World) (x y z : Z) :
  0 < n -> block_ids_below n world -> 0 <= block_at world x y z < n.
Proof.
  intros Hn Hids. unfold block_at.
  destruct (World.blocks world !! Z.to_nat z) as [plane|] eqn:Hp; simpl; [|lia].
  destruct (plane !! Z.to_nat y) as [row|] eqn:Hr; simpl; [|lia].
  destruct (row !! Z.to_nat x) as [cell|] eqn:Hc; simpl; [|lia].
  pose proof (Forall_lookup_1 _ _ _ _ Hids Hp) as Hplane.
  pose proof (Forall_lookup_1 _ _ _ _ Hplane Hr) as Hrow.
  exact (Forall_lookup_1 _ _ _ _ Hrow Hc).
Qed.

Lemma get_block_below (n : Z) (world : World) (x y z : Z) :
  0 < n -> block_ids_below n world -> 0 <= world_get_block world x y z < n.
Proof.
  intros Hn Hids. unfold world_get_block.
  destruct (negb _); [unfold BLOCK_AIR; lia|by apply block_at_below].
Qed.

Lemma set_block_below (n : Z) (world : World) (x y z type : Z) :
  0 <= type < n -> block_ids_below n world ->
  block_ids_below n (world_set_block world x y z type).
Proof.
  intros Ht Hcells. unfold block_ids_below, world_set_block.
  destruct (world_is_valid_position world x y z); simpl; [|done].
  apply Forall_alter; [done|]. intros plane _ Hplane.
  apply Forall_alter; [done|]. intros row _ Hrow.
  by apply Forall_insert.
Qed.

Lemma inventory_get_set_other (player : Player) (i j count : Z) :
  0 <= i -> 0 <= j -> i <> j ->
  inventory_get (inventory_set player i count) j = inventory_get player j.
Proof.
  intros Hi Hj Hne. unfold inventory_get, inventory_set; simpl.
  rewrite list_lookup_insert_ne by lia. done.
Qed.


Section Actions.
Context `{Libm} `{Utils}.

Lemma interaction_ray_complete (player : Player) (world : World) :
  exists hit : RayHit,
    forall fuel : nat,
      (cast_ray_fuel world <= fuel)%nat ->
      interaction_ray fuel player world = Some hit.
Proof.
  apply cast_ray_complete. vm_compute. reflexivity.
Qed.

(** The two actions, by the cell they aim at. *)
Lemma break_block_cases (fuel : nat) (player : Player) (world : World)
    (hit : RayHit) :
  interaction_ray fuel player world = Some hit ->
  player_break_block fuel player world
  = Some (if RayHit.hit hit =? 0 then (player, world)
          else
            let '(x, y, z) := break_target hit in
            let block_type := world_get_block world x y z in
            (inventory_set player block_type
               (uint8 (inventory_get player block_type + 1)),
             world_set_block world x y z BLOCK_AIR)).
Proof.
  intros Hhit. unfold player_break_block. rewrite Hhit. bind_step.
  destruct (RayHit.hit hit =? 0); simpl negb; cbv iota; [done|].
  by destruct (break_target hit) as [[x y] z].
Qed.

Lemma place_block_cases (fuel : nat) (player : Player) (world : World)
    (block_type : Z) (hit : RayHit) :
  interaction_ray fuel player world = Some hit ->
  player_place_block fuel player world block_type
  = Some (let '(x, y, z) := place_target hit in
          if negb (RayHit.hit hit =? 0) && world_is_valid_position world x y z
             && (0 <? inventory_get player block_type)
          then (inventory_set player block_type
                  (uint8 (inventory_get player block_type - 1)),
                world_set_block world x y z block_type)
          else (player, world)).
Proof.
  intros Hhit. unfold player_place_block. rewrite Hhit. bind_step.
  destruct (place_target hit) as [[x y] z].
  destruct (RayHit.hit hit =? 0); simpl negb; cbv iota; [done|].
  destruct (world_is_valid_position world x y z); [|done].
  by destruct (0 <? inventory_get player block_type).
Qed.

(** X8. A break action in a grid of registered block types (every id
    below [MAX_BLOCK_TYPES], the size of the inventory array) always
    completes. When the ray misses nothing changes. When it hits, the
    count of the id b that the cell of the hit point holds rises by one
    modulo 256, b being an index of the inventory, and no other count
    changes; that cell reads as air afterwards and every other cell reads
    as it did. The player stands and looks as before and keeps the slot
    selected; the inventory keeps its size and the grid its shape and its
    registered ids. *)
Theorem break_clears_one_cell (fuel : nat) (player : Player) (world : World) :
  grid_shaped world ->
  block_ids_below MAX_BLOCK_TYPES world ->
  length (Player.inventory player) = Z.to_nat MAX_BLOCK_TYPES ->
  (cast_ray_fuel world <= fuel)%nat ->
  exists (hit : RayHit) (player' : Player) (world' : World),
    interaction_ray fuel player world = Some hit /\
    player_break_block fuel player world = Some (player', world') /\
    (RayHit.hit hit = 0 -> player' = player /\ world' = world) /\
    (RayHit.hit hit <> 0 ->
     forall x y z : Z,
       break_target hit = (x, y, z) ->
       let b := world_get_block world x y z in
       0 <= b < MAX_BLOCK_TYPES /\
       inventory_get player' b = (inventory_get player b + 1) mod 256 /\
       (forall i : Z,
          0 <= i -> i <> b -> inventory_get player' i = inventory_get player i) /\
       forall x' y' z' : Z,
         world_get_block world' x' y' z'
         = if bool_decide ((x', y', z') = (x, y, z)) then BLOCK_AIR
           else world_get_block world x' y' z') /\
    grid_shaped world' /\
    block_ids_below MAX_BLOCK_TYPES world' /\
    same_pose player player' /\
    Player.selected_slot player' = Player.selected_slot player /\
    length (Player.inventory player') = length (Player.inventory player).
Proof.
  intros Hshape Hids Hlen Hfuel.
  destruct (interaction_ray_complete player world) as [hit Hhit].
  specialize (Hhit fuel Hfuel). exists hit.
  rewrite (break_block_cases fuel player world hit Hhit).
  destruct (Z.eqb_spec (RayHit.hit hit) 0) as [Hmiss|Hhit1].
  { exists player, world. do 2 (split; [done|]). split; [done|]. done. }
  destruct (break_target hit) as [[x y] z].
  eexists _, _. split; [done|]. split; [done|]. split; [done|].
  split; [|split; [by apply set_block_shaped|split;
    [by apply set_block_below|split; [done|split; [done|]]]]].
  - intros _ x0 y0 z0 [= <- <- <-] b.
    pose proof (get_block_below MAX_BLOCK_TYPES world x y z eq_refl Hids) as Hb.
    fold b in Hb. split; [done|].
    split; [|split].
    + rewrite inventory_get_set; [done|]. rewrite Hlen. unfold MAX_BLOCK_TYPES in *. lia.
    + intros i Hi Hne. apply inventory_get_set_other; [lia|done|done].
    + intros x' y' z'. rewrite set_block_lookup by done.
      case_bool_decide as Heq.
      * rewrite andb_true_r.
        destruct (world_is_valid_position world x y z) eqn:Hv; [done|].
        injection Heq as -> -> ->. unfold world_get_block. by rewrite Hv.
      * by rewrite andb_false_r.
  - apply inventory_set_length.
Qed.
(** X9. A place action always completes. Either nothing changes, or the
    stock of the block type was positive and is one less afterwards, and
    one cell inside the grid now holds the block type while every other
    cell reads as it did; in particular nothing is placed from an empty
    stock. *)
Theorem place_sets_one_cell (fuel : nat) (player : Player) (world : World)
    (block_type : Z) :
  grid_shaped world ->
  (cast_ray_fuel world <= fuel)%nat ->
  (Z.to_nat block_type < length (Player.inventory player))%nat ->
  0 <= inventory_get player block_type < 256 ->
  exists (player' : Player) (world' : World),
    player_place_block fuel player world block_type = Some (player', world') /\
    ((player' = player /\ world' = world) \/
     (0 < inventory_get player block_type /\
      inventory_get player' block_type = inventory_get player block_type - 1 /\
      exists x y z : Z,
        world_is_valid_position world x y z = true /\
        forall x' y' z' : Z,
          world_get_block world' x' y' z'
          = if bool_decide ((x', y', z') = (x, y, z)) then block_type
            else world_get_block world x' y' z')) /\
    (inventory_get player block_type = 0 -> player' = player /\ world' = world) /\
    same_pose player player' /\
    grid_shaped world'.
Proof.
  intros Hshape Hfuel Hidx Hcount.
  destruct (interaction_ray_complete player world) as [hit Hhit].
  specialize (Hhit fuel Hfuel).
  rewrite (place_block_cases fuel player world block_type hit Hhit).
  destruct (place_target hit) as [[x y] z].
  destruct (negb (RayHit.hit hit =? 0)); simpl andb;
    [|by eexists _, _; split; [done|]; split; [left|]].
  destruct (world_is_valid_position world x y z) eqn:Hv; simpl andb;
    [|by eexists _, _; split; [done|]; split; [left|]].
  destruct (Z.ltb_spec 0 (inventory_get player block_type)) as [Hpos|Hzero];
    [|by eexists _, _; split; [done|]; split; [left|]].
  eexists _, _. split; [done|]. split; [right|split; [lia|split; [done|]]].
  - split; [done|]. split.
    + rewrite inventory_get_set by done. apply uint8_small. lia.
    + exists x, y, z. split; [done|]. intros x' y' z'.
      rewrite set_block_lookup by done. by rewrite Hv.
  - by apply set_block_shaped.
Qed.

Lemma select_keys_slot (pressed : Z -> bool) (keys : list Z) :
  forall player : Player,
    Forall (fun i => 1 <= i <= 9) keys ->
    let player' :=
      foldl (fun player i =>
               if pressed (KEY_0 + i) then player_select_slot player i
               else player) player keys in
    Player.selected_slot player'
    = foldl (fun slot i => if pressed (KEY_0 + i) then i else slot)
        (Player.selected_slot player) keys /\
    same_pose player player' /\
    Player.inventory player' = Player.inventory player.
Proof.
  induction keys as [|i keys IH]; intros player Hkeys; [done|].
  inversion_clear Hkeys as [|? ? Hi Hkeys']. simpl.
  destruct (pressed (KEY_0 + i)); [|by apply IH].
  destruct (IH (player_select_slot player i) Hkeys') as (-> & Hpose & ->).
  unfold player_select_slot in *.
  replace ((1 <=? i) && (i <=? 9)) with true in * by lia.
  done.
Qed.

(** X10. The block keys of a frame. In a grid of registered block types
    (every id below [MAX_BLOCK_TYPES], the size of the inventory array)
    and with a slot between 1 and 9 selected, the part of
    [game_process_input] that places, breaks and selects always completes,
    and leaves a slot between 1 and 9 selected: the one of the highest
    digit key pressed, or the one selected before when no digit key is
    pressed. With neither [e] nor [r] pressed the grid and the inventory
    are as before. The player stands and looks as before, the inventory
    keeps its size and the grid its dimensions, the sizes of its arrays
    and its registered ids. *)
Theorem block_keys_keep_slot (fuel : nat) (pressed : Z -> bool)
    (player : Player) (world : World) :
  grid_shaped world ->
  block_ids_below MAX_BLOCK_TYPES world ->
  length (Player.inventory player) = Z.to_nat MAX_BLOCK_TYPES ->
  (cast_ray_fuel world <= fuel)%nat ->
  1 <= Player.selected_slot player <= 9 ->
  exists (player' : Player) (world' : World),
    game_process_input_blocks fuel pressed player world = Some (player', world') /\
    1 <= Player.selected_slot player' <= 9 /\
    (forall i : Z,
       1 <= i <= 9 -> pressed (KEY_0 + i) = true ->
       (forall j : Z, i < j <= 9 -> pressed (KEY_0 + j) = false) ->
       Player.selected_slot player' = i) /\
    ((forall i : Z, 1 <= i <= 9 -> pressed (KEY_0 + i) = false) ->
     Player.selected_slot player' = Player.selected_slot player) /\
    (pressed KEY_e = false -> pressed KEY_r = false ->
     world' = world /\ Player.inventory player' = Player.inventory player) /\
    same_pose player player' /\
    length (Player.inventory player') = length (Player.inventory player) /\
    grid_shaped world' /\
    block_ids_below MAX_BLOCK_TYPES world' /\
    (World.width world', World.height world', World.depth world')
    = (World.width world, World.height world, World.depth world).
Proof.
  intros Hshape Hids Hlen Hfuel Hslot. unfold game_process_input_blocks.
  (* the place action *)
  assert (Hplace : exists player1 world1,
    (if pressed KEY_e
     then player_place_block fuel player world (uint8 (Player.selected_slot player))
     else Some (player, world)) = Some (player1, world1) /\
    Player.selected_slot player1 = Player.selected_slot player /\
    same_pose player player1 /\
    length (Player.inventory player1) = length (Player.inventory player) /\
    grid_shaped world1 /\
    block_ids_below MAX_BLOCK_TYPES world1 /\
    (pressed KEY_e = false -> world1 = world /\ player1 = player) /\
    (World.width world1, World.height world1, World.depth world1)
    = (World.width world, World.height world, World.depth world)).
  { destruct (pressed KEY_e); [|by eexists _, _].
    destruct (interaction_ray_complete player world) as [hit Hhit].
    rewrite (place_block_cases fuel player world _ hit (Hhit fuel Hfuel)).
    destruct (place_target hit) as [[x y] z].
    destruct (_ && _); [|by eexists _, _].
    eexists _, _. split; [done|]. split; [done|]. split; [done|].
    split; [apply inventory_set_length|].
    split; [by apply set_block_shaped|].
    split; [apply set_block_below;
            [rewrite uint8_small by lia; unfold MAX_BLOCK_TYPES; lia|done]|].
    split; [done|].
    unfold world_set_block. by destruct (world_is_valid_position world x y z). }
  destruct Hplace
    as (player1 & world1 & -> & Hslot1 & Hpose1 & Hlen1 & Hshape1 & Hids1 & Hsame1
        & Hdims1).
  bind_step.
  (* the break action *)
  assert (Hfuel1 : (cast_ray_fuel world1 <= fuel)%nat).
  { unfold cast_ray_fuel in *. injection Hdims1 as -> -> ->. done. }
  assert (Hbreak : exists player2 world2,
    (if pressed KEY_r then player_break_block fuel player1 world1
     else Some (player1, world1)) = Some (player2, world2) /\
    Player.selected_slot player2 = Player.selected_slot player1 /\
    same_pose player1 player2 /\
    length (Player.inventory player2) = length (Player.inventory player1) /\
    grid_shaped world2 /\
    block_ids_below MAX_BLOCK_TYPES world2 /\
    (pressed KEY_r = false -> world2 = world1 /\ player2 = player1) /\
    (World.width world2, World.height world2, World.depth world2)
    = (World.width world1, World.height world1, World.depth world1)).
  { destruct (pressed KEY_r); [|by eexists _, _].
    destruct (interaction_ray_complete player1 world1) as [hit Hhit].
    rewrite (break_block_cases fuel player1 world1 hit (Hhit fuel Hfuel1)).
    destruct (RayHit.hit hit =? 0); [by eexists _, _|].
    destruct (break_target hit) as [[x y] z].
    eexists _, _. split; [done|]. split; [done|]. split; [done|].
    split; [apply inventory_set_length|].
    split; [by apply set_block_shaped|].
    split; [by apply set_block_below|].
    split; [done|].
    unfold world_set_block. by destruct (world_is_valid_position world1 x y z). }
  destruct Hbreak
    as (player2 & world2 & -> & Hslot2 & Hpose2 & Hlen2 & Hshape2 & Hids2 & Hsame2
        & Hdims2).
  bind_step.
  (* the digit keys *)
  assert (Hkeys : Forall (fun i => 1 <= i <= 9) (seqZ 1 9)).
  { apply Forall_seqZ. intros; lia. }
  destruct (select_keys_slot pressed (seqZ 1 9) player2 Hkeys)
    as (Hsel & Hpose3 & Hinv3).
  eexists _, _. split; [done|].
  rewrite Hsel, Hslot2, Hslot1.
  change (seqZ 1 9) with [1; 2; 3; 4; 5; 6; 7; 8; 9]. cbn [foldl].
  change (KEY_0 + 1) with 49. change (KEY_0 + 2) with 50.
  change (KEY_0 + 3) with 51. change (KEY_0 + 4) with 52.
  change (KEY_0 + 5) with 53. change (KEY_0 + 6) with 54.
  change (KEY_0 + 7) with 55. change (KEY_0 + 8) with 56.
  change (KEY_0 + 9) with 57.
  split; [|split; [|split; [|split; [|split; [|split; [|split; [|split]]]]]]].
  - repeat match goal with |- context [if pressed ?k then _ else _] =>
      destruct (pressed k) end; lia.
  - intros i Hi Hpressed Hnone.
    assert (Hcases : i = 1 \/ i = 2 \/ i = 3 \/ i = 4 \/ i = 5 \/ i = 6 \/ i = 7
                     \/ i = 8 \/ i = 9) by lia.
    pose proof (Hnone 2) as H2. pose proof (Hnone 3) as H3.
    pose proof (Hnone 4) as H4. pose proof (Hnone 5) as H5.
    pose proof (Hnone 6) as H6. pose proof (Hnone 7) as H7.
    pose proof (Hnone 8) as H8. pose proof (Hnone 9) as H9.
    change (KEY_0 + 2) with 50 in H2. change (KEY_0 + 3) with 51 in H3.
    change (KEY_0 + 4) with 52 in H4. change (KEY_0 + 5) with 53 in H5.
    change (KEY_0 + 6) with 54 in H6. change (KEY_0 + 7) with 55 in H7.
    change (KEY_0 + 8) with 56 in H8. change (KEY_0 + 9) with 57 in H9.
    destruct Hcases as [->|[->|[->|[->|[->|[->|[->|[->| ->]]]]]]]];
      change (pressed (KEY_0 + _)) with (pressed 49) in Hpressed ||
      change (pressed (KEY_0 + _)) with (pressed 50) in Hpressed ||
      change (pressed (KEY_0 + _)) with (pressed 51) in Hpressed ||
      change (pressed (KEY_0 + _)) with (pressed 52) in Hpressed ||
      change (pressed (KEY_0 + _)) with (pressed 53) in Hpressed ||
      change (pressed (KEY_0 + _)) with (pressed 54) in Hpressed ||
      change (pressed (KEY_0 + _)) with (pressed 55) in Hpressed ||
      change (pressed (KEY_0 + _)) with (pressed 56) in Hpressed ||
      change (pressed (KEY_0 + _)) with (pressed 57) in Hpressed;
      rewrite ?Hpressed, ?H2, ?H3, ?H4, ?H5, ?H6, ?H7, ?H8, ?H9 by lia;
      reflexivity.
  - intros Hnone.
    pose proof (Hnone 1) as H1.
    pose proof (Hnone 2) as H2. pose proof (Hnone 3) as H3.
    pose proof (Hnone 4) as H4. pose proof (Hnone 5) as H5.
    pose proof (Hnone 6) as H6. pose proof (Hnone 7) as H7.
    pose proof (Hnone 8) as H8. pose proof (Hnone 9) as H9.
    change (KEY_0 + 1) with 49 in H1.
    change (KEY_0 + 2) with 50 in H2. change (KEY_0 + 3) with 51 in H3.
    change (KEY_0 + 4) with 52 in H4. change (KEY_0 + 5) with 53 in H5.
    change (KEY_0 + 6) with 54 in H6. change (KEY_0 + 7) with 55 in H7.
    change (KEY_0 + 8) with 56 in H8. change (KEY_0 + 9) with 57 in H9.
    rewrite H1, H2, H3, H4, H5, H6, H7, H8, H9 by lia. reflexivity.
  - intros He Hr. destruct (Hsame1 He) as [-> ->], (Hsame2 Hr) as [-> ->].
    split; [reflexivity|exact Hinv3].
  - destruct Hpose1 as [E1 E2], Hpose2 as [E3 E4], Hpose3 as [E5 E6].
    split; [rewrite E1, E3; exact E5|rewrite E2, E4; exact E6].
  - rewrite <- Hlen1, <- Hlen2. f_equal. exact Hinv3.
  - exact Hshape2.
  - exact Hids2.
  - by rewrite Hdims2, Hdims1.
Qed.
End Actions.

Lemma row_one_block_shaped : grid_shaped row_one_block.
Proof. vm_compute. repeat constructor. Qed.

Lemma row_one_block_fuel : (cast_ray_fuel row_one_block <= 10)%nat.
Proof. vm_compute. lia. Qed.

Lemma row_one_block_ids : block_ids_below MAX_BLOCK_TYPES row_one_block.
Proof. vm_compute. repeat constructor; discriminate. Qed.

Lemma row_player_inventory :
  length (Player.inventory row_player) = Z.to_nat MAX_BLOCK_TYPES.
Proof. reflexivity. Qed.

(** The player of the row breaks the block of dirt at x = 2: the stock of
    dirt goes from 64 to 65. *)
Lemma break_clears_one_cell_witness :
  grid_shaped row_one_block /\
  block_ids_below MAX_BLOCK_TYPES row_one_block /\
  length (Player.inventory row_player) = Z.to_nat MAX_BLOCK_TYPES /\
  (cast_ray_fuel row_one_block <= 10)%nat /\
  exists (player' : Player) (world' : World),
    @player_break_block libm_at_zero utils_minmax 10 row_player row_one_block
    = Some (player', world') /\
    inventory_get player' BLOCK_DIRT = 65 /\
    world_get_block row_one_block 2 0 0 = BLOCK_DIRT /\
    world_get_block world' 2 0 0 = BLOCK_AIR.
Proof.
  split; [exact row_one_block_shaped|]. split; [exact row_one_block_ids|].
  split; [exact row_player_inventory|]. split; [exact row_one_block_fuel|].
  destruct (@break_clears_one_cell libm_at_zero utils_minmax 10 row_player
              row_one_block row_one_block_shaped row_one_block_ids
              row_player_inventory row_one_block_fuel)
    as (hit & player' & world' & Hray & Hbreak & _ & Hhit & _).
  exists player', world'. split; [exact Hbreak|].
  assert (Ehit : RayHit.hit
                   <$> @interaction_ray libm_at_zero utils_minmax 10 row_player
                         row_one_block
                 = Some 1) by (vm_compute; reflexivity).
  assert (Etarget : break_target
                      <$> @interaction_ray libm_at_zero utils_minmax 10
                            row_player row_one_block
                    = Some (2, 0, 0)) by (vm_compute; reflexivity).
  rewrite Hray in Ehit, Etarget.
  apply (inj Some) in Ehit. apply (inj Some) in Etarget.
  destruct (Hhit ltac:(rewrite Ehit; discriminate) 2 0 0 Etarget)
    as (_ & Hcount & _ & Hcells).
  split; [exact Hcount|]. split; [reflexivity|]. exact (Hcells 2 0 0).
Defined.

Lemma place_sets_one_cell_witness :
  grid_shaped row_one_block /\
  (cast_ray_fuel row_one_block <= 10)%nat /\
  (Z.to_nat BLOCK_STONE < length (Player.inventory row_player))%nat /\
  0 <= inventory_get row_player BLOCK_STONE < 256 /\
  exists (player' : Player) (world' : World),
    @player_place_block libm_at_zero utils_minmax 10 row_player row_one_block
      BLOCK_STONE = Some (player', world') /\
    inventory_get player' BLOCK_STONE = 63 /\
    world_get_block world' 1 0 0 = BLOCK_STONE.
Proof.
  assert (Hidx : (Z.to_nat BLOCK_STONE < length (Player.inventory row_player))%nat)
    by (vm_compute; lia).
  assert (Hcount : 0 <= inventory_get row_player BLOCK_STONE < 256)
    by (vm_compute; split; [discriminate|reflexivity]).
  split; [exact row_one_block_shaped|]. split; [exact row_one_block_fuel|].
  split; [exact Hidx|]. split; [exact Hcount|].
  destruct (@place_sets_one_cell libm_at_zero utils_minmax 10 row_player
              row_one_block BLOCK_STONE row_one_block_shaped row_one_block_fuel
              Hidx Hcount) as (player' & world' & Hplace & _).
  exists player', world'. split; [exact Hplace|].
  assert (E : (fun r => (inventory_get r.1 BLOCK_STONE,
                         world_get_block r.2 1 0 0))
              <$> @player_place_block libm_at_zero utils_minmax 10 row_player
                    row_one_block BLOCK_STONE
              = Some (63, BLOCK_STONE)) by (vm_compute; reflexivity).
  rewrite Hplace in E. simpl in E. injection E as E1 E2. split; assumption.
Defined.

Lemma block_keys_keep_slot_witness :
  grid_shaped row_one_block /\
  block_ids_below MAX_BLOCK_TYPES row_one_block /\
  length (Player.inventory row_player) = Z.to_nat MAX_BLOCK_TYPES /\
  (cast_ray_fuel row_one_block <= 10)%nat /\
  1 <= Player.selected_slot row_player <= 9 /\
  exists (player' : Player) (world' : World),
    @game_process_input_blocks libm_at_zero utils_minmax 10
      (fun key => (key =? KEY_0 + 3) || (key =? KEY_0 + 7) || (key =? KEY_r))
      row_player row_one_block = Some (player', world') /\
    Player.selected_slot player' = 7.
Proof.
  assert (Hslot : 1 <= Player.selected_slot row_player <= 9)
    by (vm_compute; split; discriminate).
  split; [exact row_one_block_shaped|]. split; [exact row_one_block_ids|].
  split; [exact row_player_inventory|]. split; [exact row_one_block_fuel|].
  split; [exact Hslot|].
  destruct (@block_keys_keep_slot libm_at_zero utils_minmax 10
              (fun key => (key =? KEY_0 + 3) || (key =? KEY_0 + 7) || (key =? KEY_r))
              row_player row_one_block row_one_block_shaped row_one_block_ids
              row_player_inventory row_one_block_fuel Hslot)
    as (player' & world' & Hrun & _ & Hhigh & _).
  exists player', world'. split; [exact Hrun|].
  apply (Hhigh 7); [lia|reflexivity|].
  intros j Hj. assert (Hcases : j = 8 \/ j = 9) by lia.
  destruct Hcases as [-> | ->]; reflexivity.
Defined.

(** X11. No double jump. A jump ends with the player off the ground, and
    for a player that is not flying a second jump right after the first
    changes nothing; a jump never moves the player and never changes the
    horizontal velocity. *)
Theorem jump_once (player : Player) :
  Player.grounded (player_jump player) = 0 /\
  (Player.flying player = 0 ->
   player_jump (player_jump player) = player_jump player) /\
  (Player.grounded player = 0 -> Player.flying player = 0 ->
   player_jump player = player) /\
  Player.position (player_jump player) = Player.position player /\
  v_x (Player.velocity (player_jump player)) = v_x (Player.velocity player) /\
  v_y (Player.velocity (player_jump player)) = v_y (Player.velocity player).
Proof.
  unfold player_jump.
  destruct (Z.eqb_spec (Player.grounded player) 0) as [Hg|Hg];
    destruct (Z.eqb_spec (Player.flying player) 0) as [Hf|Hf]; simpl;
    rewrite ?Hg, ?Hf; simpl;
    repeat split; try done; try (intros; congruence).
Qed.

(** X12. Giving and taking back. For a block type of the inventory whose
    count is a byte, giving [amount] blocks and then [- amount] blocks
    restores the player, whatever [amount] is, and the count in between
    is the sum reduced modulo 256. *)
Theorem give_then_take (player : Player) (block_type amount : Z) :
  0 <= block_type < MAX_BLOCK_TYPES ->
  length (Player.inventory player) = Z.to_nat MAX_BLOCK_TYPES ->
  0 <= inventory_get player block_type < 256 ->
  player_give_block (player_give_block player block_type amount)
    block_type (- amount) = player /\
  inventory_get (player_give_block player block_type amount) block_type
  = (inventory_get player block_type + amount) mod 256.
Proof.
  unfold player_give_block. intros Hbt Hlen Hcount.
  destruct (Z.ltb_spec block_type MAX_BLOCK_TYPES); [|lia].
  assert (Hidx : (Z.to_nat block_type < length (Player.inventory player))%nat)
    by (rewrite Hlen; unfold MAX_BLOCK_TYPES in *; lia).
  rewrite inventory_get_set by done. split; [|done].
  replace (uint8 (uint8 (inventory_get player block_type + amount) + - amount))
    with (inventory_get player block_type).
  - by apply inventory_set_undo.
  - unfold uint8. rewrite Zplus_mod_idemp_l.
    replace (inventory_get player block_type + amount + - amount)
      with (inventory_get player block_type) by lia.
    symmetry. by apply Z.mod_small.
Qed.

Lemma give_then_take_witness :
  0 <= BLOCK_WOOD < MAX_BLOCK_TYPES /\
  length (Player.inventory row_player) = Z.to_nat MAX_BLOCK_TYPES /\
  0 <= inventory_get row_player BLOCK_WOOD < 256 /\
  player_give_block (player_give_block row_player BLOCK_WOOD 1000)
    BLOCK_WOOD (- 1000) = row_player /\
  inventory_get (player_give_block row_player BLOCK_WOOD 1000) BLOCK_WOOD
  = (inventory_get row_player BLOCK_WOOD + 1000) mod 256.
Proof.
  assert (Hbt : 0 <= BLOCK_WOOD < MAX_BLOCK_TYPES)
    by (vm_compute; split; [discriminate|reflexivity]).
  assert (Hlen : length (Player.inventory row_player) = Z.to_nat MAX_BLOCK_TYPES)
    by reflexivity.
  assert (Hcount : 0 <= inventory_get row_player BLOCK_WOOD < 256)
    by (vm_compute; split; [discriminate|reflexivity]).
  split; [exact Hbt|]. split; [exact Hlen|]. split; [exact Hcount|].
  exact (give_then_take row_player BLOCK_WOOD 1000 Hbt Hlen Hcount).
Defined.

(** * The look of a hit *)

(** The static table answers with a colour of the terminal for every
    block id: ids from 16 on are those of air. *)
Lemma default_type_color (type : Z) :
  0 <= fg_color (world_get_block_type None type) <= 15.
Proof.
  unfold world_get_block_type. cbv zeta.
  destruct (Z.leb_spec MAX_BLOCK_TYPES type) as [Hbig|Hsmall];
    [vm_compute; split; discriminate|].
  unfold MAX_BLOCK_TYPES in Hsmall.
  destruct (Z.to_nat type) as [|[|[|[|[|[|[|[|[|[|[|[|[|[|[|[|n]]]]]]]]]]]]]]]]
    eqn:E; vm_compute; split; discriminate.
Qed.

Lemma colour_cases (c : Z) :
  0 <= c <= 15 ->
  c = 0 \/ c = 1 \/ c = 2 \/ c = 3 \/ c = 4 \/ c = 5 \/ c = 6 \/ c = 7 \/
  c = 8 \/ c = 9 \/ c = 10 \/ c = 11 \/ c = 12 \/ c = 13 \/ c = 14 \/ c = 15.
Proof. lia. Qed.

(** The id of a hit is converted on its way to the table: 257 is 1,
    dirt, and shows as yellow. *)
Lemma hit_colour_converts_id :
  get_hit_color
    {| RayHit.hit := 1; RayHit.block_type := 257; RayHit.distance := F32.one;
       RayHit.position := vec3_zero; RayHit.normal := vec3_zero;
       RayHit.face := 0; RayHit.brightness := F32.lit 5 10 |}
  = COLOR_YELLOW.
Proof. vm_compute. reflexivity. Qed.

(** X13. The colour of a hit. A miss is black. For a hit the colour is
    that of the block type in the static table, looked up with the id of
    the hit converted to [uint8_t] (air for a converted id from 16 on),
    with at most the bright bit changed: the hue, the low three bits, is
    the registered one; the bright bit is cleared below a brightness of
    0.4, set above 0.8 and the registered one in between. The result is
    always one of the sixteen colours. *)
Theorem hit_colour_keeps_hue (hit : RayHit) :
  let id := RayHit.block_type hit mod 256 in
  let registered := fg_color (world_get_block_type None id) in
  let bright := RayHit.brightness hit in
  0 <= get_hit_color hit <= 15 /\
  (RayHit.hit hit = 0 -> get_hit_color hit = COLOR_BLACK) /\
  (MAX_BLOCK_TYPES <= id ->
   registered = fg_color (world_get_block_type None BLOCK_AIR)) /\
  (RayHit.hit hit <> 0 ->
   Z.land (get_hit_color hit) 7 = Z.land registered 7 /\
   Z.testbit (get_hit_color hit) 3
   = if (bright <? F32.lit 4 10)%flt then false
     else if (F32.lit 8 10 <? bright)%flt then true
     else Z.testbit registered 3).
Proof.
  intros id registered bright.
  pose proof (default_type_color id) as Hc.
  fold registered in Hc. unfold get_hit_color, uint8. fold id registered bright.
  assert (Hbig : MAX_BLOCK_TYPES <= id ->
                 registered = fg_color (world_get_block_type None BLOCK_AIR)).
  { intros Hid. unfold registered, world_get_block_type. cbv zeta.
    destruct (Z.leb_spec MAX_BLOCK_TYPES id); [reflexivity|lia]. }
  destruct (Z.eqb_spec (RayHit.hit hit) 0) as [Hmiss|Hhit].
  { split; [vm_compute; split; discriminate|]. split; [done|]. done. }
  unfold ENABLE_SHADING.
  apply colour_cases in Hc.
  destruct (bright <? F32.lit 4 10)%flt; [|destruct (F32.lit 8 10 <? bright)%flt];
    (split; [|split; [done|split; [exact Hbig|intros _]]]);
    clear Hbig;
    destruct Hc as [->|[->|[->|[->|[->|[->|[->|[->|[->|[->|[->|[->|[->|[->|[->| ->]]]]]]]]]]]]]]];
    vm_compute; (split; discriminate) || (split; reflexivity).
Qed.

(** * Further properties of the file format *)

(** X14. What follows a saved world in a file is not looked at, and the
    registry of block types is not part of the file: loading a saved
    world, whatever bytes come after it, gives the world saved with the
    static table as its registry. *)
Theorem load_saved_with_rest (world : World) (rest : list byte) :
  world_fits_format world ->
  world_load true (world_save world ++ rest)
  = Some (set_block_types world default_block_types MAX_BLOCK_TYPES).
Proof.
  intros (Hshape & Hw & Hh & Hd & Hcells & Htod & Hsky).
  rewrite world_save_flat by done. rewrite <- !app_assoc. unfold world_load.
  rewrite fread_int_app by lia. bind_step.
  rewrite fread_int_app by lia. bind_step.
  rewrite fread_int_app by lia. bind_step.
  unfold world_create. cbv beta iota. simpl World.depth. simpl World.height.
  simpl World.width. simpl World.block_types. simpl World.num_block_types.
  destruct Hshape as [Hlen Hplanes]. rewrite <- Hlen.
  rewrite fread_blocks_app by (done || lia). bind_step.
  rewrite fread_float_app by done. bind_step.
  rewrite fread_float_app by done. bind_step. reflexivity.
Qed.

Lemma load_saved_with_rest_witness :
  world_fits_format row_two_blocks /\
  world_load true (world_save row_two_blocks ++ [Byte.x2a; Byte.x2a; Byte.x2a])
  = Some (set_block_types row_two_blocks default_block_types MAX_BLOCK_TYPES).
Proof.
  split; [exact row_two_blocks_fits|].
  exact (load_saved_with_rest row_two_blocks [Byte.x2a; Byte.x2a; Byte.x2a]
           row_two_blocks_fits).
Defined.

Lemma byte_of_Z_mod (n : Z) : byte_of_Z (n mod 256) = byte_of_Z n.
Proof. unfold byte_of_Z. by rewrite Z.mod_mod. Qed.

Lemma encode_decode_uint32 (bs : list byte) :
  length bs = 4%nat -> encode_uint32 (decode_uint32 bs) = bs.
Proof.
  destruct bs as [|b0 [|b1 [|b2 [|b3 [|]]]]]; try done. intros _.
  unfold encode_uint32, decode_uint32.
  pose proof (Z_of_byte_range b0). pose proof (Z_of_byte_range b1).
  pose proof (Z_of_byte_range b2). pose proof (Z_of_byte_range b3).
  set (u := Z_of_byte b0 + 2 ^ 8 * Z_of_byte b1 + 2 ^ 16 * Z_of_byte b2
            + 2 ^ 24 * Z_of_byte b3).
  rewrite <- (byte_of_Z_mod u), <- (byte_of_Z_mod (u / _)),
    <- (byte_of_Z_mod (u / 2 ^ 16)), <- (byte_of_Z_mod (u / 2 ^ 24)).
  replace (u mod 256) with (Z_of_byte b0)
    by (unfold u; change (2 ^ 8) with 256; change (2 ^ 16) with 65536;
        change (2 ^ 24) with 16777216; Z.div_mod_to_equations; lia).
  replace (u / 2 ^ 8 mod 256) with (Z_of_byte b1)
    by (unfold u; change (2 ^ 8) with 256; change (2 ^ 16) with 65536;
        change (2 ^ 24) with 16777216; Z.div_mod_to_equations; lia).
  replace (u / 2 ^ 16 mod 256) with (Z_of_byte b2)
    by (unfold u; change (2 ^ 8) with 256; change (2 ^ 16) with 65536;
        change (2 ^ 24) with 16777216; Z.div_mod_to_equations; lia).
  replace (u / 2 ^ 24 mod 256) with (Z_of_byte b3)
    by (unfold u; change (2 ^ 8) with 256; change (2 ^ 16) with 65536;
        change (2 ^ 24) with 16777216; Z.div_mod_to_equations; lia).
  by rewrite !byte_of_Z_of_byte.
Qed.

Lemma decode_uint32_range (bs : list byte) : 0 <= decode_uint32 bs < 2 ^ 32.
Proof.
  unfold decode_uint32.
  destruct bs as [|b0 [|b1 [|b2 [|b3 [|]]]]]; try (split; [lia|reflexivity]).
  pose proof (Z_of_byte_range b0). pose proof (Z_of_byte_range b1).
  pose proof (Z_of_byte_range b2). pose proof (Z_of_byte_range b3).
  change (2 ^ 8) with 256; change (2 ^ 16) with 65536;
    change (2 ^ 24) with 16777216; change (2 ^ 32) with 4294967296. lia.
Qed.

Lemma encode_decode_int32 (bs : list byte) :
  length bs = 4%nat -> encode_int32 (decode_int32 bs) = bs.
Proof.
  intros Hlen. unfold encode_int32, decode_int32.
  pose proof (decode_uint32_range bs) as Hu.
  transitivity (encode_uint32 (decode_uint32 bs));
    [f_equal|by apply encode_decode_uint32].
  change (2 ^ 32) with 4294967296 in *. change (2 ^ 31) with 2147483648.
  destruct (Z.leb_spec 2147483648 (decode_uint32 bs));
    Z.div_mod_to_equations; lia.
Qed.

(** Every pattern that is not that of a NaN is the pattern of the number
    it denotes. *)
Lemma bits_of_float_of_bits (b : Z) :
  0 <= b < 2 ^ 32 ->
  is_nan (float_of_bits b) = false ->
  bits_of_float (float_of_bits b) = b.
Proof.
  intros Hb. unfold float_of_bits. cbv zeta.
  change (2 ^ 32) with 4294967296 in Hb.
  change (2 ^ 31) with 2147483648. change (2 ^ 23) with 8388608.
  assert (Hs : (if 2147483648 <=? b then 2147483648 else 0)
               + 8388608 * ((b / 8388608) mod 256) + b mod 8388608 = b).
  { destruct (Z.leb_spec 2147483648 b); Z.div_mod_to_equations; lia. }
  assert (Hfrac : 0 <= b mod 8388608 < 8388608) by (apply Z.mod_pos_bound; lia).
  assert (Hex : 0 <= (b / 8388608) mod 256 < 256) by (apply Z.mod_pos_bound; lia).
  destruct (Z.eqb_spec ((b / 8388608) mod 256) 0) as [E0|E0].
  - destruct (Z.eqb_spec (b mod 8388608) 0) as [F0|F0]; intros _; simpl.
    + change (2 ^ 31) with 2147483648. lia.
    + change (2 ^ 31) with 2147483648. change (2 ^ 23) with 8388608.
      rewrite Z2Pos.id by lia.
      destruct (Z.ltb_spec (b mod 8388608) 8388608); lia.
  - destruct (Z.eqb_spec ((b / 8388608) mod 256) 255) as [E1|E1].
    + destruct (Z.eqb_spec (b mod 8388608) 0) as [F0|F0]; [|done]. intros _.
      simpl. change (2 ^ 31) with 2147483648. change (2 ^ 23) with 8388608. lia.
    + intros _. simpl.
      change (2 ^ 31) with 2147483648. change (2 ^ 23) with 8388608.
      rewrite Z2Pos.id by lia.
      destruct (Z.ltb_spec (b mod 8388608 + 8388608) 8388608); lia.
Qed.

Lemma encode_decode_float (bs : list byte) :
  length bs = 4%nat -> is_nan (decode_float bs) = false ->
  encode_float (decode_float bs) = bs.
Proof.
  intros Hlen Hnan. unfold encode_float, decode_float in *.
  rewrite bits_of_float_of_bits by (done || apply decode_uint32_range).
  by apply encode_decode_uint32.
Qed.

(** X15. Saving what was loaded. When [world_load] returns a world
    whose two scalars are numbers, [world_save] of that world writes the
    bytes that were read, in the same order: the file loaded begins with
    the file saved. *)
Theorem save_of_loaded (mem_ok : bool) (file : list byte) (world : World) :
  world_load mem_ok file = Some world ->
  is_nan (World.time_of_day world) = false ->
  is_nan (World.sky_brightness world) = false ->
  exists rest : list byte, file = world_save world ++ rest.
Proof.
  intros Hload Htod Hsky.
  apply world_load_Some in Hload
    as (b1 & b2 & b3 & bs & b4 & b5 & rest & -> & L1 & L2 & L3 & Lbs & L4 & L5
        & _ & Ew & Eh & Ed & Hshape & Hj & Et & Es).
  exists rest. rewrite world_save_flat by done.
  rewrite Ew, Eh, Ed, Hj, Et, Es. rewrite Et in Htod. rewrite Es in Hsky.
  rewrite !encode_decode_int32, !encode_decode_float by done.
  rewrite <- list_fmap_compose.
  rewrite (list_fmap_ext (byte_of_Z ∘ Z_of_byte) id bs)
    by (intros; apply byte_of_Z_of_byte).
  rewrite list_fmap_id. by rewrite <- !app_assoc.
Qed.

Lemma save_of_loaded_witness :
  let world := set_block_types row_two_blocks default_block_types MAX_BLOCK_TYPES in
  world_load true (world_save row_two_blocks ++ [Byte.x2a]) = Some world /\
  is_nan (World.time_of_day world) = false /\
  is_nan (World.sky_brightness world) = false /\
  exists rest : list byte,
    world_save row_two_blocks ++ [Byte.x2a] = world_save world ++ rest.
Proof.
  assert (Hload :
    world_load true (world_save row_two_blocks ++ [Byte.x2a])
    = Some (set_block_types row_two_blocks default_block_types MAX_BLOCK_TYPES))
    by (vm_compute; reflexivity).
  split; [exact Hload|]. split; [reflexivity|]. split; [reflexivity|].
  apply (save_of_loaded true _ _ Hload); reflexivity.
Defined.

(** * Rounding never invents a NaN *)

Lemma shr_1_nonneg (mrs : shr_record) : 0 <= shr_m mrs -> 0 <= shr_m (shr_1 mrs).
Proof.
  destruct mrs as [m r s]. simpl.
  destruct m as [|[p|p|]|p]; simpl; lia.
Qed.

Lemma iter_shr_1_nonneg (p : positive) :
  forall mrs : shr_record, 0 <= shr_m mrs -> 0 <= shr_m (SpecFloat.iter_pos shr_1 p mrs).
Proof.
  induction p as [p IH|p IH|]; intros mrs Hm; simpl.
  - apply IH, IH. by apply shr_1_nonneg.
  - by apply IH, IH.
  - by apply shr_1_nonneg.
Qed.

Lemma shr_fexp_nonneg (prec emax m e : Z) (l : location) :
  0 <= m -> 0 <= shr_m (shr_fexp prec emax m e l).1.
Proof.
  intros Hm. unfold shr_fexp, shr.
  assert (H0 : 0 <= shr_m (shr_record_of_loc m l))
    by (destruct l as [|[]]; exact Hm).
  destruct (fexp prec emax (Zdigits2 m + e) - e) as [|p|p]; simpl; try exact H0.
  by apply iter_shr_1_nonneg.
Qed.

Lemma round_nearest_even_nonneg (m : Z) (l : location) :
  0 <= m -> 0 <= round_nearest_even m l.
Proof.
  intros Hm. destruct l as [|[]]; simpl; try lia. destruct (Z.even m); lia.
Qed.

(** The outcome of a rounding: a zero, a number or an infinity of the
    sign asked for. *)
Lemma binary_round_aux_cases (prec emax : Z) (sx : bool) (mx ex : Z) (lx : location) :
  0 <= mx ->
  match binary_round_aux prec emax sx mx ex lx with
  | S754_zero s | S754_infinity s | S754_finite s _ _ => s = sx
  | S754_nan => False
  end.
Proof.
  intros Hm. unfold binary_round_aux.
  pose proof (shr_fexp_nonneg prec emax mx ex lx Hm) as H1.
  destruct (shr_fexp prec emax mx ex lx) as [mrs' e']. simpl in H1.
  pose proof (shr_fexp_nonneg prec emax _ e' loc_Exact
                (round_nearest_even_nonneg _ (loc_of_shr_record mrs') H1)) as H2.
  destruct (shr_fexp prec emax (round_nearest_even _ _) e' loc_Exact)
    as [mrs'' e'']. simpl in H2.
  destruct (shr_m mrs'') as [|p|p]; [done| |lia].
  by destruct (e'' <=? emax - prec).
Qed.

Lemma binary_round_cases (prec emax : Z) (sx : bool) (mx : positive) (ex : Z) :
  match binary_round prec emax sx mx ex with
  | S754_zero s | S754_infinity s | S754_finite s _ _ => s = sx
  | S754_nan => False
  end.
Proof.
  unfold binary_round. destruct (shl_align _ _ _) as [mz ez].
  by apply binary_round_aux_cases.
Qed.

Lemma binary_normalize_not_nan (prec emax m e : Z) (szero : bool) :
  is_nan (binary_normalize prec emax m e szero) = false.
Proof.
  unfold binary_normalize. destruct m as [|p|p]; [done| |].
  - pose proof (binary_round_cases prec emax false p e) as Hc.
    by destruct (binary_round prec emax false p e).
  - pose proof (binary_round_cases prec emax true p e) as Hc.
    by destruct (binary_round prec emax true p e).
Qed.

Lemma of_Z_not_nan (n : Z) : is_nan (F32.of_Z n) = false.
Proof. apply binary_normalize_not_nan. Qed.

Lemma mul_not_nan (x y : float) :
  is_finite x = true -> is_finite y = true -> is_nan (x * y)%flt = false.
Proof.
  destruct x as [sx|sx| |sx mx ex], y as [sy|sy| |sy my ey]; try done.
  intros _ _. unfold F32.mul, SFmul.
  pose proof (binary_round_aux_cases F32.prec F32.emax (xorb sx sy)
                (Z.pos (mx * my)) (ex + ey) loc_Exact) as Hc.
  destruct (binary_round_aux _ _ _ _ _ _); try done. exfalso. by apply Hc.
Qed.

Lemma add_not_nan (x y : float) :
  is_finite x = true -> is_nan y = false -> is_nan (x + y)%flt = false.
Proof.
  destruct x as [sx|sx| |sx mx ex], y as [sy|sy| |sy my ey]; try done;
    intros _ _; unfold F32.add, SFadd.
  - by destruct sx, sy.
  - apply binary_normalize_not_nan.
Qed.

Lemma sub_not_nan (x y : float) :
  is_nan x = false -> is_finite y = true -> is_nan (x - y)%flt = false.
Proof.
  destruct x as [sx|sx| |sx mx ex], y as [sy|sy| |sy my ey]; try done;
    intros _ _; unfold F32.sub, SFsub.
  - by destruct sx, sy.
  - apply binary_normalize_not_nan.
Qed.

(** * The physics of the player *)

Lemma leb_not_ltb (a b : float) : F32.leb a b = true -> F32.ltb b a = false.
Proof.
  unfold F32.leb, F32.ltb, SFleb, SFltb. rewrite (SFcompare_antisym a b).
  by destruct (SFcompare a b) as [[]|].
Qed.

(** The two tests that keep a coordinate within the world. *)
Lemma bounds_tests (lo hi v : float) :
  is_nan v = false ->
  F32.leb lo hi = true ->
  let x := if (v <? lo)%flt then lo else v in
  let x := if (hi <? x)%flt then hi else x in
  F32.leb lo x = true /\ F32.leb x hi = true.
Proof.
  intros Hv Hle. destruct (leb_not_nan lo hi Hle) as [Hlo Hhi]. cbv zeta.
  destruct (v <? lo)%flt eqn:E1.
  - rewrite (leb_not_ltb lo hi Hle). split; [by apply leb_refl|done].
  - destruct (hi <? v)%flt eqn:E2.
    + split; [done|by apply leb_refl].
    + split; by apply ltb_false_leb.
Qed.

Lemma finite_not_nan (x : float) : is_finite x = true -> is_nan x = false.
Proof. by destruct x. Qed.

(** X16. The player stays in the world. When the position, the velocity
    and the time step are numbers and the world is at least two cells
    wide and long (1 <= width - 1 and 1 <= height - 1 in [float]),
    [player_update] leaves the player with 1 <= x <= width - 1 and
    1 <= y <= height - 1, whatever the grid holds. *)
Theorem update_stays_in_world `{UtilsMin} (player : Player) (world : World)
    (delta_time : float) :
  finite_vector (Player.position player) = true ->
  finite_vector (Player.velocity player) = true ->
  is_finite delta_time = true ->
  F32.leb F32.one (F32.of_Z (World.width world) - F32.one) = true ->
  F32.leb F32.one (F32.of_Z (World.height world) - F32.one) = true ->
  let position := Player.position (player_update player world delta_time) in
  F32.leb F32.one (v_x position) = true /\
  F32.leb (v_x position) (F32.of_Z (World.width world) - F32.one) = true /\
  F32.leb F32.one (v_y position) = true /\
  F32.leb (v_y position) (F32.of_Z (World.height world) - F32.one) = true.
Proof.
  unfold finite_vector. rewrite !andb_true_iff.
  intros [[Hpx Hpy] _] [[Hvx Hvy] _] Hdt Hw Hh.
  unfold player_update. cbv zeta. cbn [Player.position v_x v_y vec3_add vec3_mul].
  assert (Hx : is_nan (v_x (Player.position player)
                       + v_x (Player.velocity player) * delta_time)%flt = false)
    by (apply add_not_nan; [done|by apply mul_not_nan]).
  assert (Hy : is_nan (v_y (Player.position player)
                       + v_y (Player.velocity player) * delta_time)%flt = false)
    by (apply add_not_nan; [done|by apply mul_not_nan]).
  assert (Hnx : forall b : bool,
            is_nan (if b then v_x (Player.position player)
                    else (v_x (Player.position player)
                          + v_x (Player.velocity player) * delta_time)%flt) = false)
    by (intros []; [by apply finite_not_nan|exact Hx]).
  assert (Hny : forall b : bool,
            is_nan (if b then v_y (Player.position player)
                    else (v_y (Player.position player)
                          + v_y (Player.velocity player) * delta_time)%flt) = false)
    by (intros []; [by apply finite_not_nan|exact Hy]).
  match goal with
  | |- context [truthy (world_is_solid world ?a ?b ?c)] =>
      pose proof (bounds_tests F32.one _ _
                    (Hnx (truthy (world_is_solid world a b c))) Hw) as [Bx1 Bx2]
  end.
  match goal with
  | |- context [if truthy (world_is_solid world ?a ?b ?c)
                then v_y (Player.position player) else _] =>
      pose proof (bounds_tests F32.one _ _
                    (Hny (truthy (world_is_solid world a b c))) Hh) as [By1 By2]
  end.
  split; [exact Bx1|]. split; [exact Bx2|]. split; [exact By1|exact By2].
Qed.
Lemma update_stays_in_world_witness :
  finite_vector (Player.position falling_player) = true /\
  finite_vector (Player.velocity falling_player) = true /\
  is_finite frame_time = true /\
  F32.leb F32.one (F32.of_Z (World.width corner_grid) - F32.one) = true /\
  F32.leb F32.one (F32.of_Z (World.height corner_grid) - F32.one) = true /\
  let position :=
    Player.position (@player_update utils_fminf falling_player corner_grid
                       frame_time) in
  F32.leb F32.one (v_x position) = true /\
  F32.leb (v_x position) (F32.of_Z (World.width corner_grid) - F32.one) = true /\
  F32.leb F32.one (v_y position) = true /\
  F32.leb (v_y position) (F32.of_Z (World.height corner_grid) - F32.one) = true.
Proof.
  assert (H1 : finite_vector (Player.position falling_player) = true)
    by (vm_compute; reflexivity).
  assert (H2 : finite_vector (Player.velocity falling_player) = true)
    by (vm_compute; reflexivity).
  assert (H3 : is_finite frame_time = true) by (vm_compute; reflexivity).
  assert (H4 : F32.leb F32.one (F32.of_Z (World.width corner_grid) - F32.one)
               = true) by (vm_compute; reflexivity).
  assert (H5 : F32.leb F32.one (F32.of_Z (World.height corner_grid) - F32.one)
               = true) by (vm_compute; reflexivity).
  split; [exact H1|]. split; [exact H2|]. split; [exact H3|].
  split; [exact H4|]. split; [exact H5|].
  exact (@update_stays_in_world utils_fminf falling_player corner_grid
           frame_time H1 H2 H3 H4 H5).
Defined.

Lemma ltb_ten_cases (x : float) :
  F32.ltb (F32.of_Z 10) x = true ->
  x = S754_infinity false \/ exists m e, x = S754_finite false m e.
Proof.
  destruct x as [s|s| |s m e]; try (vm_compute; discriminate).
  - destruct s; [vm_compute; discriminate|by left].
  - destruct s; [vm_compute; discriminate|]. intros _. right. by exists m, e.
Qed.

(** A velocity at rest along Z stays so when its speed is limited. *)
Lemma speed_limit_keeps_rest (v : Vector3) :
  is_zero (v_z v) = true ->
  is_zero (v_z (if (F32.of_Z 10 <? vec3_length v)%flt
                then vec3_mul (vec3_normalize v) (F32.of_Z 10) else v)) = true.
Proof.
  destruct v as [x y z]. simpl v_z at 1. intros Hz.
  destruct z as [sz| | |]; try done.
  destruct (F32.of_Z 10 <? vec3_length _)%flt eqn:Hfast; [|done].
  unfold vec3_normalize, vec3_div. cbv zeta.
  destruct (vec3_length _ <? F32.lit 1 10000)%flt; [done|].
  destruct (vec3_length _ =? F32.zero)%flt; [done|].
  destruct (ltb_ten_cases _ Hfast) as [->|(m & e & ->)]; done.
Qed.

(** X17. Landing. When [player_update] leaves the player grounded, the
    vertical velocity is zero afterwards, and the eyes are either where
    they were (the ceiling test) or at the player's height above the top
    of a cell of the grid that is solid. *)
Theorem update_grounded_rests `{UtilsMin} (player : Player) (world : World)
    (delta_time : float) :
  let player' := player_update player world delta_time in
  Player.grounded player' = 1 ->
  is_zero (v_z (Player.velocity player')) = true /\
  (v_z (Player.position player') = v_z (Player.position player) \/
   exists x y z : Z,
     world_is_solid world x y z <> 0 /\
     v_z (Player.position player')
     = (F32.of_Z z + F32.one + Player.height player)%flt).
Proof.
  unfold player_update. cbv zeta.
  cbn [Player.grounded Player.velocity Player.position v_z].
  match goal with |- (if ?b then 1 else 0) = 1 -> _ =>
    destruct b eqn:Hground; [intros _|discriminate] end.
  split.
  - match goal with
    | |- is_zero (v_z (if (_ <? vec3_length ?v)%flt then _ else _)) = true =>
        apply (speed_limit_keeps_rest v)
    end.
    cbn [v_z].
    match goal with |- is_zero (if ?b then _ else _) = true => destruct b end;
      reflexivity.
  - match goal with |- context [if ?b then v_z (Player.position player) else _] =>
      destruct b end; [by left|right].
    apply andb_true_iff in Hground as [_ Hsolid].
    eexists _, _, _. split; [|reflexivity].
    unfold truthy in Hsolid. apply negb_true_iff, Z.eqb_neq in Hsolid.
    exact Hsolid.
Qed.

Lemma update_grounded_rests_witness :
  let player' :=
    @player_update utils_fminf falling_player corner_grid frame_time in
  Player.grounded player' = 1 /\
  is_zero (v_z (Player.velocity player')) = true /\
  v_z (Player.position player')
  = (F32.of_Z 0 + F32.one + Player.height falling_player)%flt.
Proof.
  assert (Hg : Player.grounded
                 (@player_update utils_fminf falling_player corner_grid
                    frame_time) = 1) by (vm_compute; reflexivity).
  split; [exact Hg|].
  split; [|vm_compute; reflexivity].
  exact (proj1 (@update_grounded_rests utils_fminf falling_player corner_grid
                  frame_time Hg)).
Defined.

(** * Normalising a vector *)

Lemma round_nonneg (mx ex : Z) (lx : location) :
  0 <= mx -> is_nonneg (binary_round_aux F32.prec F32.emax false mx ex lx) = true.
Proof.
  intros Hm.
  pose proof (binary_round_aux_cases F32.prec F32.emax false mx ex lx Hm) as Hc.
  destruct (binary_round_aux _ _ _ _ _ _); try done; by subst.
Qed.

Lemma square_nonneg (x : float) : is_finite x = true -> is_nonneg (x * x)%flt = true.
Proof.
  destruct x as [s|s| |s m e]; try done; intros _.
  - by destruct s.
  - unfold F32.mul, SFmul. rewrite xorb_nilpotent. by apply round_nonneg.
Qed.

Lemma add_nonneg (x y : float) :
  is_nonneg x = true -> is_nonneg y = true -> is_nonneg (x + y)%flt = true.
Proof.
  destruct x as [[]|[]| |[] mx ex], y as [[]|[]| |[] my ey]; try done.
  intros _ _. unfold F32.add, SFadd. cbv zeta. unfold cond_Zopp.
  unfold binary_normalize.
  destruct (Z.pos _ + Z.pos _) as [|p|p] eqn:E; [done| |lia].
  pose proof (binary_round_cases F32.prec F32.emax false p (Z.min ex ey)) as Hc.
  destruct (binary_round _ _ _ _ _); try done; by subst.
Qed.

Lemma sqrt_nonneg (x : float) : is_nonneg x = true -> is_nonneg (F32.sqrtf x) = true.
Proof.
  destruct x as [[]|[]| |[] m e]; try done. intros _.
  unfold F32.sqrtf, SFsqrt.
  destruct (SFsqrt_core_binary F32.prec F32.emax (Z.pos m) e) as [[mz ez] lz] eqn:E.
  apply round_nonneg.
  unfold SFsqrt_core_binary in E. cbv zeta in E.
  destruct (Z.sqrtrem _) as [q r] eqn:Eq.
  injection E as <- _ _.
  pose proof (Z.sqrtrem_sqrt
                match e - 2 * Z.min (fexp F32.prec F32.emax
                                       (Z.div2 (Zdigits2 (Z.pos m) + e + 1)))
                              (Z.div2 e) with
                | 0 => Z.pos m
                | Z.pos _ =>
                    Z.shiftl (Z.pos m)
                      (e - 2 * Z.min (fexp F32.prec F32.emax
                                        (Z.div2 (Zdigits2 (Z.pos m) + e + 1)))
                                 (Z.div2 e))
                | Z.neg _ => 0
                end) as Hs.
  rewrite Eq in Hs. simpl in Hs. subst q. apply Z.sqrt_nonneg.
Qed.

Lemma length_nonneg (v : Vector3) :
  finite_vector v = true -> is_nonneg (vec3_length v) = true.
Proof.
  unfold finite_vector. rewrite !andb_true_iff. intros [[Hx Hy] Hz].
  unfold vec3_length. apply sqrt_nonneg.
  by repeat apply add_nonneg; apply square_nonneg.
Qed.

Lemma div_not_nan (x y : float) :
  is_finite x = true -> is_nonneg y = true -> F32.eqb y F32.zero = false ->
  is_nan (x / y)%flt = false.
Proof.
  destruct x as [sx|sx| |sx mx ex], y as [[]|[]| |[] my ey]; try done.
  intros _ _ _. unfold F32.div, SFdiv.
  destruct (SFdiv_core_binary F32.prec F32.emax (Z.pos mx) ex (Z.pos my) ey)
    as [[mz ez] lz] eqn:E.
  assert (Hmz : 0 <= mz).
  { unfold SFdiv_core_binary in E. cbv zeta in E.
    destruct (Z.div_eucl _ (Z.pos my)) as [q r] eqn:Eq.
    injection E as <- _ _.
    match type of Eq with Z.div_eucl ?a ?b = _ =>
      assert (Ha : 0 <= a);
      [|pose proof (Z.div_eucl_eq a b ltac:(lia)) as Hdiv;
        pose proof (Z.mod_pos_bound a b ltac:(lia)) as Hmod;
        unfold Z.modulo in Hmod; rewrite Eq in Hdiv, Hmod; nia]
    end.
    destruct (ex - ey - _) as [|p|p]; [lia| |lia].
    apply Z.shiftl_nonneg. lia. }
  pose proof (binary_round_aux_cases F32.prec F32.emax (xorb sx false) mz ez lz Hmz)
    as Hc.
  by destruct (binary_round_aux _ _ _ _ _ _).
Qed.

(** X18. [vec3_normalize] never invents a NaN: for a vector whose
    components are numbers, every component of the result is a number, a
    zero or an infinity, whether the length is below the threshold,
    overflows or is an ordinary number. *)
Theorem normalize_nan_free (v : Vector3) :
  finite_vector v = true -> nan_free (vec3_normalize v) = true.
Proof.
  intros Hv. pose proof (length_nonneg v Hv) as Hlen.
  unfold vec3_normalize, vec3_div. cbv zeta.
  destruct (vec3_length v <? F32.lit 1 10000)%flt; [reflexivity|].
  unfold finite_vector in Hv. apply andb_true_iff in Hv as [Hxy Hz].
  apply andb_true_iff in Hxy as [Hx Hy].
  destruct (vec3_length v =? F32.zero)%flt eqn:Hzero.
  - unfold nan_free. by rewrite !finite_not_nan.
  - unfold nan_free. cbn [v_x v_y v_z]. by rewrite !div_not_nan.
Qed.

Lemma normalize_nan_free_witness :
  finite_vector (vec3_create (F32.of_Z (10 ^ 30)) (F32.of_Z 3) F32.zero) = true /\
  nan_free (vec3_normalize (vec3_create (F32.of_Z (10 ^ 30)) (F32.of_Z 3) F32.zero))
  = true /\
  vec3_normalize (vec3_create (F32.of_Z (10 ^ 30)) (F32.of_Z 3) F32.zero)
  = vec3_zero.
Proof.
  assert (Hv : finite_vector (vec3_create (F32.of_Z (10 ^ 30)) (F32.of_Z 3) F32.zero)
               = true) by (vm_compute; reflexivity).
  split; [exact Hv|]. split; [|vm_compute; reflexivity].
  exact (normalize_nan_free _ Hv).
Defined.

(** * The house of [world_generate_structures] *)

Lemma blocks_write_set (world : World) (x y z type : Z) :
  world_is_valid_position world x y z = true ->
  blocks_write world x y z type = world_set_block world x y z type.
Proof. intros Hv. unfold world_set_block. by rewrite Hv. Qed.

Lemma find_ground_ge (fuel : nat) (world : World) (x y : Z) :
  forall z : Z, z <= find_ground fuel world x y z.
Proof.
  induction fuel as [|fuel IH]; intros z; simpl; [lia|].
  destruct (_ && _); [|lia]. specialize (IH (z + 1)). lia.
Qed.

Lemma find_ground_air (fuel : nat) (world : World) (x y : Z) :
  (forall z : Z, 0 <= z < World.depth world -> block_at world x y z = BLOCK_AIR) ->
  forall z : Z,
    0 <= z -> (Z.to_nat (World.depth world) <= fuel + Z.to_nat z)%nat ->
    World.depth world <= find_ground fuel world x y z.
Proof.
  intros Hair. induction fuel as [|fuel IH]; intros z Hz Hfuel; simpl; [lia|].
  destruct (Z.ltb_spec z (World.depth world)); simpl andb; cbv iota; [|lia].
  rewrite Hair by lia. change (BLOCK_AIR =? BLOCK_AIR) with true. cbv iota.
  apply IH; lia.
Qed.

(** X19. No ground, no house. Take a world of the shape [world_create]
    gives, at least one cell wide and one cell high, whose dimensions
    leave room in an [int] for the height of the house. The cells the
    search for the ground reads, those of the column at half the width
    and half the height, then are cells of the grid; and when all of them
    hold air, as in a world that has just been created,
    [world_generate_structures] changes nothing. *)
Theorem no_house_without_ground (world : World) :
  grid_shaped world ->
  1 <= World.width world <= INT_MAX ->
  1 <= World.height world <= INT_MAX ->
  World.depth world + house_height + 1 <= INT_MAX ->
  let house_x := Z.quot (World.width world) 2 in
  let house_y := Z.quot (World.height world) 2 in
  (forall z : Z,
     0 <= z < World.depth world -> world_get_block world house_x house_y z = BLOCK_AIR) ->
  (forall z : Z,
     0 <= z < World.depth world ->
     world_is_valid_position world house_x house_y z = true) /\
  world_generate_structures world = world.
Proof.
  intros Hshape Hw Hh Hd house_x house_y Hair.
  assert (Hx : 0 <= house_x < World.width world)
    by (unfold house_x; pose proof (Z.quot_rem' (World.width world) 2);
        pose proof (Z.rem_bound_pos (World.width world) 2); lia).
  assert (Hy : 0 <= house_y < World.height world)
    by (unfold house_y; pose proof (Z.quot_rem' (World.height world) 2);
        pose proof (Z.rem_bound_pos (World.height world) 2); lia).
  assert (Hvalid : forall z : Z,
            0 <= z < World.depth world ->
            world_is_valid_position world house_x house_y z = true)
    by (intros z Hz; apply valid_position_spec; lia).
  split; [exact Hvalid|].
  unfold world_generate_structures. cbv zeta. fold house_x house_y.
  assert (Hcolumn : forall z : Z,
            0 <= z < World.depth world ->
            block_at world house_x house_y z = BLOCK_AIR).
  { intros z Hz. specialize (Hair z Hz). unfold world_get_block in Hair.
    by rewrite (Hvalid z Hz) in Hair. }
  pose proof (find_ground_air (Z.to_nat (World.depth world)) world house_x house_y
                Hcolumn 0 ltac:(lia) ltac:(lia)) as Hg.
  replace (World.depth world <=? _ + 1 + house_height) with true;
    [by rewrite orb_true_r|].
  symmetry. apply Z.leb_le. unfold house_height. lia.
Qed.

(** A world of 16 x 20 x 8 cells that has just been created. *)
Lemma no_house_without_ground_witness :
  grid_shaped (fresh_world 16 20 8) /\
  (forall z : Z,
     0 <= z < 8 -> world_get_block (fresh_world 16 20 8) 8 10 z = BLOCK_AIR) /\
  world_is_valid_position (fresh_world 16 20 8) 8 10 7 = true /\
  world_generate_structures (fresh_world 16 20 8) = fresh_world 16 20 8.
Proof.
  assert (Hair : forall z : Z,
            0 <= z < 8 -> world_get_block (fresh_world 16 20 8) 8 10 z = BLOCK_AIR).
  { intros z Hz. unfold world_get_block.
    destruct (negb _); [reflexivity|apply fresh_world_block_at]. }
  split; [apply fresh_world_shaped|]. split; [exact Hair|].
  destruct (no_house_without_ground (fresh_world 16 20 8)
              (fresh_world_shaped 16 20 8))
    as [Hvalid Hsame].
  - vm_compute. split; discriminate.
  - vm_compute. split; discriminate.
  - vm_compute. discriminate.
  - exact Hair.
  - split; [apply Hvalid; simpl; lia|exact Hsame].
Defined.

Lemma apply_writes_snoc (world : World) (hx hy hz : Z)
    (writes : list (Z * Z * Z * Z)) (x y z type : Z) :
  apply_writes world hx hy hz (writes ++ [(x, y, z, type)])
  = blocks_write (apply_writes world hx hy hz writes) (hx + x) (hy + y) (hz + z)
      type.
Proof. unfold apply_writes. by rewrite foldl_app. Qed.

Lemma last_write_snoc (writes : list (Z * Z * Z * Z)) (x y z type dx dy dz : Z) :
  last_write (writes ++ [(x, y, z, type)]) dx dy dz
  = if (x =? dx) && (y =? dy) && (z =? dz) then Some type
    else last_write writes dx dy dz.
Proof. unfold last_write. by rewrite foldl_app. Qed.

(** Writes inside the grid keep the grid in shape, and the grid read
    after them holds the last block written to each cell. *)
Lemma apply_writes_lookup (world : World) (hx hy hz : Z)
    (writes : list (Z * Z * Z * Z)) :
  grid_shaped world ->
  Forall (fun '(x, y, z, _) =>
            world_is_valid_position world (hx + x) (hy + y) (hz + z) = true)
    writes ->
  let world' := apply_writes world hx hy hz writes in
  grid_shaped world' /\
  (forall x y z : Z,
     world_is_valid_position world' x y z = world_is_valid_position world x y z) /\
  (World.width world', World.height world', World.depth world')
  = (World.width world, World.height world, World.depth world) /\
  forall x y z : Z,
    world_get_block world' x y z
    = default (world_get_block world x y z)
        (last_write writes (x - hx) (y - hy) (z - hz)).
Proof.
  intros Hshape. induction writes as [|[[[wx wy] wz] type] writes IH] using rev_ind;
    intros Hvalid; [done|].
  apply Forall_app in Hvalid as [Hvalid Hlast].
  inversion_clear Hlast as [|? ? Hv _].
  destruct (IH Hvalid) as (Hshape' & Hvalid' & Hdims' & Hget'). clear IH.
  cbv zeta. rewrite apply_writes_snoc.
  set (world' := apply_writes world hx hy hz writes) in *.
  rewrite <- Hvalid' in Hv. rewrite blocks_write_set by done.
  split; [by apply set_block_shaped|]. split; [|split].
  - intros x y z. by rewrite set_block_valid.
  - rewrite <- Hdims'. unfold world_set_block. by rewrite Hv.
  - intros x y z. rewrite set_block_lookup by done. rewrite Hv. simpl andb.
    rewrite last_write_snoc, Hget'.
    case_bool_decide as Heq.
    + injection Heq as -> -> ->.
      replace (hx + wx - hx) with wx by lia. replace (hy + wy - hy) with wy by lia.
      replace (hz + wz - hz) with wz by lia. by rewrite !Z.eqb_refl.
    + destruct (Z.eqb_spec wx (x - hx)), (Z.eqb_spec wy (y - hy)),
        (Z.eqb_spec wz (z - hz)); try done.
      exfalso. apply Heq. f_equal; [f_equal|]; lia.
Qed.

Lemma house_writes_in_box :
  Forall (fun '(x, y, z, _) => 0 <= x < 7 /\ 0 <= y < 9 /\ 0 <= z <= 4)
    house_writes.
Proof.
  apply Forall_forall. intros [[[x y] z] type] Hin.
  assert (Hb : forallb (fun '(x, y, z, _) =>
                          (0 <=? x) && (x <? 7) && (0 <=? y) && (y <? 9)
                          && (0 <=? z) && (z <=? 4)) house_writes = true)
    by (vm_compute; reflexivity).
  rewrite forallb_forall in Hb. specialize (Hb _ Hin). simpl in Hb. lia.
Qed.

Lemma last_write_outside (writes : list (Z * Z * Z * Z)) (dx dy dz : Z) :
  Forall (fun '(x, y, z, _) => 0 <= x < 7 /\ 0 <= y < 9 /\ 0 <= z <= 4) writes ->
  ~ (0 <= dx < 7 /\ 0 <= dy < 9 /\ 0 <= dz <= 4) ->
  last_write writes dx dy dz = None.
Proof.
  intros Hbox Hout.
  induction writes as [|[[[x y] z] type] writes IH] using rev_ind; [done|].
  apply Forall_app in Hbox as [Hbox Hlast].
  inversion_clear Hlast as [|? ? Hin _].
  rewrite last_write_snoc, IH by done.
  destruct (Z.eqb_spec x dx), (Z.eqb_spec y dy), (Z.eqb_spec z dz); try done.
  exfalso. apply Hout. lia.
Qed.

(** The writes build the plan. *)
Lemma house_writes_plan (dx dy dz : Z) :
  last_write house_writes dx dy dz = house_plan dx dy dz.
Proof.
  destruct (decide (0 <= dx < 7 /\ 0 <= dy < 9 /\ 0 <= dz <= 4)) as [Hin|Hout].
  - assert (Hb : forallb (fun '(x, y, z) =>
                            same_block (last_write house_writes x y z)
                              (house_plan x y z)) house_box = true)
      by (vm_compute; reflexivity).
    rewrite forallb_forall in Hb. specialize (Hb (dx, dy, dz)).
    assert (Hbox : In (dx, dy, dz) house_box).
    { apply list_elem_of_In. unfold house_box.
      apply list_elem_of_bind. exists dx. split; [|apply elem_of_seqZ; lia].
      apply list_elem_of_bind. exists dy. split; [|apply elem_of_seqZ; lia].
      apply list_elem_of_bind. exists dz. split; [|apply elem_of_seqZ; lia].
      by apply list_elem_of_singleton. }
    specialize (Hb Hbox). simpl in Hb. unfold same_block in Hb.
    destruct (last_write house_writes dx dy dz), (house_plan dx dy dz);
      try done. by apply Z.eqb_eq in Hb as ->.
  - rewrite (last_write_outside _ _ _ _ house_writes_in_box Hout).
    unfold house_plan.
    replace ((0 <=? dx) && (dx <? 7) && (0 <=? dy) && (dy <? 9) && (0 <=? dz)
             && (dz <=? 4)) with false; [done|].
    symmetry. apply not_true_is_false. intros Ht. apply Hout. lia.
Qed.

(** The function makes the writes of [house_writes], in their order. *)
Lemma generate_as_writes (world : World) (hx hy hz : Z) :
  blocks_write
    (build_slab (build_walls (build_slab world hx hy (hz + 0)) hx hy hz)
       hx hy (hz + house_height))
    (hx + (house_width - 2)) (hy + (house_length - 2)) (hz + 2) BLOCK_AIR
  = apply_writes world hx hy hz house_writes.
Proof.
  unfold apply_writes.
  let writes := eval vm_compute in house_writes in
  change house_writes with writes.
  reflexivity.
Qed.
Lemma find_ground_stop (fuel : nat) (world : World) (x y : Z) :
  forall z0 : Z,
    let g := find_ground fuel world x y z0 in
    (forall z : Z, z0 <= z < g -> block_at world x y z = BLOCK_AIR) /\
    (g < z0 + Z.of_nat fuel ->
     (g <? World.depth world) && (block_at world x y g =? BLOCK_AIR) = false).
Proof.
  induction fuel as [|fuel IH]; intros z0; cbv zeta.
  - simpl. split; intros; lia.
  - cbn [find_ground].
    destruct ((z0 <? World.depth world) && (block_at world x y z0 =? BLOCK_AIR))
      eqn:Hgo.
    + destruct (IH (z0 + 1)) as [Hair Hstop]. split.
      * intros z Hz. destruct (decide (z = z0)) as [->|Hne].
        -- apply andb_true_iff in Hgo as [_ Hgo]. by apply Z.eqb_eq.
        -- apply Hair. lia.
      * intros Hlt. apply Hstop. lia.
    + split; [intros; lia|done].
Qed.

(** With the fuel its caller gives it, the search stops where the loop
    of the source does: at the ceiling, or at a block that is not air. *)
Lemma find_ground_complete (world : World) (x y : Z) :
  let g := find_ground (Z.to_nat (World.depth world)) world x y 0 in
  (g <? World.depth world) && (block_at world x y g =? BLOCK_AIR) = false.
Proof.
  cbv zeta.
  destruct (find_ground_stop (Z.to_nat (World.depth world)) world x y 0)
    as [_ Hstop].
  pose proof (find_ground_ge (Z.to_nat (World.depth world)) world x y 0) as Hge.
  cbv zeta in Hstop.
  destruct (Z.ltb_spec (find_ground (Z.to_nat (World.depth world)) world x y 0)
              (World.depth world)) as [Hlt|Hle]; [|done].
  apply Hstop. lia.
Qed.

(** X20. The house. When the check of the bounds passes, the function
    writes inside the grid only: the arrays keep their sizes, and
    afterwards every cell of the box of 7 x 9 x 5 cells at the corner of
    the house holds what [house_plan] gives it (a floor and a roof of
    wood, walls of brick around them with a door two cells high in the
    middle of the wall y = 0, one cell of air inside) while the cells the
    plan leaves out and the cells outside the box hold what they held.
    The floor lies right above the lowest block of the column at the
    corner, which is inside the grid. *)
Theorem house_is_built (world : World) (hx hy hz : Z) :
  grid_shaped world ->
  house_corner world = (hx, hy, hz) ->
  hx + house_width < World.width world ->
  hy + house_length < World.height world ->
  hz + house_height < World.depth world ->
  let world' := world_generate_structures world in
  grid_shaped world' /\
  (World.width world', World.height world', World.depth world')
  = (World.width world, World.height world, World.depth world) /\
  (forall x y z : Z,
     world_get_block world' x y z
     = default (world_get_block world x y z)
         (house_plan (x - hx) (y - hy) (z - hz))) /\
  world_is_valid_position world hx hy (hz - 1) = true /\
  world_get_block world hx hy (hz - 1) <> BLOCK_AIR /\
  (forall z : Z, 0 <= z < hz - 1 -> world_get_block world hx hy z = BLOCK_AIR).
Proof.
  intros Hshape Hcorner Hx Hy Hz world'. unfold house_corner in Hcorner.
  cbv zeta in Hcorner. injection Hcorner as Ehx Ehy Ehz.
  assert (Eworld : world' = apply_writes world hx hy hz house_writes).
  { unfold world', world_generate_structures. cbv zeta. rewrite Ehz, Ehx, Ehy.
    replace ((World.width world <=? hx + house_width)
             || (World.height world <=? hy + house_length)
             || (World.depth world <=? hz + house_height)) with false
      by (symmetry; rewrite !orb_false_iff, !Z.leb_gt; lia).
    rewrite <- (Z.add_0_r hz) at 1. apply generate_as_writes. }
  clearbody world'. subst world'. rewrite Ehx, Ehy in Ehz.
  pose proof (find_ground_ge (Z.to_nat (World.depth world)) world hx hy 0) as Hge.
  assert (Hhx : 0 <= hx)
    by (unfold house_width in Hx; Z.quot_rem_to_equations; lia).
  assert (Hhy : 0 <= hy)
    by (unfold house_length in Hy; Z.quot_rem_to_equations; lia).
  unfold house_width, house_length, house_height in *.
  assert (Hvalid :
    Forall (fun '(x, y, z, _) =>
              world_is_valid_position world (hx + x) (hy + y) (hz + z) = true)
      house_writes).
  { eapply Forall_impl; [|exact house_writes_in_box].
    intros [[[x y] z] type] Hbox. apply valid_position_spec. lia. }
  destruct (apply_writes_lookup world hx hy hz house_writes Hshape Hvalid)
    as (Hshape' & _ & Hdims' & Hget').
  split; [exact Hshape'|]. split; [exact Hdims'|].
  split; [by intros x y z; rewrite Hget', house_writes_plan|].
  destruct (find_ground_stop (Z.to_nat (World.depth world)) world hx hy 0)
    as [Hair Hstop].
  assert (Hbelow : world_is_valid_position world hx hy (hz - 1) = true)
    by (apply valid_position_spec; lia).
  assert (Hcol : forall z : Z, 0 <= z <= hz - 1 ->
                   world_get_block world hx hy z = block_at world hx hy z).
  { intros z Hz'. unfold world_get_block.
    replace (world_is_valid_position world hx hy z) with true; [done|].
    symmetry. apply valid_position_spec. lia. }
  split; [exact Hbelow|]. split.
  - rewrite Hcol by lia.
    replace (hz - 1)
      with (find_ground (Z.to_nat (World.depth world)) world hx hy 0) by lia.
    cbv zeta in Hstop.
    rewrite andb_false_iff, Z.ltb_ge, Z.eqb_neq in Hstop.
    destruct Hstop as [Hd|Hne]; [lia|lia|exact Hne].
  - intros z Hz'. rewrite Hcol by lia. apply Hair. lia.
Qed.

Lemma house_is_built_witness :
  grid_shaped stone_floor /\
  house_corner stone_floor = (8, 10, 1) /\
  world_get_block (world_generate_structures stone_floor) 8 10 1 = BLOCK_WOOD /\
  world_get_block (world_generate_structures stone_floor) 8 10 2 = BLOCK_BRICK /\
  world_get_block (world_generate_structures stone_floor) 11 10 2 = BLOCK_AIR /\
  world_get_block (world_generate_structures stone_floor) 14 18 3 = BLOCK_BRICK /\
  world_get_block (world_generate_structures stone_floor) 0 0 0 = BLOCK_STONE.
Proof.
  assert (Hshape : grid_shaped stone_floor) by (vm_compute; repeat constructor).
  assert (Hcorner : house_corner stone_floor = (8, 10, 1)) by reflexivity.
  split; [exact Hshape|]. split; [exact Hcorner|].
  destruct (house_is_built stone_floor 8 10 1 Hshape Hcorner)
    as (_ & _ & Hget & _); [reflexivity|reflexivity|reflexivity|].
  rewrite !Hget. repeat split; reflexivity.
Defined.

(** * Drawing *)

Lemma outside_spec (renderer : Renderer) (x y : Z) :
  (x <? 0) || (Framebuffer.width (Renderer.framebuffer renderer) <=? x)
  || (y <? 0) || (Framebuffer.height (Renderer.framebuffer renderer) <=? y)
  = false
  <-> inside renderer x y.
Proof.
  unfold inside. rewrite !orb_false_iff, !Z.ltb_ge, !Z.leb_gt. lia.
Qed.

Lemma set_pixel_shaped (renderer : Renderer) (x y c fg bg : Z) :
  framebuffer_shaped renderer ->
  framebuffer_shaped (renderer_set_pixel renderer x y c fg bg).
Proof.
  unfold renderer_set_pixel, framebuffer_shaped. cbv zeta.
  destruct (_ || _); [done|]. simpl. by rewrite !length_insert.
Qed.

Lemma set_pixel_size (renderer : Renderer) (x y c fg bg : Z) :
  Framebuffer.width (Renderer.framebuffer (renderer_set_pixel renderer x y c fg bg))
  = Framebuffer.width (Renderer.framebuffer renderer) /\
  Framebuffer.height (Renderer.framebuffer (renderer_set_pixel renderer x y c fg bg))
  = Framebuffer.height (Renderer.framebuffer renderer).
Proof.
  unfold renderer_set_pixel. cbv zeta. by destruct (_ || _).
Qed.

Lemma set_pixel_inside (renderer : Renderer) (x y c fg bg x' y' : Z) :
  inside (renderer_set_pixel renderer x y c fg bg) x' y' <-> inside renderer x' y'.
Proof.
  unfold inside. destruct (set_pixel_size renderer x y c fg bg) as [-> ->]. done.
Qed.

(** Reading the framebuffer after a write. *)
Lemma set_pixel_lookup (renderer : Renderer) (x y c fg bg x' y' : Z) :
  framebuffer_shaped renderer ->
  pixel (renderer_set_pixel renderer x y c fg bg) x' y'
  = if decide (inside renderer x y /\ (x', y') = (x, y)) then Some (c, fg, bg)
    else pixel renderer x' y'.
Proof.
  intros (Hc & Hf & Hb). unfold pixel. cbv zeta.
  destruct (set_pixel_size renderer x y c fg bg) as [-> ->].
  unfold renderer_set_pixel. cbv zeta.
  destruct ((x <? 0) || _ || _ || _) eqn:Hout.
  { destruct (decide _) as [[Hin _]|_]; [|done].
    apply outside_spec in Hin. congruence. }
  apply outside_spec in Hout. destruct Hout as [Hx Hy]. simpl.
  set (w := Framebuffer.width (Renderer.framebuffer renderer)) in *.
  set (h := Framebuffer.height (Renderer.framebuffer renderer)) in *.
  destruct ((x' <? 0) || _ || _ || _) eqn:Hout'.
  { destruct (decide _) as [[_ Heq]|_]; [|done].
    injection Heq as -> ->.
    rewrite !orb_true_iff, !Z.ltb_lt, !Z.leb_le in Hout'. lia. }
  rewrite !orb_false_iff, !Z.ltb_ge, !Z.leb_gt in Hout'.
  destruct (decide _) as [[_ Heq]|Hne].
  - injection Heq as -> ->.
    rewrite !list_lookup_insert_eq by (rewrite ?Hc, ?Hf, ?Hb; nia). done.
  - rewrite !list_lookup_insert_ne; [done|..];
      intros Heq; apply Hne; (split; [done|]);
      assert (0 <= y * w) by nia; assert (0 <= y' * w) by nia;
      assert (y' * w + x' = y * w + x) by lia;
      assert (y' = y) by nia; f_equal; lia.
Qed.
(** ** Bresenham's line *)

Lemma wrap_int_small (n : Z) : INT_MIN <= n <= INT_MAX -> wrap_int n = n.
Proof.
  unfold wrap_int, INT_MIN, INT_MAX. intros Hn. rewrite Z.mod_small; lia.
Qed.

(** With [a] steps made along X and [b] along Y, the error term of the
    loop is dx - dy - a dy + b dx; it lets the loop step along an axis
    only while that axis has steps left. *)
Lemma line_x_room (dx dy a b err : Z) :
  0 <= dx -> 0 <= dy -> 0 <= a <= dx -> 0 <= b <= dy ->
  err = dx - dy - a * dy + b * dx ->
  ~ (a = dx /\ b = dy) -> - dy < 2 * err -> a < dx.
Proof.
  intros Hdx Hdy Ha Hb Herr Hend Hstep.
  destruct (decide (a = dx)) as [->|]; [|lia].
  assert (Hb' : b < dy) by lia.
  assert (0 <= dx * (dy - 1 - b)) by nia. nia.
Qed.

Lemma line_y_room (dx dy a b err : Z) :
  0 <= dx -> 0 <= dy -> 0 <= a <= dx -> 0 <= b <= dy ->
  err = dx - dy - a * dy + b * dx ->
  ~ (a = dx /\ b = dy) -> 2 * err < dx -> b < dy.
Proof.
  intros Hdx Hdy Ha Hb Herr Hend Hstep.
  destruct (decide (b = dy)) as [->|]; [|lia].
  assert (Ha' : a < dx) by lia.
  assert (0 <= dy * (dx - 1 - a)) by nia. nia.
Qed.

(** The loop between two end points that are values of type [int], no
    more than a third of [INT_MAX] apart along either axis: twice the
    error term stays between -3 dy and 3 dx, so that no operation of the
    loop leaves the range of [int]. *)
Section Line.
Variables c fg bg : Z.
Variables X1 Y1 x2 y2 dx dy sx sy : Z.
Hypothesis Hdx : 0 <= dx.
Hypothesis Hdy : 0 <= dy.
Hypothesis Hsx : sx = 1 \/ sx = -1.
Hypothesis Hsy : sy = 1 \/ sy = -1.
Hypothesis Hx2 : x2 = X1 + sx * dx.
Hypothesis Hy2 : y2 = Y1 + sy * dy.
Hypothesis HX1 : - 2147483648 <= X1 <= 2147483647.
Hypothesis HY1 : - 2147483648 <= Y1 <= 2147483647.
Hypothesis Hx2' : - 2147483648 <= x2 <= 2147483647.
Hypothesis Hy2' : - 2147483648 <= y2 <= 2147483647.
Hypothesis Hdx3 : 3 * dx <= 2147483647.
Hypothesis Hdy3 : 3 * dy <= 2147483647.

Lemma wrap_int_id (n : Z) : - 2147483648 <= n <= 2147483647 -> wrap_int n = n.
Proof. apply wrap_int_small. Qed.

Lemma draw_line_loop_spec (n : nat) :
  forall (fuel : nat) (renderer : Renderer) (a b x1 y1 err : Z),
    framebuffer_shaped renderer ->
    0 <= a <= dx -> 0 <= b <= dy ->
    x1 = X1 + sx * a -> y1 = Y1 + sy * b ->
    err = dx - dy - a * dy + b * dx ->
    - 3 * dy <= 2 * err <= 3 * dx ->
    (dx - a) + (dy - b) <= Z.of_nat n -> (n < fuel)%nat ->
    exists renderer' : Renderer,
      draw_line_loop fuel renderer x1 y1 x2 y2 dx dy sx sy err c fg bg
      = Some renderer' /\
      framebuffer_shaped renderer' /\
      (forall x y : Z, inside renderer' x y <-> inside renderer x y) /\
      (inside renderer x1 y1 -> pixel renderer' x1 y1 = Some (c, fg, bg)) /\
      (inside renderer x2 y2 -> pixel renderer' x2 y2 = Some (c, fg, bg)) /\
      forall x y : Z,
        pixel renderer' x y = pixel renderer x y \/
        (pixel renderer' x y = Some (c, fg, bg) /\
         Z.min X1 x2 <= x <= Z.max X1 x2 /\ Z.min Y1 y2 <= y <= Z.max Y1 y2).
Proof.
  induction n as [|n IH];
    intros fuel renderer a b x1 y1 err Hshape Ha Hb Ex Ey Eerr Hbound Hn Hfuel;
    (destruct fuel as [|fuel]; [lia|]); cbn [draw_line_loop]; cbv zeta;
    set (r1 := renderer_set_pixel renderer x1 y1 c fg bg);
    pose proof (set_pixel_shaped renderer x1 y1 c fg bg Hshape) as Hshape1;
    pose proof (fun x y => set_pixel_inside renderer x1 y1 c fg bg x y) as Hin1;
    pose proof (fun x y => set_pixel_lookup renderer x1 y1 c fg bg x y Hshape)
      as Hpix1;
    fold r1 in Hshape1, Hin1, Hpix1;
    assert (Hbox : Z.min X1 x2 <= x1 <= Z.max X1 x2
                   /\ Z.min Y1 y2 <= y1 <= Z.max Y1 y2)
      by (destruct Hsx as [-> | ->], Hsy as [-> | ->]; lia);
    assert (Hend : (x1 =? x2) && (y1 =? y2) = true <-> a = dx /\ b = dy)
      by (rewrite andb_true_iff, !Z.eqb_eq;
          destruct Hsx as [-> | ->], Hsy as [-> | ->]; lia);
    destruct ((x1 =? x2) && (y1 =? y2)) eqn:Eend.
  (* n = 0, at the end *)
  1, 3: (apply proj1 in Hend; destruct (Hend eq_refl) as [-> ->];
         assert (x1 = x2 /\ y1 = y2) as [Ex2 Ey2] by lia;
         exists r1; split; [done|]; split; [done|]; split; [done|];
         split; [by intros Hin; rewrite Hpix1, decide_True|];
         split; [by intros Hin; rewrite Hpix1, decide_True; subst|];
         intros x y; rewrite Hpix1;
         destruct (decide _) as [[_ [= -> ->]]|_]; [by right|by left]).
  (* n = 0, not at the end: impossible *)
  - assert (Hne : ~ (a = dx /\ b = dy)) by (rewrite <- Hend; done). lia.
  (* a step *)
  - assert (Hne : ~ (a = dx /\ b = dy)) by (rewrite <- Hend; done).
    pose proof (line_x_room dx dy a b err Hdx Hdy Ha Hb Eerr Hne) as Hxroom.
    pose proof (line_y_room dx dy a b err Hdx Hdy Ha Hb Eerr Hne) as Hyroom.
    rewrite (wrap_int_id (2 * err)) by lia.
    rewrite (wrap_int_id (- dy)) by lia.
    destruct (Z.ltb_spec (- dy) (2 * err)) as [Hstepx|Hstepx]; cbv beta iota;
      destruct (Z.ltb_spec (2 * err) dx) as [Hstepy|Hstepy]; cbv beta iota;
      try lia.
    + assert (Hx1 : Z.min X1 x2 <= x1 + sx <= Z.max X1 x2)
        by (specialize (Hxroom Hstepx); destruct Hsx as [-> | ->]; lia).
      assert (Hy1 : Z.min Y1 y2 <= y1 + sy <= Z.max Y1 y2)
        by (specialize (Hyroom Hstepy); destruct Hsy as [-> | ->]; lia).
      rewrite (wrap_int_id (err - dy)) by lia.
      rewrite (wrap_int_id (x1 + sx)) by lia.
      rewrite (wrap_int_id (err - dy + dx)) by lia.
      rewrite (wrap_int_id (y1 + sy)) by lia.
      destruct (IH fuel r1 (a + 1) (b + 1) (x1 + sx) (y1 + sy) (err - dy + dx))
        as (r' & Hrun & Hshape' & Hin' & _ & Hend' & Hpix');
        [done|lia|lia|lia|lia|nia|lia|lia|lia|].
      exists r'. split; [done|]. split; [done|].
      split; [by intros x y; rewrite Hin', Hin1|].
      split; [|split; [by rewrite <- Hin1|]].
      * intros Hin. destruct (Hpix' x1 y1) as [->|[-> _]]; [|done].
        by rewrite Hpix1, decide_True.
      * intros x y. destruct (Hpix' x y) as [->|[-> ?]]; [|by right].
        rewrite Hpix1. destruct (decide _) as [[_ [= -> ->]]|_];
          [by right|by left].
    + assert (Hx1 : Z.min X1 x2 <= x1 + sx <= Z.max X1 x2)
        by (specialize (Hxroom Hstepx); destruct Hsx as [-> | ->]; lia).
      rewrite (wrap_int_id (err - dy)) by lia.
      rewrite (wrap_int_id (x1 + sx)) by lia.
      destruct (IH fuel r1 (a + 1) b (x1 + sx) y1 (err - dy))
        as (r' & Hrun & Hshape' & Hin' & _ & Hend' & Hpix');
        [done|lia|lia|lia|lia|nia|lia|lia|lia|].
      exists r'. split; [done|]. split; [done|].
      split; [by intros x y; rewrite Hin', Hin1|].
      split; [|split; [by rewrite <- Hin1|]].
      * intros Hin. destruct (Hpix' x1 y1) as [->|[-> _]]; [|done].
        by rewrite Hpix1, decide_True.
      * intros x y. destruct (Hpix' x y) as [->|[-> ?]]; [|by right].
        rewrite Hpix1. destruct (decide _) as [[_ [= -> ->]]|_];
          [by right|by left].
    + assert (Hy1 : Z.min Y1 y2 <= y1 + sy <= Z.max Y1 y2)
        by (specialize (Hyroom Hstepy); destruct Hsy as [-> | ->]; lia).
      rewrite (wrap_int_id (err + dx)) by lia.
      rewrite (wrap_int_id (y1 + sy)) by lia.
      destruct (IH fuel r1 a (b + 1) x1 (y1 + sy) (err + dx))
        as (r' & Hrun & Hshape' & Hin' & _ & Hend' & Hpix');
        [done|lia|lia|lia|lia|nia|lia|lia|lia|].
      exists r'. split; [done|]. split; [done|].
      split; [by intros x y; rewrite Hin', Hin1|].
      split; [|split; [by rewrite <- Hin1|]].
      * intros Hin. destruct (Hpix' x1 y1) as [->|[-> _]]; [|done].
        by rewrite Hpix1, decide_True.
      * intros x y. destruct (Hpix' x y) as [->|[-> ?]]; [|by right].
        rewrite Hpix1. destruct (decide _) as [[_ [= -> ->]]|_];
          [by right|by left].
Qed.
End Line.

(** X21. Bresenham's line ends. For end points that are values of type
    [int] and no more than a third of [INT_MAX] apart along either axis
    (no operation of the loop then leaves the range of [int]),
    [renderer_draw_line] leaves its loop after at most
    |x2 - x1| + |y2 - y1| + 1 iterations. Afterwards the buffers have the
    sizes they had, both end points show the character and the colours of
    the line where they lie inside the framebuffer, and every pixel either
    shows what it showed or shows the line and lies in the rectangle
    spanned by the end points. *)
Theorem draw_line_reaches_end (fuel : nat) (renderer : Renderer)
    (x1 y1 x2 y2 c fg bg : Z) :
  framebuffer_shaped renderer ->
  INT_MIN <= x1 <= INT_MAX -> INT_MIN <= y1 <= INT_MAX ->
  INT_MIN <= x2 <= INT_MAX -> INT_MIN <= y2 <= INT_MAX ->
  3 * Z.abs (x2 - x1) <= INT_MAX -> 3 * Z.abs (y2 - y1) <= INT_MAX ->
  (Z.to_nat (Z.abs (x2 - x1) + Z.abs (y2 - y1)) < fuel)%nat ->
  exists renderer' : Renderer,
    renderer_draw_line fuel renderer x1 y1 x2 y2 c fg bg = Some renderer' /\
    framebuffer_shaped renderer' /\
    (forall x y : Z, inside renderer' x y <-> inside renderer x y) /\
    (inside renderer x1 y1 -> pixel renderer' x1 y1 = Some (c, fg, bg)) /\
    (inside renderer x2 y2 -> pixel renderer' x2 y2 = Some (c, fg, bg)) /\
    forall x y : Z,
      pixel renderer' x y = pixel renderer x y \/
      (pixel renderer' x y = Some (c, fg, bg) /\
       Z.min x1 x2 <= x <= Z.max x1 x2 /\ Z.min y1 y2 <= y <= Z.max y1 y2).
Proof.
  unfold INT_MIN, INT_MAX.
  change (- 2 ^ 31) with (- 2147483648). change (2 ^ 31 - 1) with 2147483647.
  intros Hshape Hx1 Hy1 Hx2 Hy2 Hdx Hdy Hfuel.
  unfold renderer_draw_line, abs_int. cbv zeta.
  rewrite (wrap_int_id (x2 - x1)) by lia.
  rewrite (wrap_int_id (y2 - y1)) by lia.
  rewrite (wrap_int_id (Z.abs (x2 - x1))) by lia.
  rewrite (wrap_int_id (Z.abs (y2 - y1))) by lia.
  rewrite (wrap_int_id (Z.abs (x2 - x1) - Z.abs (y2 - y1))) by lia.
  apply (draw_line_loop_spec c fg bg x1 y1 x2 y2 (Z.abs (x2 - x1))
           (Z.abs (y2 - y1)) (if x1 <? x2 then 1 else -1)
           (if y1 <? y2 then 1 else -1))
    with (n := Z.to_nat (Z.abs (x2 - x1) + Z.abs (y2 - y1))) (a := 0) (b := 0);
    try done; try lia.
  - destruct (x1 <? x2); auto.
  - destruct (y1 <? y2); auto.
  - destruct (Z.ltb_spec x1 x2); lia.
  - destruct (Z.ltb_spec y1 y2); lia.
Qed.

Lemma small_screen_shaped : framebuffer_shaped small_screen.
Proof. by vm_compute. Qed.

Lemma draw_line_reaches_end_witness :
  framebuffer_shaped small_screen /\
  (Z.to_nat (Z.abs (7 - 0) + Z.abs (3 - 0)) < 11)%nat /\
  exists renderer' : Renderer,
    renderer_draw_line 11 small_screen 0 0 7 3 42 COLOR_WHITE COLOR_BLACK
    = Some renderer' /\
    pixel renderer' 0 0 = Some (42, COLOR_WHITE, COLOR_BLACK) /\
    pixel renderer' 7 3 = Some (42, COLOR_WHITE, COLOR_BLACK).
Proof.
  assert (Hfuel : (Z.to_nat (Z.abs (7 - 0) + Z.abs (3 - 0)) < 11)%nat)
    by (vm_compute; lia).
  split; [exact small_screen_shaped|]. split; [exact Hfuel|].
  destruct (draw_line_reaches_end 11 small_screen 0 0 7 3 42 COLOR_WHITE
              COLOR_BLACK small_screen_shaped)
    as (renderer' & Hrun & _ & _ & Hstart & Hend & _);
    [vm_compute; try split; discriminate ..|exact Hfuel|].
  exists renderer'. split; [exact Hrun|].
  split; [apply Hstart|apply Hend]; vm_compute; repeat split; discriminate.
Defined.

(** X22. Writing a pixel and reading the framebuffer back: a write inside
    the framebuffer changes the pixel written, which then shows the
    character and the colours given, and no other; a write outside of it
    changes nothing. The buffers keep their sizes. *)
Theorem pixel_after_set (renderer : Renderer) (x y c fg bg x' y' : Z) :
  framebuffer_shaped renderer ->
  pixel (renderer_set_pixel renderer x y c fg bg) x' y'
  = (if decide (inside renderer x y /\ (x', y') = (x, y)) then Some (c, fg, bg)
     else pixel renderer x' y') /\
  framebuffer_shaped (renderer_set_pixel renderer x y c fg bg) /\
  (~ inside renderer x y -> renderer_set_pixel renderer x y c fg bg = renderer).
Proof.
  intros Hshape. split; [by apply set_pixel_lookup|].
  split; [by apply set_pixel_shaped|].
  intros Hout. unfold renderer_set_pixel. cbv zeta.
  destruct (_ || _) eqn:E; [done|]. by apply outside_spec in E.
Qed.

Lemma pixel_after_set_witness :
  framebuffer_shaped small_screen /\
  pixel (renderer_set_pixel small_screen 3 2 35 COLOR_RED COLOR_BLACK) 3 2
  = Some (35, COLOR_RED, COLOR_BLACK) /\
  pixel (renderer_set_pixel small_screen 3 2 35 COLOR_RED COLOR_BLACK) 2 3
  = pixel small_screen 2 3 /\
  renderer_set_pixel small_screen 8 2 35 COLOR_RED COLOR_BLACK = small_screen.
Proof.
  split; [exact small_screen_shaped|].
  destruct (pixel_after_set small_screen 3 2 35 COLOR_RED COLOR_BLACK 3 2
              small_screen_shaped) as (E1 & _ & _).
  destruct (pixel_after_set small_screen 3 2 35 COLOR_RED COLOR_BLACK 2 3
              small_screen_shaped) as (E2 & _ & _).
  destruct (pixel_after_set small_screen 8 2 35 COLOR_RED COLOR_BLACK 0 0
              small_screen_shaped) as (_ & _ & E3).
  split; [rewrite E1; reflexivity|]. split; [rewrite E2; reflexivity|].
  apply E3. vm_compute. intros [[_ H] _]. discriminate H.
Defined.

(** A run of pairs of writes, one pair for each element of a list. *)
Lemma set_pixels_lookup {A : Type} (p1 p2 : A -> Z * Z) (c fg bg : Z) (l : list A) :
  forall renderer : Renderer,
    framebuffer_shaped renderer ->
    let renderer' :=
      foldl (fun renderer i =>
               renderer_set_pixel
                 (renderer_set_pixel renderer (p1 i).1 (p1 i).2 c fg bg)
                 (p2 i).1 (p2 i).2 c fg bg) renderer l in
    framebuffer_shaped renderer' /\
    (forall x y : Z, inside renderer' x y <-> inside renderer x y) /\
    forall x y : Z,
      ((exists i : A, i ∈ l /\ ((x, y) = p1 i \/ (x, y) = p2 i)) ->
       inside renderer x y -> pixel renderer' x y = Some (c, fg, bg)) /\
      (~ (exists i : A, i ∈ l /\ ((x, y) = p1 i \/ (x, y) = p2 i)) ->
       pixel renderer' x y = pixel renderer x y).
Proof.
  induction l as [|i l IH] using rev_ind; intros renderer Hshape.
  - cbv zeta. simpl. split; [done|]. split; [done|]. intros x y. split.
    + intros (i & Hi & _). by apply elem_of_nil in Hi.
    + done.
  - cbv zeta. rewrite foldl_app. cbn [foldl].
    destruct (IH renderer Hshape) as (Hshape' & Hin' & Hpix'). clear IH.
    set (r := foldl _ renderer l) in *.
    destruct (p1 i) as [x1 y1] eqn:E1, (p2 i) as [x2 y2] eqn:E2. cbn [fst snd].
    pose proof (set_pixel_shaped r x1 y1 c fg bg Hshape') as Hs1.
    split; [by apply set_pixel_shaped|].
    split; [by intros x y; rewrite !set_pixel_inside|].
    intros x y.
    rewrite (set_pixel_lookup _ x2 y2 c fg bg x y Hs1).
    rewrite (set_pixel_lookup _ x1 y1 c fg bg x y Hshape').
    split.
    + intros (j & Hj & Hxy) Hin.
      destruct (decide (inside _ x2 y2 /\ (x, y) = (x2, y2))) as [|Hn2]; [done|].
      destruct (decide (inside r x1 y1 /\ (x, y) = (x1, y1))) as [|Hn1]; [done|].
      apply elem_of_app in Hj as [Hj|Hj].
      * apply (proj1 (Hpix' x y)); [by exists j|done].
      * apply list_elem_of_singleton in Hj as ->. rewrite E1, E2 in Hxy.
        rewrite set_pixel_inside in Hn2. rewrite <- Hin' in Hin.
        destruct Hxy as [[= -> ->]|[= -> ->]]; tauto.
    + intros Hnone.
      destruct (decide (inside _ x2 y2 /\ (x, y) = (x2, y2))) as [[_ Heq]|_].
      { exfalso. apply Hnone. exists i. rewrite E2.
        split; [apply elem_of_app; right; by apply list_elem_of_singleton|by right]. }
      destruct (decide (inside r x1 y1 /\ (x, y) = (x1, y1))) as [[_ Heq]|_].
      { exfalso. apply Hnone. exists i. rewrite E1.
        split; [apply elem_of_app; right; by apply list_elem_of_singleton|by left]. }
      apply (proj2 (Hpix' x y)). intros (j & Hj & Hxy). apply Hnone.
      exists j. split; [apply elem_of_app; by left|done].
Qed.

(** X23. The outline of a rectangle. After [renderer_draw_rect] the
    pixels of the framebuffer that lie on the two rows y and y + h - 1
    between the columns x and x + w - 1, or on the two columns x and
    x + w - 1 between the rows y and y + h - 1, show the character and
    the colours given; every other pixel shows what it showed. *)
Theorem draw_rect_outline (renderer : Renderer) (x y w h c fg bg : Z) :
  framebuffer_shaped renderer ->
  let renderer' := renderer_draw_rect renderer x y w h c fg bg in
  let on_outline (x' y' : Z) :=
    (x <= x' < x + w /\ (y' = y \/ y' = y + h - 1)) \/
    (y <= y' < y + h /\ (x' = x \/ x' = x + w - 1)) in
  framebuffer_shaped renderer' /\
  forall x' y' : Z,
    (on_outline x' y' -> inside renderer x' y' ->
     pixel renderer' x' y' = Some (c, fg, bg)) /\
    (~ on_outline x' y' -> pixel renderer' x' y' = pixel renderer x' y').
Proof.
  intros Hshape renderer' on_outline. unfold renderer', renderer_draw_rect.
  cbv zeta.
  destruct (set_pixels_lookup (fun i => (x + i, y)) (fun i => (x + i, y + h - 1))
              c fg bg (seqZ 0 w) renderer Hshape) as (Hs1 & Hin1 & Hpix1).
  cbn [fst snd] in *. set (r1 := foldl _ renderer (seqZ 0 w)) in *.
  destruct (set_pixels_lookup (fun i => (x, y + i)) (fun i => (x + w - 1, y + i))
              c fg bg (seqZ 0 h) r1 Hs1) as (Hs2 & Hin2 & Hpix2).
  cbn [fst snd] in *. set (r2 := foldl _ r1 (seqZ 0 h)) in *.
  split; [exact Hs2|]. intros x' y'.
  assert (Hrows : (exists i : Z, i ∈ seqZ 0 w /\
                     ((x', y') = (x + i, y) \/ (x', y') = (x + i, y + h - 1)))
                  <-> x <= x' < x + w /\ (y' = y \/ y' = y + h - 1)).
  { split.
    - intros (i & Hi & Heq). apply elem_of_seqZ in Hi.
      destruct Heq as [[= -> ->]|[= -> ->]]; lia.
    - intros [Hx Hy]. exists (x' - x). split; [apply elem_of_seqZ; lia|].
      destruct Hy as [-> | ->]; [left|right]; f_equal; lia. }
  assert (Hcols : (exists i : Z, i ∈ seqZ 0 h /\
                     ((x', y') = (x, y + i) \/ (x', y') = (x + w - 1, y + i)))
                  <-> y <= y' < y + h /\ (x' = x \/ x' = x + w - 1)).
  { split.
    - intros (i & Hi & Heq). apply elem_of_seqZ in Hi.
      destruct Heq as [[= -> ->]|[= -> ->]]; lia.
    - intros [Hy Hx]. exists (y' - y). split; [apply elem_of_seqZ; lia|].
      destruct Hx as [-> | ->]; [left|right]; f_equal; lia. }
  destruct (Hpix1 x' y') as [Hset1 Hkeep1], (Hpix2 x' y') as [Hset2 Hkeep2].
  rewrite Hrows in Hset1, Hkeep1. rewrite Hcols in Hset2, Hkeep2.
  unfold on_outline. split.
  - intros Hon Hin.
    destruct (decide (y <= y' < y + h /\ (x' = x \/ x' = x + w - 1))) as [Hc|Hc].
    + apply Hset2; [done|by apply Hin1].
    + rewrite Hkeep2 by done. apply Hset1; [tauto|done].
  - intros Hoff. rewrite Hkeep2, Hkeep1 by tauto. done.
Qed.

Lemma draw_rect_outline_witness :
  framebuffer_shaped small_screen /\
  let renderer' := renderer_draw_rect small_screen 1 1 4 3 35 COLOR_WHITE COLOR_BLUE in
  pixel renderer' 1 1 = Some (35, COLOR_WHITE, COLOR_BLUE) /\
  pixel renderer' 4 3 = Some (35, COLOR_WHITE, COLOR_BLUE) /\
  pixel renderer' 2 2 = pixel small_screen 2 2.
Proof.
  split; [exact small_screen_shaped|].
  destruct (draw_rect_outline small_screen 1 1 4 3 35 COLOR_WHITE COLOR_BLUE
              small_screen_shaped) as [_ Hpix].
  cbv zeta in *.
  split; [|split].
  - apply (proj1 (Hpix 1 1)); [lia|]. vm_compute. repeat split; discriminate.
  - apply (proj1 (Hpix 4 3)); [lia|]. vm_compute. repeat split; discriminate.
  - apply (proj2 (Hpix 2 2)). lia.
Defined.

(** * Further edge cases *)

(** X24. A yaw that 2 pi is absorbed by. When the new yaw is at least
    2 pi and so large that subtracting 2 pi gives the same [float] back,
    the first loop of [player_rotate] never ends: the function does not
    return, whatever the number of iterations allowed. *)
Theorem rotate_never_returns (fuel : nat) (player : Player) (pitch yaw : float) :
  let y := (v2_y (Player.rotation player) + yaw)%flt in
  yaw_too_big y = true ->
  yaw_down y = y ->
  player_rotate fuel player pitch yaw = None.
Proof.
  intros y Hbig Hsame. unfold player_rotate. cbv zeta. fold y.
  by rewrite (while_do_stuck yaw_too_big yaw_down y Hbig Hsame fuel).
Qed.

Lemma rotate_never_returns_witness :
  let y := (v2_y (Player.rotation row_player) + huge_yaw)%flt in
  yaw_too_big y = true /\ yaw_down y = y /\
  player_rotate 1000 row_player F32.zero huge_yaw = None.
Proof.
  assert (Hbig : yaw_too_big (v2_y (Player.rotation row_player) + huge_yaw)%flt
                 = true) by (vm_compute; reflexivity).
  assert (Hsame : yaw_down (v2_y (Player.rotation row_player) + huge_yaw)%flt
                  = (v2_y (Player.rotation row_player) + huge_yaw)%flt)
    by (vm_compute; reflexivity).
  split; [exact Hbig|]. split; [exact Hsame|].
  exact (rotate_never_returns 1000 row_player F32.zero huge_yaw Hbig Hsame).
Defined.

Lemma fresh_world_fits (width height depth : Z) :
  0 <= width < 2 ^ 31 -> 0 <= height < 2 ^ 31 -> 0 <= depth < 2 ^ 31 ->
  world_fits_format (fresh_world width height depth).
Proof.
  intros Hw Hh Hd. split; [apply fresh_world_shaped|].
  split; [done|]. split; [done|]. split; [done|]. split; [|split].
  - simpl. apply Forall_replicate, Forall_replicate, Forall_replicate.
    unfold BLOCK_AIR. lia.
  - vm_compute. reflexivity.
  - vm_compute. reflexivity.
Qed.

(** X25. A world that has just been created survives the file: for
    dimensions that an [int] holds and that are not negative, loading the
    file [world_save] writes for it gives the very world [world_create]
    returns. *)
Theorem created_world_reloads (width height depth : Z) :
  0 <= width < 2 ^ 31 -> 0 <= height < 2 ^ 31 -> 0 <= depth < 2 ^ 31 ->
  (world ← world_create true width height depth;
   world_load true (world_save world))
  = world_create true width height depth.
Proof.
  intros Hw Hh Hd. unfold world_create. bind_step.
  rewrite world_load_saved by (by apply fresh_world_fits). reflexivity.
Qed.

Lemma created_world_reloads_witness :
  0 <= 64 < 2 ^ 31 /\ 0 <= 64 < 2 ^ 31 /\ 0 <= 16 < 2 ^ 31 /\
  (world ← world_create true 64 64 16; world_load true (world_save world))
  = world_create true 64 64 16.
Proof.
  assert (H64 : 0 <= 64 < 2 ^ 31) by (split; [discriminate|reflexivity]).
  assert (H16 : 0 <= 16 < 2 ^ 31) by (split; [discriminate|reflexivity]).
  split; [exact H64|]. split; [exact H64|]. split; [exact H16|].
  exact (created_world_reloads 64 64 16 H64 H64 H16).
Defined.

(** X26. The distance of a hit is not bounded by the maximum distance:
    the loop compares the distance of the boundary crossed last with it,
    and then enters the next cell. There are a grid and a ray whose hit
    is reported at a distance above the maximum distance given. *)
Theorem hit_beyond_max_distance (U : Utils) :
  exists (world : World) (position direction : Vector3) (max_distance : float)
         (hit : RayHit),
    (forall fuel : nat,
       (cast_ray_fuel world <= fuel)%nat ->
       cast_ray fuel world position direction max_distance = Some hit) /\
    RayHit.hit hit = 1 /\
    F32.ltb max_distance (RayHit.distance hit) = true.
Proof.
  destruct (cast_ray_complete row_one_block cell_centre
              (vec3_create F32.one F32.zero F32.zero) F32.one)
    as [hit Hhit]; [vm_compute; reflexivity|].
  exists row_one_block, cell_centre, (vec3_create F32.one F32.zero F32.zero),
    F32.one, hit.
  split; [exact Hhit|].
  assert (E : (fun h => (RayHit.hit h, F32.ltb F32.one (RayHit.distance h)))
              <$> cast_ray (cast_ray_fuel row_one_block) row_one_block cell_centre
                    (vec3_create F32.one F32.zero F32.zero) F32.one
              = Some (1, true)) by (vm_compute; reflexivity).
  rewrite (Hhit _ (le_n _)) in E. simpl in E. by injection E.
Qed.

Lemma fread_int_header (file : list byte) :
  fread_int file
  = if decide (4 <= length file)%nat
    then Some (decode_int32 (take 4 file), drop 4 file) else None.
Proof. unfold fread_int, fread. by destruct (decide _). Qed.

(** X27. A negative width never loads. When the header of a file gives
    a negative width and a positive height and depth, [world_load]
    returns no world, whatever follows in the file and whether or not
    memory can be had: an allocation of [world_create] fails, or else the
    read of a row would (its count, converted to [size_t], is more than
    any file holds). *)
Theorem load_negative_width (mem_ok : bool) (file : list byte)
    (width height depth : Z) :
  header file = (width, height, depth) ->
  width < 0 -> 0 < height -> 0 < depth ->
  world_load mem_ok file = None.
Proof.
  unfold header. intros [= Ew Eh Ed] Hw Hh Hd. unfold world_load.
  rewrite fread_int_header.
  destruct (decide (4 <= length file)%nat); [|done]. bind_step.
  rewrite fread_int_header.
  destruct (decide (4 <= length (drop 4 file))%nat); [|done]. bind_step.
  rewrite fread_int_header.
  destruct (decide (4 <= length (drop 4 (drop 4 file)))%nat); [|done]. bind_step.
  rewrite drop_drop in *. change (4 + 4)%nat with 8%nat in *.
  rewrite Ew, Eh, Ed.
  unfold world_create. destruct mem_ok; [|done]. bind_step.
  simpl World.depth. simpl World.height. simpl World.width.
  destruct (Z.to_nat depth) as [|n] eqn:En; [lia|]. cbn [fread_blocks].
  destruct (Z.to_nat height) as [|m] eqn:Em; [lia|]. cbn [fread_plane].
  unfold fread_row. destruct (Z.ltb_spec width 0); [done|lia].
Qed.

Lemma load_negative_width_witness :
  let file :=
    encode_int32 (-1) ++ encode_int32 1 ++ encode_int32 1
    ++ replicate 64 Byte.x00 in
  header file = (-1, 1, 1) /\ world_load true file = None.
Proof.
  assert (Hheader : header (encode_int32 (-1) ++ encode_int32 1 ++ encode_int32 1
                            ++ replicate 64 Byte.x00) = (-1, 1, 1))
    by (vm_compute; reflexivity).
  split; [exact Hheader|].
  apply (load_negative_width true _ (-1) 1 1 Hheader); lia.
Defined.

(** * Walking *)

Lemma eqb_refl (x : float) : is_nan x = false -> F32.eqb x x = true.
Proof.
  intros Hx. pose proof (leb_refl x Hx) as Hle.
  pose proof (leb_not_ltb x x Hle) as Hlt.
  unfold F32.eqb, F32.leb, F32.ltb, SFeqb, SFleb, SFltb in *.
  by destruct (SFcompare x x) as [[]|].
Qed.

Lemma add_zero_eqb (x : float) :
  is_nan x = false -> F32.eqb (x + S754_zero false)%flt x = true.
Proof. destruct x as [[]|[]| |[] m e]; try done; intros _; by apply eqb_refl. Qed.

Lemma eqb_zero_cases (x : float) :
  F32.eqb x F32.zero = true -> exists s : bool, x = S754_zero s.
Proof.
  destruct x as [s|[]| |[] m e]; try done. intros _. by exists s.
Qed.

(** X28. Walking. [player_move] never makes the stamina negative: a
    stamina of at least 0 is still at least 0 afterwards. It moves
    nothing but the stamina and the horizontal velocity. With neither a
    forward nor a sideways input (both 0, of either sign) the stamina is
    left as it is and a horizontal velocity that is a number compares
    equal to what it was. *)
Theorem move_keeps_stamina `{Libm} (player : Player)
    (forward right delta_time : float) :
  F32.leb F32.zero (Player.stamina player) = true ->
  let player' := player_move player forward right delta_time in
  F32.leb F32.zero (Player.stamina player') = true /\
  Player.position player' = Player.position player /\
  v_z (Player.velocity player') = v_z (Player.velocity player) /\
  Player.rotation player' = Player.rotation player /\
  Player.grounded player' = Player.grounded player /\
  Player.inventory player' = Player.inventory player /\
  (F32.eqb forward F32.zero = true -> F32.eqb right F32.zero = true ->
   Player.stamina player' = Player.stamina player /\
   (is_nan (v_x (Player.velocity player)) = false ->
    F32.eqb (v_x (Player.velocity player')) (v_x (Player.velocity player)) = true) /\
   (is_nan (v_y (Player.velocity player)) = false ->
    F32.eqb (v_y (Player.velocity player')) (v_y (Player.velocity player)) = true)).
Proof.
  intros Hs player'.
  split; [|split; [done|split; [done|split; [done|split; [done|split; [done|]]]]]].
  - unfold player', player_move. cbv zeta. cbn [Player.stamina].
    destruct (_ && _); [|done]. destruct (_ && _) eqn:Hrun; [|done].
    destruct (leb_not_nan _ _ Hs) as [_ Hnan].
    assert (Hsub : is_nan (Player.stamina player - F32.lit 2 10)%flt = false)
      by (by apply sub_not_nan).
    destruct (_ <? F32.zero)%flt eqn:Hneg; [by vm_compute|].
    apply ltb_false_leb; done.
  - intros Hf Hr.
    apply eqb_zero_cases in Hf as [sf ->]. apply eqb_zero_cases in Hr as [sr ->].
    unfold player', player_move. cbv zeta.
    cbn [Player.stamina Player.velocity v_x v_y].
    replace (negb (S754_zero sf =? F32.zero)%flt) with false by (by destruct sf).
    replace (negb (S754_zero sr =? F32.zero)%flt) with false by (by destruct sr).
    cbv iota.
    replace (F32.zero <? vec3_length (vec3_create F32.zero F32.zero F32.zero))%flt
      with false by (vm_compute; reflexivity).
    rewrite andb_false_r. cbv iota. cbn [v_x v_y].
    split; [done|].
    assert (Hzero : (F32.zero * (if truthy (Player.flying player)
                                 then PLAYER_SPEED * F32.of_Z 2
                                 else PLAYER_SPEED))%flt = S754_zero false)
      by (destruct (truthy _); vm_compute; reflexivity).
    rewrite Hzero. split; apply add_zero_eqb.
Qed.

Lemma move_keeps_stamina_witness :
  F32.leb F32.zero (Player.stamina row_player) = true /\
  F32.leb F32.zero
    (Player.stamina (@player_move libm_at_zero row_player F32.one F32.zero
                       frame_time)) = true.
Proof.
  assert (Hs : F32.leb F32.zero (Player.stamina row_player) = true)
    by (vm_compute; reflexivity).
  split; [exact Hs|].
  exact (proj1 (@move_keeps_stamina libm_at_zero row_player F32.one F32.zero
                  frame_time Hs)).
Defined.
